(** * amptune: the SEG-Y writer, the amplification engine and the selection

    A shallow embedding of the SEG-Y writer ([ioutils::SegyWriter]), of the
    amplification engine ([namespace amplify]), and of the selection and
    history handling of the user interface ([SeismicCanvas], [SeismicApp]),
    together with the properties stated about them.

    Conventions of the embedding.
    - [float] is IEEE-754 binary32 and [double] binary64, both as
      [spec_float] with round-to-nearest-even ([SpecFloat] of the standard
      library); NaN carries no payload, so nothing is stated about the
      bytes that the writer makes of a NaN sample.
    - [std::vector<T>] is [list T], and so is [QVector<T>]; [operator[]] out
      of range is undefined behaviour and shows up as the outcome [Undefined].
    - A handler of the canvas returns the canvas as its own statements leave
      it and, when it emits [windowSelected], the points that the signal
      carries; the slot that the main window connects is not run.
    - [int] is a [Z] in the signed 32-bit range; signed overflow and a
      float-to-integer conversion whose value does not fit are undefined
      behaviour ([Undefined]); [static_cast<int>] of a [size_t] wraps.
    - [throw] is the outcome [Throw what].
    - A [std::ofstream] buffers as its implementation sees fit: what a write
      passes on to the file is a parameter of the state; [close()] and the
      destructor pass on the rest, and nothing reports their failure.
    - Float expressions are evaluated operation by operation, none contracted
      into a fused multiply-add; the host is little-endian, as the writer's
      swap before each [memcpy] into a header assumes. *)

From Stdlib Require Import ZArith Lia Bool String Ascii.
From Stdlib Require Import Strings.Byte DecimalString.
From Stdlib Require Import Floats.SpecFloat.
From stdpp Require Import base option list strings gmap.

Set Default Proof Using "Type".

(** ** Outcomes of a C++ computation *)

Inductive outcome (A : Type) : Type :=
| Ok (a : A)
| Throw (what : string)
| Undefined.
Arguments Ok {A} a.
Arguments Throw {A} what.
Arguments Undefined {A}.

Definition bind {A B} (c : outcome A) (k : A -> outcome B) : outcome B :=
  match c with
  | Ok a => k a
  | Throw w => Throw w
  | Undefined => Undefined
  end.

Declare Scope cxx_scope.
Delimit Scope cxx_scope with cxx.
Notation "x <- c ;; k" := (bind c (fun x => k))
  (at level 100, c at next level, right associativity) : cxx_scope.
Local Open Scope cxx_scope.

(** A [for] statement whose control variable runs through [l] in order. *)
Fixpoint for_each {I S} (l : list I) (body : I -> S -> outcome S) (s : S)
  : outcome S :=
  match l with
  | [] => Ok s
  | i :: l' => s' <- body i s ;; for_each l' body s'
  end.

(** ** Machine integers *)

Definition INT_MIN : Z := (- 2 ^ 31)%Z.
Definition INT_MAX : Z := (2 ^ 31 - 1)%Z.

Definition in_int (z : Z) : bool := ((INT_MIN <=? z) && (z <=? INT_MAX))%Z.

(** Two's complement wrap of a [size_t] converted to [int]. *)
Definition wrap_int (z : Z) : Z := ((z + 2 ^ 31) mod 2 ^ 32 - 2 ^ 31)%Z.

Definition static_cast_int (n : nat) : Z := wrap_int (Z.of_nat n).

(** Signed arithmetic: overflow is undefined. *)
Definition checked (z : Z) : outcome Z := if in_int z then Ok z else Undefined.
Definition int_add (a b : Z) : outcome Z := checked (a + b).
Definition int_sub (a b : Z) : outcome Z := checked (a - b).

(** [std::min] and [std::max] on [int]. *)
Definition int_min (a b : Z) : Z := if (b <? a)%Z then b else a.
Definition int_max (a b : Z) : Z := if (a <? b)%Z then b else a.

(** [for (int i = lo; i <= hi; ++i)]: the values of [i], and the overflow of
    the last [++i] when [hi] is [INT_MAX]. *)
Definition int_range (lo hi : Z) : list Z :=
  map (fun k => (lo + Z.of_nat k)%Z) (seq 0 (Z.to_nat (hi - lo + 1))).

Definition for_int {S} (lo hi : Z) (body : Z -> S -> outcome S) (s : S)
  : outcome S :=
  s' <- for_each (int_range lo hi) body s ;;
  if ((lo <=? hi) && (hi =? INT_MAX))%Z then Undefined else Ok s'.

(** [for (int i = hi; i >= 0; --i)]. *)
Definition int_down (hi : Z) : list Z :=
  map Z.of_nat (rev (seq 0 (Z.to_nat (hi + 1)))).

(** ** Vectors *)

(** [v[i]] for a [size_t] index. *)
Definition at_ {A} (v : list A) (i : nat) : outcome A :=
  match v !! i with
  | Some x => Ok x
  | None => Undefined
  end.

(** [v[i] = x] for a [size_t] index. *)
Definition assign {A} (v : list A) (i : nat) (x : A) : outcome (list A) :=
  if decide (i < length v) then Ok (<[i := x]> v) else Undefined.

(** An [int] index converts to [size_t]; a negative one lands out of range. *)
Definition index_of_int (i : Z) : outcome nat :=
  if (i <? 0)%Z then Undefined else Ok (Z.to_nat i).

(** [g[i][j]] and [g[i][j] = x]. *)
Definition at2 {A} (g : list (list A)) (i j : nat) : outcome A :=
  row <- at_ g i ;; at_ row j.

Definition assign2 {A} (g : list (list A)) (i j : nat) (x : A)
  : outcome (list (list A)) :=
  row <- at_ g i ;; row' <- assign row j x ;; assign g i row'.

Definition at2_int {A} (g : list (list A)) (i j : Z) : outcome A :=
  i' <- index_of_int i ;; j' <- index_of_int j ;; at2 g i' j'.

Definition assign2_int {A} (g : list (list A)) (i j : Z) (x : A)
  : outcome (list (list A)) :=
  i' <- index_of_int i ;; j' <- index_of_int j ;; assign2 g i' j' x.

(** [std::vector<std::vector<T>>(n, std::vector<T>(m, x))]. *)
Definition grid {A} (n m : nat) (x : A) : list (list A) :=
  replicate n (replicate m x).

(** A grid has shape [(n, m)]: [n] rows of [m] cells each. *)
Definition has_shape {A} (n m : nat) (g : list (list A)) : Prop :=
  length g = n /\ Forall (fun row => length row = m) g.

(** Cell lookup, [None] outside the grid. *)
Definition cell {A} (g : list (list A)) (i j : nat) : option A :=
  row ← g !! i; row !! j.

(** ** IEEE-754 arithmetic *)

Section IEEE.
Variables prec emax : Z.

(** Conversion of an integer, rounding to nearest. *)
Definition fl_of_Z (z : Z) : spec_float := binary_normalize prec emax z 0 false.

(** Re-rounding of a value of another format (exact when it is wider). *)
Definition fl_round (x : spec_float) : spec_float :=
  match x with
  | S754_finite s m e => binary_round prec emax s m e
  | _ => x
  end.
End IEEE.

(** Truncation toward zero of a finite value; [None] for NaN and infinities. *)
Definition fl_trunc (x : spec_float) : option Z :=
  match x with
  | S754_zero _ => Some 0%Z
  | S754_finite s m e =>
      let a := match e with
               | Zneg p => Z.shiftr (Zpos m) (Zpos p)
               | _ => Z.shiftl (Zpos m) e
               end in
      Some (if s then (- a)%Z else a)
  | _ => None
  end.

Abbreviation float := spec_float.
Abbreviation double := spec_float.

Definition f32_add : float -> float -> float := SFadd 24 128.
Definition f32_sub : float -> float -> float := SFsub 24 128.
Definition f32_mul : float -> float -> float := SFmul 24 128.
Definition f32_div : float -> float -> float := SFdiv 24 128.
Definition f32_sqrt : float -> float := SFsqrt 24 128.
Definition f32_of_int : Z -> float := fl_of_Z 24 128.
Definition f32_of_double : double -> float := fl_round 24 128.

Definition f64_add : double -> double -> double := SFadd 53 1024.
Definition f64_mul : double -> double -> double := SFmul 53 1024.
Definition f64_div : double -> double -> double := SFdiv 53 1024.
Definition f64_sqrt : double -> double := SFsqrt 53 1024.
Definition f64_of_int : Z -> double := fl_of_Z 53 1024.
Definition f64_of_float : float -> double := fl_round 53 1024.

(** Comparisons are those of IEEE-754: every one is false on NaN but [!=]. *)
Definition fl_lt : spec_float -> spec_float -> bool := SFltb.
Definition fl_le : spec_float -> spec_float -> bool := SFleb.
Definition fl_eq : spec_float -> spec_float -> bool := SFeqb.
Definition fl_ne (x y : spec_float) : bool := negb (SFeqb x y).

(** [std::min(a, b)] is [(b < a) ? b : a], [std::max(a, b)] is
    [(a < b) ? b : a]. *)
Definition fl_min (a b : spec_float) : spec_float := if fl_lt b a then b else a.
Definition fl_max (a b : spec_float) : spec_float := if fl_lt a b then b else a.

Definition f32_zero : float := S754_zero false.
Definition f32_one : float := Eval cbv in f32_of_int 1.
Definition f32_infinity : float := S754_infinity false.
Definition f64_zero : double := S754_zero false.

(** [static_cast<int>(x)] and [static_cast<uint16_t>(x)]: truncation, undefined
    when the truncated value is not representable. *)
Definition float_to_int (x : spec_float) : outcome Z :=
  match fl_trunc x with
  | Some z => if in_int z then Ok z else Undefined
  | None => Undefined
  end.

Definition float_to_uint16 (x : spec_float) : outcome Z :=
  match fl_trunc x with
  | Some z => if ((0 <=? z) && (z <? 65536))%Z then Ok z else Undefined
  | None => Undefined
  end.

(** The bit pattern of a [float], as [memcpy] into a [uint32_t] reads it.
    [spec_float] has one NaN; it stands here for the quiet NaN 0x7FC00000,
    while a NaN of the program may have its sign bit set or carry a payload.
    The statements about the bytes of a sample are therefore made of samples
    that are not NaN. *)
Definition float_bits (x : float) : Z :=
  let sign (s : bool) := if s then 0x80000000%Z else 0%Z in
  match x with
  | S754_zero s => sign s
  | S754_infinity s => (sign s + 0x7f800000)%Z
  | S754_nan => 0x7fc00000%Z
  | S754_finite s m e =>
      if (Zpos m <? 2 ^ 23)%Z then (sign s + Zpos m)%Z
      else (sign s + (e + 150) * 2 ^ 23 + (Zpos m - 2 ^ 23))%Z
  end.

(** * The SEG-Y writer ([ioutils::SegyWriter]) *)

Module Segy.

Abbreviation bytes := (list byte).

(** ** Byte order and the IBM float encoding *)

(** [(val << 8) | (val >> 8)], computed in [int] and cut back to [uint16_t]. *)
Definition swapBytes16 (val : Z) : Z :=
  (Z.lor (Z.shiftl val 8) (Z.shiftr val 8) mod 2 ^ 16)%Z.

Definition swapBytes32 (val : Z) : Z :=
  let val := Z.lor (Z.land (Z.shiftl val 8 mod 2 ^ 32) 0xFF00FF00)
                   (Z.land (Z.shiftr val 8) 0xFF00FF) in
  Z.lor (Z.shiftl val 16 mod 2 ^ 32) (Z.shiftr val 16).

Definition it : list Z := [0x21200000; 0x21400000; 0x21800000; 0x22100000]%Z.
Definition mt : list Z := [2; 4; 8; 1]%Z.

(** The body of [ieeeToIbm] after the [memcpy] of the argument into [ieee].
    The index [ix] is at most 3, so the table reads are in range. *)
Definition ieeeToIbm_bits (ieee : Z) : Z :=
  if (ieee =? 0)%Z then 0%Z else
  let ix := Z.shiftr (Z.land ieee 0x01800000) 23 in
  let iexp := ((Z.shiftr (Z.land ieee 0x7e000000) 1
                + nth (Z.to_nat ix) it 0%Z) mod 2 ^ 32)%Z in
  let manthi := Z.shiftr ((nth (Z.to_nat ix) mt 0%Z
                           * Z.land ieee 0x007fffff) mod 2 ^ 32) 3 in
  let ibm_bits := Z.lor ((manthi + iexp) mod 2 ^ 32) (Z.land ieee 0x80000000) in
  if (Z.land ieee 0x7fffffff =? 0)%Z then 0%Z else ibm_bits.

Definition ieeeToIbm (f : float) : Z := ieeeToIbm_bits (float_bits f).

(** ** Memory images on the (little-endian) host *)

Definition byte_of_Z (z : Z) : byte :=
  default x00 (Byte.of_N (Z.to_N (z mod 256))).

Definition Z_of_byte (b : byte) : Z := Z.of_N (Byte.to_N b).

(** The object representation of a [uint16_t] and of a [uint32_t]. *)
Definition object16 (v : Z) : bytes :=
  [byte_of_Z v; byte_of_Z (Z.shiftr v 8)].

Definition object32 (v : Z) : bytes :=
  [byte_of_Z v; byte_of_Z (Z.shiftr v 8);
   byte_of_Z (Z.shiftr v 16); byte_of_Z (Z.shiftr v 24)].

(** [std::memcpy(&v, p + off, 2)] for a [uint16_t v]. *)
Definition load16 (p : bytes) (off : nat) : outcome Z :=
  b0 <- at_ p off ;; b1 <- at_ p (off + 1) ;;
  Ok (Z_of_byte b0 + 256 * Z_of_byte b1)%Z.

(** [std::memcpy(p + off, src, length src)]. *)
Fixpoint memcpy (p : bytes) (off : nat) (src : bytes) : outcome bytes :=
  match src with
  | [] => Ok p
  | b :: src' => p' <- assign p off b ;; memcpy p' (S off) src'
  end.

(** ** Files and the output stream *)

(** The state that the file operations act on. The medium: the files by
    path, whether a file can be created, and how many more bytes the medium
    takes. The output stream of the writer: the bytes that were written to it
    and have not reached the file, and how it buffers. The C++ standard
    leaves the buffering to the implementation, so it is a parameter:
    [buffering d held n] is the number of bytes that go through to the file
    when [n] bytes are written to a stream that holds [held] bytes back,
    oldest first (at most [held + n]; with 0 the stream keeps them all). *)
Record disk := Disk {
  files : gmap string bytes;
  read_only : bool;
  free_space : nat;
  buffering : nat -> nat -> nat;
  pending : bytes
}.

(** File operations change the state and may throw. *)
Definition io (A : Type) : Type := disk -> outcome A * disk.

Definition io_ret {A} (a : A) : io A := fun d => (Ok a, d).
Definition io_throw {A} (what : string) : io A := fun d => (Throw what, d).
Definition io_lift {A} (c : outcome A) : io A := fun d => (c, d).
Definition io_bind {A B} (c : io A) (k : A -> io B) : io B :=
  fun d => match c d with
           | (Ok a, d') => k a d'
           | (Throw w, d') => (Throw w, d')
           | (Undefined, d') => (Undefined, d')
           end.

Declare Scope io_scope.
Delimit Scope io_scope with io.
Notation "x <~ c ;; k" := (io_bind c (fun x => k))
  (at level 100, c at next level, right associativity) : io_scope.
Notation "c ;;; k" := (io_bind c (fun _ => k))
  (at level 100, right associativity) : io_scope.

Fixpoint io_for_each {I} (l : list I) (body : I -> io unit) : io unit :=
  match l with
  | [] => io_ret tt
  | i :: l' => (body i ;;; io_for_each l' body)%io
  end.

(** The stream hands [p] to the file at [path]: the bytes go to the end of
    the file as far as the medium has room; the result tells whether all of
    them did. *)
Definition transfer (path : string) (p : bytes) (d : disk) : bool * disk :=
  let old := default [] (files d !! path) in
  if decide (length p <= free_space d)
  then (true, Disk (<[path := old ++ p]> (files d)) (read_only d)
                   (free_space d - length p) (buffering d) (pending d))
  else (false, Disk (<[path := old ++ take (free_space d) p]> (files d))
                    (read_only d) 0 (buffering d) (pending d)).

(** [std::ofstream file(path, std::ios::binary)]: creates the file, or
    truncates it and gives its bytes back to the medium; the stream holds
    nothing back; the result is [file.is_open()]. *)
Definition ofstream_open (path : string) : io bool :=
  fun d => if read_only d then (Ok false, d)
           else (Ok true,
                 Disk (<[path := []]> (files d)) (read_only d)
                      (free_space d + length (default [] (files d !! path)))
                      (buffering d) []).

(** [file.write(p, n)] followed by [file.good()]. The bytes join those that
    the stream holds back; as many of them as the buffering says go through
    to the file, and the stream stays good unless these do not all fit. The
    writer tests [good()] after every write and throws when it is false, so
    no write is made on a stream that has failed. *)
Definition ofstream_write (path : string) (p : bytes) : io bool :=
  fun d =>
    let held := pending d ++ p in
    let through := buffering d (length (pending d)) (length p) in
    let '(good, d') := transfer path (take through held) d in
    (Ok good, Disk (files d') (read_only d') (free_space d') (buffering d')
                   (drop through held)).

(** [file.close()]: what the stream holds back goes to the file. Nothing
    tests the stream afterwards, so a failure here goes unseen. *)
Definition ofstream_close (path : string) : io unit :=
  fun d =>
    let d' := (transfer path (pending d) d).2 in
    (Ok tt, Disk (files d') (read_only d') (free_space d') (buffering d') []).

(** The scope of a local [std::ofstream file]: [body] ends with
    [file.close()] when it returns, and the destructor of [file] closes it
    when [body] throws. *)
Definition with_ofstream {A} (path : string) (body : io A) : io A :=
  fun d => match body d with
           | (Undefined, d') => (Undefined, d')
           | (o, d') => (o, (ofstream_close path d').2)
           end.

(** ** The writer *)

Record SegyWriter := {
  target_path_ : string;
  reference_path_ : string;
  text_header_ : bytes;
  binary_header_ : bytes;
  reference_trace_headers_ : list bytes
}.

Definition to_string (n : nat) : string :=
  NilEmpty.string_of_uint (Nat.to_uint n).

Definition trace_header_size : nat := 240.

(** [readReferenceFile], run by the constructor. The input stream is the
    content [f] of the reference file; a [read] of [n] bytes at [pos] yields
    [take n (drop pos f)] and [gcount()] is its length. *)
Definition readReferenceFile (reference_path : string) (d : disk)
  : outcome (bytes * bytes * list bytes) :=
  match files d !! reference_path with
  | None => Throw ("Cannot open reference SEGY file: " ++ reference_path)
  | Some f =>
      let text_header := take 3200 f in
      if negb (length text_header =? 3200) then
        Throw "Failed to read text header from reference file"
      else
      let binary_header := take 400 (drop 3200 f) in
      if negb (length binary_header =? 400) then
        Throw "Failed to read binary header from reference file"
      else
      raw <- load16 binary_header 20 ;;
      let n_samples_per_trace := swapBytes16 raw in
      if (n_samples_per_trace =? 0)%Z then
        Throw "Number of samples per trace is zero in reference file"
      else
      let full_trace_size := trace_header_size + Z.to_nat n_samples_per_trace * 4 in
      let file_size := length f in
      let data_size := file_size - 3600 in
      let num_traces := data_size / full_trace_size in
      headers <- for_each (seq 0 num_traces)
        (fun i hs =>
           let h := take trace_header_size (drop (3600 + i * full_trace_size) f) in
           if negb (length h =? trace_header_size) then
             Throw ("Failed to read trace header " ++ to_string i
                    ++ " from reference file")
           else Ok (hs ++ [h]))
        [] ;;
      Ok (text_header, binary_header, headers)
  end.

(** [SegyWriter::SegyWriter(target_path, reference_path)]. *)
Definition new_SegyWriter (target_path reference_path : string) (d : disk)
  : outcome SegyWriter :=
  r <- readReferenceFile reference_path d ;;
  Ok {| target_path_ := target_path;
        reference_path_ := reference_path;
        text_header_ := r.1.1;
        binary_header_ := r.1.2;
        reference_trace_headers_ := r.2 |}.

Local Open Scope io_scope.

Definition writeTextHeader (w : SegyWriter) : io unit :=
  good <~ ofstream_write (target_path_ w) (text_header_ w) ;;
  if good then io_ret tt else io_throw "Failed to write text header".

Definition writeBinaryHeader (w : SegyWriter) (sample_interval : double)
    (num_samples : nat) : io unit :=
  let header_copy := binary_header_ w in
  dt_us <~ io_lift (float_to_uint16
                      (f64_mul sample_interval (f64_of_int 1000000))) ;;
  let dt_us := swapBytes16 dt_us in
  header_copy <~ io_lift (memcpy header_copy 16 (object16 dt_us)) ;;
  let n_samples := (Z.of_nat num_samples mod 2 ^ 16)%Z in
  let n_samples := swapBytes16 n_samples in
  header_copy <~ io_lift (memcpy header_copy 20 (object16 n_samples)) ;;
  good <~ ofstream_write (target_path_ w) header_copy ;;
  if good then io_ret tt else io_throw "Failed to write binary header".

Definition writeTraces (w : SegyWriter) (data : list (list float))
    (trace_headers : list bytes) : io unit :=
  io_for_each (seq 0 (length data)) (fun i =>
    header <~ io_lift (at_ trace_headers i) ;;
    good <~ ofstream_write (target_path_ w) header ;;
    if negb good then
      io_throw ("Failed to write trace header " ++ to_string i)
    else
    row <~ io_lift (at_ data i) ;;
    io_for_each (seq 0 (length row)) (fun j =>
      x <~ io_lift (at_ row j) ;;
      let ibm := ieeeToIbm x in
      let ibm := swapBytes32 ibm in
      good <~ ofstream_write (target_path_ w) (object32 ibm) ;;
      if negb good then
        io_throw ("Failed to write sample " ++ to_string j
                  ++ " from trace " ++ to_string i)
      else io_ret tt)).

(** The messages of the three consistency checks and of the empty volume. *)
Definition DataIsEmpty : string := "Data is empty".
Definition InconsistentTraceLength : string :=
  "All traces must have the same number of samples".
Definition HeaderCountMismatch : string :=
  "Number of trace headers must match number of traces".
Definition MalformedHeader : string :=
  "Each trace header must be exactly 240 bytes".

(** The part of [writeFile] that follows the checks: it opens the target,
    writes the headers and the traces, and closes the target. *)
Definition emit (w : SegyWriter) (data : list (list float))
    (sample_interval : double) (trace_headers : list bytes)
    (num_samples : nat) : io unit :=
  is_open <~ ofstream_open (target_path_ w) ;;
  if negb is_open then
    io_throw ("Cannot create output SEGY file: " ++ target_path_ w)
  else
  with_ofstream (target_path_ w)
    (writeTextHeader w ;;;
     writeBinaryHeader w sample_interval num_samples ;;;
     writeTraces w data trace_headers).

(** [writeFile(data, sample_interval, trace_headers)]. *)
Definition writeFile (w : SegyWriter) (data : list (list float))
    (sample_interval : double) (trace_headers : list bytes) : io unit :=
  if decide (data = []) then io_throw DataIsEmpty else
  let num_traces := length data in
  row0 <~ io_lift (at_ data 0) ;;
  let num_samples := length row0 in
  io_for_each (seq 1 (num_traces - 1)) (fun i =>
    row <~ io_lift (at_ data i) ;;
    if negb (length row =? num_samples) then io_throw InconsistentTraceLength
    else io_ret tt) ;;;
  if negb (length trace_headers =? num_traces) then
    io_throw HeaderCountMismatch
  else
  io_for_each (seq 0 num_traces) (fun i =>
    h <~ io_lift (at_ trace_headers i) ;;
    if negb (length h =? 240) then io_throw MalformedHeader
    else io_ret tt) ;;;
  emit w data sample_interval trace_headers num_samples.

(** [writeFile(data, sample_interval)] uses the reference trace headers. *)
Definition writeFile_ref (w : SegyWriter) (data : list (list float))
    (sample_interval : double) : io unit :=
  writeFile w data sample_interval (reference_trace_headers_ w).

End Segy.

(** * The amplification engine ([namespace amplify]) *)

Module Amplify.

Record Point := { trace : Z; time_ms : float }.

Abbreviation SeismicData := (list (list float)).
Abbreviation BooleanMask := (list (list bool)).
Abbreviation FloatMask := (list (list float)).

Record AmplifyResult := {
  output_data : SeismicData;
  multiplier_mask : FloatMask;
  window_indices : BooleanMask
}.

(** [AmplifyResult(n_traces, n_samples)]. *)
Definition new_AmplifyResult (n_traces n_samples : nat) : AmplifyResult :=
  {| output_data := grid n_traces n_samples f32_zero;
     multiplier_mask := grid n_traces n_samples f32_one;
     window_indices := grid n_traces n_samples false |}.

Inductive TransitionMode := OUTSIDE | INSIDE.
Inductive ProcessingMode := SCALE | ALIGN.

(** ** [distanceTransformEDT] *)

(** One cell of the forward pass. *)
Definition forward_cell (trace_sampling time_sampling : float) (i j : nat)
    (distance_map : FloatMask) : outcome FloatMask :=
  min_dist <- at2 distance_map i j ;;
  min_dist <-
    (if decide (0 < i) then
       d <- at2 distance_map (i - 1) j ;;
       Ok (fl_min min_dist (f32_add d trace_sampling))
     else Ok min_dist) ;;
  min_dist <-
    (if decide (0 < j) then
       d <- at2 distance_map i (j - 1) ;;
       Ok (fl_min min_dist (f32_add d time_sampling))
     else Ok min_dist) ;;
  min_dist <-
    (if decide (0 < i /\ 0 < j) then
       d <- at2 distance_map (i - 1) (j - 1) ;;
       Ok (fl_min min_dist
             (f32_add d (f32_sqrt (f32_add (f32_mul trace_sampling trace_sampling)
                                           (f32_mul time_sampling time_sampling)))))
     else Ok min_dist) ;;
  assign2 distance_map i j min_dist.

(** One cell of the backward pass; [i] and [j] are [int] there. *)
Definition backward_cell (n_traces n_samples : nat)
    (trace_sampling time_sampling : float) (i j : Z)
    (distance_map : FloatMask) : outcome FloatMask :=
  min_dist <- at2_int distance_map i j ;;
  last_trace <- int_sub (static_cast_int n_traces) 1 ;;
  min_dist <-
    (if (i <? last_trace)%Z then
       i1 <- int_add i 1 ;;
       d <- at2_int distance_map i1 j ;;
       Ok (fl_min min_dist (f32_add d trace_sampling))
     else Ok min_dist) ;;
  last_sample <- int_sub (static_cast_int n_samples) 1 ;;
  min_dist <-
    (if (j <? last_sample)%Z then
       j1 <- int_add j 1 ;;
       d <- at2_int distance_map i j1 ;;
       Ok (fl_min min_dist (f32_add d time_sampling))
     else Ok min_dist) ;;
  min_dist <-
    (if ((i <? last_trace) && (j <? last_sample))%Z then
       i1 <- int_add i 1 ;;
       j1 <- int_add j 1 ;;
       d <- at2_int distance_map i1 j1 ;;
       Ok (fl_min min_dist
             (f32_add d (f32_sqrt (f32_add (f32_mul trace_sampling trace_sampling)
                                           (f32_mul time_sampling time_sampling)))))
     else Ok min_dist) ;;
  assign2_int distance_map i j min_dist.

Definition distanceTransformEDT (binary_mask : BooleanMask)
    (sampling : list float) : outcome FloatMask :=
  match binary_mask with
  | [] => Ok []
  | [] :: _ => Ok []
  | row0 :: _ =>
      let n_traces := length binary_mask in
      let n_samples := length row0 in
      let distance_map := grid n_traces n_samples f32_infinity in
      (* Initialize distance map *)
      distance_map <-
        for_each (seq 0 n_traces) (fun i =>
          for_each (seq 0 n_samples) (fun j distance_map =>
            b <- at2 binary_mask i j ;;
            if negb b then assign2 distance_map i j f32_zero
            else Ok distance_map))
          distance_map ;;
      trace_sampling <- at_ sampling 0 ;;
      time_sampling <- at_ sampling 1 ;;
      (* Forward pass *)
      distance_map <-
        for_each (seq 0 n_traces) (fun i =>
          for_each (seq 0 n_samples) (fun j distance_map =>
            b <- at2 binary_mask i j ;;
            if b then forward_cell trace_sampling time_sampling i j distance_map
            else Ok distance_map))
          distance_map ;;
      (* Backward pass *)
      for_each (int_down (static_cast_int (n_traces - 1))) (fun i =>
        for_each (int_down (static_cast_int (n_samples - 1)))
          (fun j distance_map =>
            b <- at2_int binary_mask i j ;;
            if b then backward_cell n_traces n_samples
                        trace_sampling time_sampling i j distance_map
            else Ok distance_map))
        distance_map
  end.

(** ** [createTransitionMask] *)

(** The loop nest that copies the window mask into a float mask. *)
Definition hard_mask (n_traces n_samples : nat) (window_indices : BooleanMask)
    (mask : FloatMask) : outcome FloatMask :=
  for_each (seq 0 n_traces) (fun i =>
    for_each (seq 0 n_samples) (fun j mask =>
      b <- at2 window_indices i j ;;
      assign2 mask i j (if b : bool then f32_one else f32_zero)))
    mask.

Definition createTransitionMask (seismic_data_shape : nat * nat)
    (window_indices : BooleanMask) (transition_width_traces : Z)
    (transition_width_time_ms dt_ms : float) (transition_mode : TransitionMode)
  : outcome FloatMask :=
  let n_traces := seismic_data_shape.1 in
  let n_samples := seismic_data_shape.2 in
  if ((transition_width_traces <=? 0)%Z
      || fl_le transition_width_time_ms f32_zero) then
    hard_mask n_traces n_samples window_indices (grid n_traces n_samples f32_zero)
  else
  let transition_width_samples := f32_div transition_width_time_ms dt_ms in
  let sampling := [f32_div f32_one (f32_of_int transition_width_traces);
                   f32_div f32_one transition_width_samples] in
  let mask := grid n_traces n_samples f32_zero in
  match transition_mode with
  | OUTSIDE =>
      inverted_mask <-
        for_each (seq 0 (length window_indices)) (fun i inverted_mask =>
          row <- at_ inverted_mask i ;;
          for_each (seq 0 (length row)) (fun j inverted_mask =>
            b <- at2 inverted_mask i j ;;
            assign2 inverted_mask i j (negb b))
            inverted_mask)
          window_indices ;;
      distances <- distanceTransformEDT inverted_mask sampling ;;
      for_each (seq 0 n_traces) (fun i =>
        for_each (seq 0 n_samples) (fun j mask =>
          d <- at2 distances i j ;;
          let transition_factor :=
            fl_max f32_zero (fl_min f32_one (f32_sub f32_one d)) in
          b <- at2 window_indices i j ;;
          assign2 mask i j (if b : bool then f32_one else transition_factor)))
        mask
  | INSIDE =>
      distances <- distanceTransformEDT window_indices sampling ;;
      max_dist_inside <-
        for_each (seq 0 n_traces) (fun i =>
          for_each (seq 0 n_samples) (fun j max_dist_inside =>
            b <- at2 window_indices i j ;;
            if b : bool then
              d <- at2 distances i j ;;
              Ok (fl_max max_dist_inside d)
            else Ok max_dist_inside))
          f32_zero ;;
      if fl_eq max_dist_inside f32_zero then
        hard_mask n_traces n_samples window_indices mask
      else
        for_each (seq 0 n_traces) (fun i =>
          for_each (seq 0 n_samples) (fun j mask =>
            b <- at2 window_indices i j ;;
            if b : bool then
              d <- at2 distances i j ;;
              assign2 mask i j (f32_div d max_dist_inside)
            else assign2 mask i j f32_zero))
          mask
  end.

(** ** [createWindowMask] *)

(** [std::max(0, std::min(static_cast<int>(n) - 1, x))]. *)
Definition clamp_index (n : nat) (x : Z) : outcome Z :=
  last <- int_sub (static_cast_int n) 1 ;;
  Ok (int_max 0 (int_min last x)).

(** [std::sort] on floats, by [operator<]; an insertion sort stands for it
    (on NaN-free input every sort by [<] gives this order up to the sign of
    zeros). *)
Fixpoint sort_insert (x : float) (l : list float) : list float :=
  match l with
  | [] => [x]
  | y :: l' => if fl_lt y x then y :: sort_insert x l' else x :: l
  end.

Definition sort (l : list float) : list float := foldr sort_insert [] l.

(** The crossings of the vertical line at [trace_idx] with the polygon edges. *)
Definition polygon_intersections (closed_polygon : list Point) (trace_idx : Z)
  : outcome (list float) :=
  for_each (seq 0 (length closed_polygon - 1)) (fun i intersections =>
    p1 <- at_ closed_polygon i ;;
    p2 <- at_ closed_polygon (i + 1) ;;
    let x1 := f32_of_int (trace p1) in
    let y1 := time_ms p1 in
    let x2 := f32_of_int (trace p2) in
    let y2 := time_ms p2 in
    if fl_ne x1 x2 then
      let t := f32_div (f32_sub (f32_of_int trace_idx) x1) (f32_sub x2 x1) in
      if fl_le f32_zero t && fl_le t f32_one then
        let y_intersect := f32_add y1 (f32_mul t (f32_sub y2 y1)) in
        Ok (intersections ++ [y_intersect])
      else Ok intersections
    else Ok intersections)
    [].

(** The fill of one trace of the polygon between pairs of crossings:
    [for (size_t i = 0; i < intersections.size(); i += 2)]. *)
Definition polygon_fill (n_traces n_samples : nat) (dt_ms : float)
    (trace_idx : Z) (intersections : list float)
    (window_indices : BooleanMask) : outcome BooleanMask :=
  for_each (map (fun k => 2 * k) (seq 0 ((length intersections + 1) / 2)))
    (fun i window_indices =>
      if decide (i + 1 < length intersections) then
        y0 <- at_ intersections i ;;
        start_sample <- float_to_int (f32_div y0 dt_ms) ;;
        y1 <- at_ intersections (i + 1) ;;
        end_sample <- float_to_int (f32_div y1 dt_ms) ;;
        start_sample <- clamp_index n_samples start_sample ;;
        end_sample <- clamp_index n_samples end_sample ;;
        for_int start_sample end_sample (fun sample window_indices =>
          if ((0 <=? trace_idx) && (trace_idx <? static_cast_int n_traces))%Z
          then assign2_int window_indices trace_idx sample true
          else Ok window_indices)
          window_indices
      else Ok window_indices)
    window_indices.

Definition createWindowMask (seismic_data_shape : nat * nat)
    (target_window : list Point) (dt_ms : float) : outcome BooleanMask :=
  let n_traces := seismic_data_shape.1 in
  let n_samples := seismic_data_shape.2 in
  let window_indices := grid n_traces n_samples false in
  if decide (target_window = []) then Ok window_indices else
  if decide (length target_window = 2) then
    (* Rectangle case *)
    p1 <- at_ target_window 0 ;;
    p2 <- at_ target_window 1 ;;
    let min_trace := int_min (trace p1) (trace p2) in
    let max_trace := int_max (trace p1) (trace p2) in
    s1 <- float_to_int (f32_div (time_ms p1) dt_ms) ;;
    s2 <- float_to_int (f32_div (time_ms p2) dt_ms) ;;
    let min_sample := int_min s1 s2 in
    let max_sample := int_max s1 s2 in
    min_trace <- clamp_index n_traces min_trace ;;
    max_trace <- clamp_index n_traces max_trace ;;
    min_sample <- clamp_index n_samples min_sample ;;
    max_sample <- clamp_index n_samples max_sample ;;
    for_int min_trace max_trace (fun trace =>
      for_int min_sample max_sample (fun sample window_indices =>
        assign2_int window_indices trace sample true))
      window_indices
  else if decide (length target_window < 3) then
    (* Single point case *)
    for_each target_window (fun point window_indices =>
      let trace := trace point in
      sample <- float_to_int (f32_div (time_ms point) dt_ms) ;;
      if ((0 <=? trace) && (trace <? static_cast_int n_traces)
          && (0 <=? sample) && (sample <? static_cast_int n_samples))%Z
      then assign2_int window_indices trace sample true
      else Ok window_indices)
      window_indices
  else
    (* Polygon *)
    first <- at_ target_window 0 ;;
    let min_trace :=
      foldl (fun acc point => int_min acc (trace point)) (trace first)
            target_window in
    let max_trace :=
      foldl (fun acc point => int_max acc (trace point)) (trace first)
            target_window in
    let closed_polygon := target_window ++ [first] in
    for_int min_trace max_trace (fun trace_idx window_indices =>
      intersections <- polygon_intersections closed_polygon trace_idx ;;
      let intersections := sort intersections in
      polygon_fill n_traces n_samples dt_ms trace_idx intersections
        window_indices)
      window_indices.

(** ** [calculateRMS] *)

Definition calculateRMS (data : SeismicData) (mask : BooleanMask)
  : outcome float :=
  match data with
  | [] => Ok f32_zero
  | [] :: _ => Ok f32_zero
  | _ =>
      acc <-
        for_each (seq 0 (length data)) (fun i acc =>
          row <- at_ data i ;;
          for_each (seq 0 (length row)) (fun j (acc : double * Z) =>
            b <- at2 mask i j ;;
            if b : bool then
              x <- at2 data i j ;;
              count <- int_add acc.2 1 ;;
              Ok (f64_add acc.1 (f64_of_float (f32_mul x x)), count)
            else Ok acc)
            acc)
          (f64_zero, 0%Z) ;;
      let sum_squares := acc.1 in
      let count := acc.2 in
      if (count =? 0)%Z then Ok f32_zero
      else Ok (f32_of_double (f64_sqrt (f64_div sum_squares (f64_of_int count))))
  end.

(** ** [findMaskBoundaries] *)

(** [std::min] and [std::max] on [size_t]. *)
Definition size_min (a b : nat) : nat := if b <? a then b else a.
Definition size_max (a b : nat) : nat := if a <? b then b else a.

Definition findMaskBoundaries (mask : BooleanMask)
  : outcome (nat * nat * nat * nat) :=
  match mask with
  | [] => Ok (0, 0, 0, 0)
  | [] :: _ => Ok (0, 0, 0, 0)
  | row0 :: _ =>
      let min_trace := length mask in
      let max_trace := 0 in
      let min_sample := length row0 in
      let max_sample := 0 in
      let found := false in
      acc <-
        for_each (seq 0 (length mask)) (fun i acc =>
          row <- at_ mask i ;;
          for_each (seq 0 (length row))
            (fun j (acc : bool * (nat * nat * nat * nat)) =>
               b <- at2 mask i j ;;
               if b : bool then
                 let '(min_trace, max_trace, min_sample, max_sample) := acc.2 in
                 Ok (true, (size_min min_trace i, size_max max_trace i,
                            size_min min_sample j, size_max max_sample j))
               else Ok acc)
            acc)
          (found, (min_trace, max_trace, min_sample, max_sample)) ;;
      if negb acc.1 then Ok (0, 0, 0, 0) else Ok acc.2
  end.

(** ** [amplifySeismicWindow] *)

(** The scan that sets [has_window] (and [has_surrounding]). *)
Definition any_true (mask : BooleanMask) : bool := existsb (existsb id) mask.

(** The literal [1e-9f]. *)
Definition f32_1e_9 : float :=
  Eval cbv in f32_div f32_one (f32_of_int 1000000000).

(** The window's bounding box, from [(n_traces, -1, n_time_samples, -1)]. *)
Definition window_aabb (n_traces n_time_samples : nat)
    (window_indices : BooleanMask) : outcome (Z * Z * Z * Z) :=
  for_each (seq 0 n_traces) (fun i =>
    for_each (seq 0 n_time_samples) (fun j (box : Z * Z * Z * Z) =>
      b <- at2 window_indices i j ;;
      if b : bool then
        let '(min_trace, max_trace, min_sample, max_sample) := box in
        Ok (int_min min_trace (static_cast_int i),
            int_max max_trace (static_cast_int i),
            int_min min_sample (static_cast_int j),
            int_max max_sample (static_cast_int j))
      else Ok box))
    (static_cast_int n_traces, (-1)%Z, static_cast_int n_time_samples, (-1)%Z).

(** The block that determines [target_amplification]. *)
Definition target_amplification (seismic_data : SeismicData) (dt_ms : float)
    (window_indices : BooleanMask) (mode : ProcessingMode)
    (scale_factor : float) (align_width_traces : Z)
    (align_width_time_ms : float) : outcome float :=
  let n_traces := length seismic_data in
  let n_time_samples := length (default [] (head seismic_data)) in
  match mode with
  | SCALE => Ok scale_factor
  | ALIGN =>
      rms_in_window <- calculateRMS seismic_data window_indices ;;
      align_width_time_samples <-
        float_to_int (f32_div align_width_time_ms dt_ms) ;;
      box <- window_aabb n_traces n_time_samples window_indices ;;
      let '(min_trace, max_trace, min_sample, max_sample) := box in
      lo_t <- int_sub min_trace align_width_traces ;;
      let expanded_min_trace := int_max 0 lo_t in
      last_t <- int_sub (static_cast_int n_traces) 1 ;;
      hi_t <- int_add max_trace align_width_traces ;;
      let expanded_max_trace := int_min last_t hi_t in
      lo_s <- int_sub min_sample align_width_time_samples ;;
      let expanded_min_sample := int_max 0 lo_s in
      last_s <- int_sub (static_cast_int n_time_samples) 1 ;;
      hi_s <- int_add max_sample align_width_time_samples ;;
      let expanded_max_sample := int_min last_s hi_s in
      surrounding_mask <-
        for_int expanded_min_trace expanded_max_trace (fun i =>
          for_int expanded_min_sample expanded_max_sample
            (fun j surrounding_mask =>
              b <- at2_int window_indices i j ;;
              if negb b then assign2_int surrounding_mask i j true
              else Ok surrounding_mask))
          (grid n_traces n_time_samples false) ;;
      let has_surrounding := any_true surrounding_mask in
      rms_surrounding <-
        (if has_surrounding then calculateRMS seismic_data surrounding_mask
         else Ok rms_in_window) ;;
      if fl_lt f32_1e_9 rms_in_window
      then Ok (f32_div rms_surrounding rms_in_window)
      else Ok f32_one
  end.

(** The final loop nest: multiplier mask and output. *)
Definition apply_gain (n_traces n_time_samples : nat)
    (seismic_data : SeismicData) (blending_mask : FloatMask)
    (target_amplification : float) (result : AmplifyResult)
  : outcome AmplifyResult :=
  for_each (seq 0 n_traces) (fun i =>
    for_each (seq 0 n_time_samples) (fun j result =>
      w <- at2 blending_mask i j ;;
      multiplier_mask <-
        assign2 (multiplier_mask result) i j
          (f32_add f32_one (f32_mul w (f32_sub target_amplification f32_one))) ;;
      x <- at2 seismic_data i j ;;
      m <- at2 multiplier_mask i j ;;
      output_data <- assign2 (output_data result) i j (f32_mul x m) ;;
      Ok {| output_data := output_data;
            multiplier_mask := multiplier_mask;
            window_indices := window_indices result |}))
    result.

Definition EmptyVolume : string := "Seismic data is empty".

Definition amplifySeismicWindow (seismic_data : SeismicData) (dt_ms : float)
    (target_window : list Point) (mode : ProcessingMode)
    (scale_factor : float) (transition_width_traces : Z)
    (transition_width_time_ms : float) (transition_mode : TransitionMode)
    (align_width_traces : Z) (align_width_time_ms : float)
  : outcome AmplifyResult :=
  match seismic_data with
  | [] => Throw EmptyVolume
  | [] :: _ => Throw EmptyVolume
  | row0 :: _ =>
      let n_traces := length seismic_data in
      let n_time_samples := length row0 in
      let result := new_AmplifyResult n_traces n_time_samples in
      window <- createWindowMask (n_traces, n_time_samples) target_window dt_ms ;;
      if decide (target_window = []) then
        Ok {| output_data := seismic_data;
              multiplier_mask := multiplier_mask result;
              window_indices := window_indices result |}
      else
      let has_window := any_true window in
      if negb has_window then
        Ok {| output_data := seismic_data;
              multiplier_mask := multiplier_mask result;
              window_indices := window_indices result |}
      else
      blending_mask <-
        createTransitionMask (n_traces, n_time_samples) window
          transition_width_traces transition_width_time_ms dt_ms
          transition_mode ;;
      gain <-
        target_amplification seismic_data dt_ms window mode scale_factor
          align_width_traces align_width_time_ms ;;
      result <-
        apply_gain n_traces n_time_samples seismic_data blending_mask gain
          result ;;
      Ok {| output_data := output_data result;
            multiplier_mask := multiplier_mask result;
            window_indices := window |}
  end.

End Amplify.

(** * The selection canvas ([SeismicCanvas]) *)

Module Canvas.

Definition f64_sub : double -> double -> double := SFsub 53 1024.

(** [QPointF]: a pair of [qreal], that is of [double]. *)
Definition QPointF : Type := double * double.

(** [QPointF()]. *)
Definition origin : QPointF := (f64_zero, f64_zero).

Inductive SelectionMode := POINT_BY_POINT | RECTANGLE.

Inductive MouseButton := LeftButton | RightButton | OtherButton.

Inductive Key := Key_Return | Key_Enter | Key_Escape | Key_Other.

(** The members that hold the data and the selection, and the size of the
    widget; the pixmap and the colours of the display are left out. *)
Record SeismicCanvas := {
  m_data : list (list float);
  m_processedData : list (list float);
  m_sampleInterval : double;
  m_selectionMode : SelectionMode;
  m_points : list QPointF;
  m_rectStart : QPointF;
  m_dragging : bool;
  width : Z;
  height : Z
}.

Definition set_selection (c : SeismicCanvas) (points : list QPointF)
    (rectStart : QPointF) (dragging : bool) : SeismicCanvas :=
  {| m_data := m_data c; m_processedData := m_processedData c;
     m_sampleInterval := m_sampleInterval c;
     m_selectionMode := m_selectionMode c;
     m_points := points; m_rectStart := rectStart; m_dragging := dragging;
     width := width c; height := height c |}.

Definition clearSelection (c : SeismicCanvas) : SeismicCanvas :=
  set_selection c [] origin false.

Definition setSelectionMode (mode : SelectionMode) (c : SeismicCanvas)
  : SeismicCanvas :=
  match m_selectionMode c, mode with
  | POINT_BY_POINT, POINT_BY_POINT | RECTANGLE, RECTANGLE => c
  | _, _ =>
      clearSelection
        {| m_data := m_data c; m_processedData := m_processedData c;
           m_sampleInterval := m_sampleInterval c;
           m_selectionMode := mode;
           m_points := m_points c; m_rectStart := m_rectStart c;
           m_dragging := m_dragging c;
           width := width c; height := height c |}
  end.

Definition updateProcessedData (new_data : list (list float))
    (c : SeismicCanvas) : SeismicCanvas :=
  match new_data, m_data c with
  | new0 :: _, data0 :: _ =>
      if negb (length new_data =? length (m_data c))
         || negb (length new0 =? length data0)
      then c
      else
        {| m_data := m_data c; m_processedData := new_data;
           m_sampleInterval := m_sampleInterval c;
           m_selectionMode := m_selectionMode c;
           m_points := m_points c; m_rectStart := m_rectStart c;
           m_dragging := m_dragging c;
           width := width c; height := height c |}
  | _, _ => c
  end.

(** [pixelToDataCoords]: the pixel scaled to (trace, time in ms) and clamped
    to the extent of the data. *)
Definition pixelToDataCoords (pixelPoint : QPointF) (c : SeismicCanvas)
  : QPointF :=
  match m_data c with
  | [] => origin
  | [] :: _ => origin
  | data0 :: _ =>
      let n_traces := f64_of_int (Z.of_nat (length (m_data c))) in
      let max_time :=
        f64_mul (f64_mul (f64_of_int (Z.of_nat (length data0) - 1))
                         (m_sampleInterval c))
                (f64_of_int 1000) in
      if ((width c <=? 1) || (height c <=? 1))%Z then origin else
      let trace :=
        f64_mul (f64_div pixelPoint.1 (f64_of_int (width c - 1)))
                (f64_sub n_traces (f64_of_int 1)) in
      let time_ms :=
        f64_mul (f64_div pixelPoint.2 (f64_of_int (height c - 1))) max_time in
      let trace :=
        fl_max f64_zero (fl_min (f64_sub n_traces (f64_of_int 1)) trace) in
      let time_ms := fl_max f64_zero (fl_min max_time time_ms) in
      (trace, time_ms)
  end.

(** A handler returns the canvas as its own statements leave it, and the
    argument of [windowSelected] when it emits the signal. What the slots do
    that are connected to the signal is not part of the handler: the main
    window connects [onWindowSelected] directly, which runs inside the
    [emit] and, when the processing goes through, ends with
    [updateProcessedData] and [clearSelection] on this canvas. *)
Definition finalizeSelection (c : SeismicCanvas)
  : SeismicCanvas * option (list QPointF) :=
  if length (m_points c) <? 2 then (clearSelection c, None)
  else (c, Some (m_points c)).

(** [event->pos()] is a point of integer pixels. *)
Definition pos_of (x y : Z) : QPointF := (f64_of_int x, f64_of_int y).

Definition mousePressEvent (button : MouseButton) (x y : Z) (c : SeismicCanvas)
  : SeismicCanvas * option (list QPointF) :=
  match m_data c with
  | [] => (c, None)
  | _ =>
      match button with
      | LeftButton =>
          match m_selectionMode c with
          | POINT_BY_POINT =>
              (set_selection c
                 (m_points c ++ [pixelToDataCoords (pos_of x y) c])
                 (m_rectStart c) (m_dragging c), None)
          | RECTANGLE =>
              let c := clearSelection c in
              (set_selection c (m_points c)
                 (pixelToDataCoords (pos_of x y) c) true, None)
          end
      | RightButton =>
          match m_selectionMode c with
          | POINT_BY_POINT =>
              if 2 <=? length (m_points c) then finalizeSelection c
              else (clearSelection c, None)
          | RECTANGLE =>
              if length (m_points c) =? 2 then finalizeSelection c
              else (clearSelection c, None)
          end
      | OtherButton => (c, None)
      end
  end.

Definition mouseReleaseEvent (button : MouseButton) (x y : Z)
    (c : SeismicCanvas) : SeismicCanvas :=
  match button, m_dragging c, m_selectionMode c with
  | LeftButton, true, RECTANGLE =>
      let endPoint := pixelToDataCoords (pos_of x y) c in
      set_selection c (m_points c ++ [m_rectStart c] ++ [endPoint])
        (m_rectStart c) false
  | _, _, _ => c
  end.

Definition keyPressEvent (key : Key) (c : SeismicCanvas)
  : SeismicCanvas * option (list QPointF) :=
  match key with
  | Key_Return | Key_Enter =>
      match m_selectionMode c with
      | POINT_BY_POINT =>
          if 2 <=? length (m_points c) then finalizeSelection c else (c, None)
      | RECTANGLE => (c, None)
      end
  | Key_Escape => (clearSelection c, None)
  | Key_Other => (c, None)
  end.

End Canvas.

(** * The history of the main window ([SeismicApp]) *)

Module App.
Import Canvas.

Record HistoryEntry := {
  data : list (list float);
  description : string
}.

(** The members that the history functions read and write: the data, the
    history and its index, the last selection, the canvas, and whether the
    Undo and Redo buttons are enabled. The other widgets are left out. *)
Record SeismicApp := {
  m_originalData : list (list float);
  m_currentData : list (list float);
  m_history : list HistoryEntry;
  m_historyIndex : Z;
  m_lastSelectedPoints : list QPointF;
  m_canvas : SeismicCanvas;
  m_undoBtn : bool;
  m_redoBtn : bool
}.

Definition MAX_HISTORY_SIZE : Z := 20.

(** [m_history.size()], an [int]. *)
Definition size (a : SeismicApp) : Z := Z.of_nat (length (m_history a)).

(** [updateHistoryInfo] reads the description of the current entry for the
    label (the label itself is not kept). *)
Definition updateHistoryInfo (a : SeismicApp) : outcome unit :=
  if negb (bool_decide (m_history a = [])) && (m_historyIndex a <? size a)%Z
  then
    i <- index_of_int (m_historyIndex a) ;;
    currentDesc <- at_ (m_history a) i ;;
    Ok tt
  else Ok tt.

Definition updateUndoRedoButtons (a : SeismicApp) : outcome SeismicApp :=
  let a :=
    {| m_originalData := m_originalData a; m_currentData := m_currentData a;
       m_history := m_history a; m_historyIndex := m_historyIndex a;
       m_lastSelectedPoints := m_lastSelectedPoints a;
       m_canvas := m_canvas a;
       m_undoBtn := (0 <? m_historyIndex a)%Z;
       m_redoBtn := (m_historyIndex a <? size a - 1)%Z |} in
  _ <- updateHistoryInfo a ;;
  Ok a.

(** [m_history.erase(m_history.begin() + first, m_history.end())]. *)
Definition erase_from (first : Z) (h : list HistoryEntry)
  : outcome (list HistoryEntry) :=
  if ((first <? 0) || (Z.of_nat (length h) <? first))%Z then Undefined
  else Ok (take (Z.to_nat first) h).

Definition saveToHistory (data : list (list float)) (description : string)
    (a : SeismicApp) : outcome SeismicApp :=
  h <- (if (m_historyIndex a <? size a - 1)%Z
        then erase_from (m_historyIndex a + 1) (m_history a)
        else Ok (m_history a)) ;;
  let h := h ++ [{| data := data; description := description |}] in
  let h := if (MAX_HISTORY_SIZE <? Z.of_nat (length h))%Z then drop 1 h else h in
  updateUndoRedoButtons
    {| m_originalData := m_originalData a; m_currentData := m_currentData a;
       m_history := h; m_historyIndex := Z.of_nat (length h) - 1;
       m_lastSelectedPoints := m_lastSelectedPoints a;
       m_canvas := m_canvas a;
       m_undoBtn := m_undoBtn a; m_redoBtn := m_redoBtn a |}.

(** The body shared by [undoAction] and [redoAction]: the entry at the new
    index becomes the current data and goes to the canvas. *)
Definition show_entry (index : Z) (a : SeismicApp) : outcome SeismicApp :=
  i <- index_of_int index ;;
  state <- at_ (m_history a) i ;;
  let current := data state in
  Ok {| m_originalData := m_originalData a; m_currentData := current;
        m_history := m_history a; m_historyIndex := index;
        m_lastSelectedPoints := m_lastSelectedPoints a;
        m_canvas := updateProcessedData current (m_canvas a);
        m_undoBtn := m_undoBtn a; m_redoBtn := m_redoBtn a |}.

Definition clear_selection (a : SeismicApp) : SeismicApp :=
  {| m_originalData := m_originalData a; m_currentData := m_currentData a;
     m_history := m_history a; m_historyIndex := m_historyIndex a;
     m_lastSelectedPoints := [];
     m_canvas := clearSelection (m_canvas a);
     m_undoBtn := m_undoBtn a; m_redoBtn := m_redoBtn a |}.

Definition undoAction (a : SeismicApp) : outcome SeismicApp :=
  if (0 <? m_historyIndex a)%Z then
    let a := clear_selection a in
    a <- show_entry (m_historyIndex a - 1) a ;;
    updateUndoRedoButtons a
  else Ok a.

Definition redoAction (a : SeismicApp) : outcome SeismicApp :=
  if (m_historyIndex a <? size a - 1)%Z then
    a <- show_entry (m_historyIndex a + 1) a ;;
    a <- updateUndoRedoButtons a ;;
    Ok (clear_selection a)
  else Ok a.

End App.

(** * Vocabulary of the statements *)

Section Codec.
Import Segy.
Local Open Scope Z_scope.

(** Bits 23 and 24 of the IEEE pattern: the two low bits of the biased
    exponent. *)
Definition exponent_low_key (ieee : Z) : Z := (ieee / 2 ^ 23) mod 4.

(** Bits 21 and 22 of the IEEE pattern: the two high bits of the 23-bit
    mantissa. This key is not in the source; it is the one the written
    description of the conversion names. *)
Definition mantissa_high_key (ieee : Z) : Z := (ieee / 2 ^ 21) mod 4.

(** The IBM word assembled from the sign, the six high exponent bits, and
    the table entries [it[key]] and [mt[key]] applied to the mantissa. *)
Definition ibm_via_tables (key ieee : Z) : Z :=
  (ieee / 2 ^ 31) * 2 ^ 31 + ((ieee / 2 ^ 25) mod 64) * 2 ^ 24
  + nth (Z.to_nat key) it 0 + (nth (Z.to_nat key) mt 0 * (ieee mod 2 ^ 23)) / 8.

(** The conversion as described with the tables keyed by the two high
    mantissa bits. *)
Definition tables_keyed_by_high_mantissa_bits : Prop :=
  forall ieee, 0 <= ieee < 2 ^ 32 ->
    (ieee = 0 \/ Z.land ieee 0x7fffffff = 0 -> ieeeToIbm_bits ieee = 0) /\
    (ieee <> 0 -> Z.land ieee 0x7fffffff <> 0 ->
     ieeeToIbm_bits ieee = ibm_via_tables (mantissa_high_key ieee) ieee).
End Codec.

Section WriterVocabulary.
Import Segy.

(** The messages thrown after the checks of [writeFile] start with "Cannot
    create" or "Failed to write". *)
Definition late_message (what : string) : bool :=
  match what with
  | String c _ => Ascii.eqb c "C" || Ascii.eqb c "F"
  | EmptyString => false
  end.

(** An outcome that is not a throw of one of the checks. *)
Definition late (o : outcome unit) : Prop :=
  match o with
  | Throw what => late_message what = true
  | _ => True
  end.

(** Every trace has the sample count of trace 0. *)
Definition uniform (data : list (list float)) : bool :=
  forallb (fun row => length row =? length (default [] (head data))) data.

(** Every trace header has 240 bytes. *)
Definition well_sized (hs : list bytes) : bool :=
  forallb (fun h : bytes => length h =? 240) hs.

(** [header] is [reference_header] but for bytes 16-17, which hold [us] as a
    big-endian 16-bit number, and bytes 20-21, which hold the low 16 bits of
    [num_samples] as one. *)
Definition patched_binary_header (reference_header : bytes) (us num_samples : Z)
    (header : bytes) : Prop :=
  length header = 400
  /\ Z_of_byte <$> header !! 16 = Some (us / 256)%Z
  /\ Z_of_byte <$> header !! 17 = Some (us mod 256)%Z
  /\ Z_of_byte <$> header !! 20 = Some (num_samples / 256 mod 256)%Z
  /\ Z_of_byte <$> header !! 21 = Some (num_samples mod 256)%Z
  /\ forall k, k <> 16 -> k <> 17 -> k <> 20 -> k <> 21 ->
       header !! k = reference_header !! k.

(** No buffering: every write goes through to the file at once. *)
Definition unbuffered : nat -> nat -> nat := fun held n => held + n.

(** A buffer of [size] bytes: a write of [chunk] bytes or more, or one that
    the buffer has no room for, goes through together with what is held;
    any other write is held back. *)
Definition chunked (size chunk : nat) : nat -> nat -> nat :=
  fun held n => if Nat.min chunk (size - held) <=? n then held + n else 0.

(** A reference file of one trace of one sample, and a volume of one trace of
    two samples written with it at dt = 2 ms. *)
Definition ref_file : bytes :=
  replicate 3200 x20 ++ <[21 := x01]> (replicate 400 x00)
  ++ replicate 240 x07 ++ [x41; x10; x00; x00].

Definition disk0 : disk :=
  Disk {[ "ref.sgy"%string := ref_file ]} false 4096 unbuffered [].

Definition writer0 : SegyWriter :=
  {| target_path_ := "out.sgy"; reference_path_ := "ref.sgy";
     text_header_ := take 3200 ref_file;
     binary_header_ := take 400 (drop 3200 ref_file);
     reference_trace_headers_ := [replicate 240 x07] |}.

Definition dt0 : double := f64_div (f64_of_int 2) (f64_of_int 1000).

Definition out_file : bytes :=
  replicate 3200 x20
  ++ <[17 := xd0]> (<[16 := x07]> (<[21 := x02]> (replicate 400 x00)))
  ++ replicate 240 x07 ++ [x41; x10; x00; x00; xc1; x10; x00; x00].

Definition disk1 : disk :=
  Disk (<[ "out.sgy"%string := out_file ]> (files disk0)) false
       (4096 - length out_file) unbuffered [].
End WriterVocabulary.

Section EngineVocabulary.
Import Amplify.

(** A mask without a true cell. *)
Definition no_true_cell (mask : BooleanMask) : Prop :=
  forall i j, cell mask i j <> Some true.

(** [1.0f + w * (gain - 1.0f)]. *)
Definition multiplier_of (gain w : float) : float :=
  f32_add f32_one (f32_mul w (f32_sub gain f32_one)).

(** Cell [(i, j)] of [result] holds the multiplier of the blend weight there
    and the input sample times that multiplier. *)
Definition gained (seismic_data : SeismicData) (blending_mask : FloatMask)
    (gain : float) (result : AmplifyResult) (i j : nat) : Prop :=
  exists w x,
    cell blending_mask i j = Some w
    /\ cell seismic_data i j = Some x
    /\ cell (multiplier_mask result) i j = Some (multiplier_of gain w)
    /\ cell (output_data result) i j = Some (f32_mul x (multiplier_of gain w)).

(** The input volume with an all-ones multiplier and an all-false window. *)
Definition noop_result (seismic_data : SeismicData) : AmplifyResult :=
  {| output_data := seismic_data;
     multiplier_mask :=
       grid (length seismic_data) (length (default [] (head seismic_data)))
            f32_one;
     window_indices :=
       grid (length seismic_data) (length (default [] (head seismic_data)))
            false |}.

(** [0 <= x <= 1], false on NaN. *)
Definition in_unit_interval (x : float) : bool :=
  fl_le f32_zero x && fl_le x f32_one.

(** Every cell of the mask is in [[0, 1]]. *)
Definition unit_mask (mask : FloatMask) : Prop :=
  forall i j x, cell mask i j = Some x -> in_unit_interval x = true.

(** The nearest integer, halves away from zero, as [std::round]. The source
    has no rounding; the description of the single-point window names it. *)
Definition fl_nearest (x : spec_float) : option Z :=
  match x with
  | S754_zero _ => Some 0%Z
  | S754_finite s m e =>
      let a := match e with
               | Zneg p => Z.shiftr (Zpos m + 2 ^ (Zpos p - 1)) (Zpos p)
               | _ => Z.shiftl (Zpos m) e
               end in
      Some (if s then (- a)%Z else a)
  | _ => None
  end.

(** The single-point window as described: the cell at the rounded sample
    index. *)
Definition single_point_marks_rounded_cell : Prop :=
  forall (n m : nat) (p : Point) (dt_ms : float) (s : Z),
    0 < n -> 0 < m ->
    (Z.of_nat n <= INT_MAX)%Z -> (Z.of_nat m <= INT_MAX)%Z ->
    fl_nearest (f32_div (time_ms p) dt_ms) = Some s ->
    exists mask,
      createWindowMask (n, m) [p] dt_ms = Ok mask
      /\ forall i j, i < n -> j < m ->
           cell mask i j
           = Some (bool_decide (Z.of_nat i = trace p /\ Z.of_nat j = s)).

(** A window that covers a 2 x 2 grid, and a triangle on a 4 x 4 grid. *)
Definition full_window : BooleanMask := [[true; true]; [true; true]].

Definition wedge : list Point :=
  [{| trace := 0; time_ms := f32_of_int 0 |};
   {| trace := 3; time_ms := f32_of_int 0 |};
   {| trace := 3; time_ms := f32_of_int 3 |}].

(** Scenario A: 5 traces of 4 samples, dt = 2 ms, 10.0 in traces 1-3 and
    samples 0-2; the rectangle (1, 0 ms)-(3, 4 ms) scaled by 2 with a hard
    edge. *)
Definition f32_10 : float := Eval cbv in f32_of_int 10.
Definition f32_20 : float := Eval cbv in f32_of_int 20.
Definition f32_2 : float := Eval cbv in f32_of_int 2.

Definition scenario_data : SeismicData :=
  [replicate 4 f32_zero;
   [f32_10; f32_10; f32_10; f32_zero];
   [f32_10; f32_10; f32_10; f32_zero];
   [f32_10; f32_10; f32_10; f32_zero];
   replicate 4 f32_zero].

Definition scenario_window : list Point :=
  [{| trace := 1; time_ms := f32_zero |};
   {| trace := 3; time_ms := f32_of_int 4 |}].

Definition scenario_result : AmplifyResult :=
  {| output_data :=
       [replicate 4 f32_zero;
        [f32_20; f32_20; f32_20; f32_zero];
        [f32_20; f32_20; f32_20; f32_zero];
        [f32_20; f32_20; f32_20; f32_zero];
        replicate 4 f32_zero];
     multiplier_mask :=
       [replicate 4 f32_one;
        [f32_2; f32_2; f32_2; f32_one];
        [f32_2; f32_2; f32_2; f32_one];
        [f32_2; f32_2; f32_2; f32_one];
        replicate 4 f32_one];
     window_indices :=
       [replicate 4 false;
        [true; true; true; false];
        [true; true; true; false];
        [true; true; true; false];
        replicate 4 false] |}.
End EngineVocabulary.

Section CodecValues.
Import Segy.
Local Open Scope Z_scope.

(** A 32-bit number, most significant byte first. *)
Definition big_endian32 (v : Z) : bytes :=
  [byte_of_Z (v / 2 ^ 24); byte_of_Z (v / 2 ^ 16); byte_of_Z (v / 2 ^ 8);
   byte_of_Z v].

(** The fields of an IBM System/360 single-precision word: its value is
    [(-1)^sign * fraction * 2^-24 * 16^(characteristic - 64)]. *)
Definition ibm_sign (w : Z) : Z := w / 2 ^ 31.
Definition ibm_characteristic (w : Z) : Z := (w / 2 ^ 24) mod 2 ^ 7.
Definition ibm_fraction (w : Z) : Z := w mod 2 ^ 24.
End CodecValues.

Section WriterFiles.
Import Segy.

(** The content of the file at [path]; nothing when there is no such
    file. *)
Definition content (path : string) (d : disk) : bytes :=
  default [] (files d !! path).

(** The room that the medium has for the file at [path] written anew: what
    is free, and what the file gives back when it is truncated. *)
Definition room_for (path : string) (d : disk) : nat :=
  free_space d + length (content path d).

(** The state while the file at [path] is written on a medium that was
    [d0]: the file holds [on_file], the stream holds [held] back, and all
    else is as in [d0]. *)
Definition streaming (path : string) (d0 : disk) (on_file held : bytes)
  : disk :=
  Disk (<[path := on_file]> (files d0)) (read_only d0)
       (room_for path d0 - length on_file) (buffering d0) held.

(** The binary header as [writeBinaryHeader] sends it: the reference header
    with the interval [us] at bytes 16-17 and the low 16 bits of the sample
    count at bytes 20-21, both most significant byte first. *)
Definition binary_header_image (reference_header : bytes) (us : Z)
    (num_samples : nat) : bytes :=
  let n := (Z.of_nat num_samples mod 2 ^ 16)%Z in
  <[21 := byte_of_Z n]> (<[20 := byte_of_Z (n / 2 ^ 8)]>
    (<[17 := byte_of_Z us]> (<[16 := byte_of_Z (us / 2 ^ 8)]>
       reference_header))).

(** A trace as [writeTraces] sends it: its header, then each sample as an IBM
    word, most significant byte first. *)
Definition trace_image (header : bytes) (row : list float) : bytes :=
  header ++ concat ((fun x => big_endian32 (ieeeToIbm x)) <$> row).

Definition traces_image (trace_headers : list bytes) (data : list (list float))
  : bytes :=
  concat (zip_with trace_image trace_headers data).

Definition file_image (w : SegyWriter) (us : Z) (trace_headers : list bytes)
    (data : list (list float)) : bytes :=
  text_header_ w
  ++ binary_header_image (binary_header_ w) us
       (length (default [] (head data)))
  ++ traces_image trace_headers data.

(** A computation that writes [p] to the stream on [path]. Either it
    returns, and [p] has joined the bytes that are on file or held back; or
    a write passed on more than the medium had room for, it throws a
    "Failed to write" error, and the file holds the bytes written so far as
    far as there was room. *)
Definition sends (path : string) (c : io unit) (p : bytes) : Prop :=
  forall d0 on_file held, length on_file <= room_for path d0 ->
    let written := on_file ++ held ++ p in
    (exists on_file' held',
       c (streaming path d0 on_file held)
       = (Ok tt, streaming path d0 on_file' held')
       /\ length on_file' <= room_for path d0
       /\ on_file' ++ held' = written)
    \/ (exists what held',
          c (streaming path d0 on_file held)
          = (Throw ("Failed to write " ++ what),
             streaming path d0 (take (room_for path d0) written) held')
          /\ room_for path d0 < length written).

(** No sample is NaN. *)
Definition no_nan (data : list (list float)) : bool :=
  forallb (forallb (fun x => match x with S754_nan => false | _ => true end))
          data.

(** [d'] differs from [d] at most in the file at [path], in the room left,
    which has not grown, and in what the stream holds back. *)
Definition untouched_but (path : string) (d d' : disk) : Prop :=
  read_only d' = read_only d
  /\ buffering d' = buffering d
  /\ free_space d' <= free_space d
  /\ forall p, p <> path -> files d' !! p = files d !! p.

Definition keeps {A} (path : string) (c : io A) : Prop :=
  forall d, untouched_but path d (c d).2.

(** [d'] is [d] but for the file at [path], for the room, which is at most
    what was free and what the old file gave back, and for what the stream
    holds. *)
Definition rewritten (path : string) (d d' : disk) : Prop :=
  read_only d' = read_only d
  /\ free_space d' <= room_for path d
  /\ forall p, p <> path -> files d' !! p = files d !! p.


(** The samples per trace that a SEG-Y file declares: the 16-bit number at
    bytes 20-21 of its binary header (bytes 3220-3221 of the file), most
    significant byte first. *)
Definition declared_samples (f : bytes) : nat :=
  let binary_header := drop 3200 f in
  Z.to_nat (256 * Z_of_byte (default x00 (binary_header !! 20))
            + Z_of_byte (default x00 (binary_header !! 21))).

(** The first 240 bytes of each whole trace record of the file. *)
Definition trace_headers_of (f : bytes) : list bytes :=
  let record := 240 + 4 * declared_samples f in
  (fun i => take 240 (drop (3600 + i * record) f))
    <$> seq 0 ((length f - 3600) / record).

(** The volume written in the examples, a medium that refuses it, and two
    media without the room for it: one written without a buffer, and one
    written through a buffer of 4096 bytes that passes on writes of 1024
    bytes or more. *)
Definition volume0 : list (list float) := [[f32_one; f32_of_int (-1)]].
Definition disk_read_only : disk :=
  Disk (files disk0) true 4096 unbuffered [].
Definition disk_full : disk := Disk (files disk0) false 100 unbuffered [].
Definition disk_short : disk :=
  Disk (files disk0) false 3300 (chunked 4096 1024) [].
End WriterFiles.

Section EngineEdges.
Import Amplify.

(** A value that is neither an infinity nor NaN. *)
Definition fl_finite (x : spec_float) : bool :=
  match x with
  | S754_zero _ | S754_finite _ _ _ => true
  | _ => false
  end.

(** The window mask as numbers: 1.0f inside, 0.0f outside. *)
Definition indicator (b : bool) : float := if b then f32_one else f32_zero.

(** Cell [(i, j)] comes before turn [(k, l)] of a row-by-row scan. *)
Definition scanned (k l i j : nat) : Prop := i < k \/ (i = k /\ j < l).

(** What the scan of [findMaskBoundaries] knows at turn [(k, l)]. *)
Definition boundaries_so_far (mask : BooleanMask) (n m0 k l : nat)
    (acc : bool * (nat * nat * nat * nat)) : Prop :=
  let '(found, (a, b, c, d)) := acc in
  if found then
    (forall i j, scanned k l i j -> cell mask i j = Some true ->
       a <= i <= b /\ c <= j <= d)
    /\ (exists j, scanned k l a j /\ cell mask a j = Some true)
    /\ (exists j, scanned k l b j /\ cell mask b j = Some true)
    /\ (exists i, scanned k l i c /\ cell mask i c = Some true)
    /\ (exists i, scanned k l i d /\ cell mask i d = Some true)
  else
    (forall i j, scanned k l i j -> cell mask i j <> Some true)
    /\ (a, b, c, d) = (n, 0, m0, 0).

(** A computation that throws no exception. *)
Definition no_throw {A} (c : outcome A) : Prop := forall what, c <> Throw what.

(** A window that covers the right column of a 2 x 2 grid, with its blend
    weights and its distance map. *)
Definition right_column : BooleanMask := [[false; true]; [false; true]].

Definition right_column_distances : FloatMask :=
  Eval vm_compute in
    match distanceTransformEDT right_column [f32_one; f32_one] with
    | Ok g => g
    | _ => []
    end.

Definition right_column_hard : FloatMask :=
  [[f32_zero; f32_one]; [f32_zero; f32_one]].

Definition right_column_outside : FloatMask :=
  Eval vm_compute in
    match createTransitionMask (2, 2) right_column 5 f32_20 f32_2 OUTSIDE with
    | Ok g => g
    | _ => []
    end.

(** A polygon on trace 1. *)
Definition flat_polygon : list Point :=
  [{| trace := 1; time_ms := f32_zero |};
   {| trace := 1; time_ms := f32_2 |};
   {| trace := 1; time_ms := f32_of_int 4 |}].

Definition unit_scale_result : AmplifyResult :=
  Eval vm_compute in
    match amplifySeismicWindow scenario_data f32_2 scenario_window SCALE
            f32_one 5 f32_20 OUTSIDE 10 (f32_of_int 50) with
    | Ok r => r
    | _ => new_AmplifyResult 0 0
    end.
End EngineEdges.

Section HistoryVocabulary.
Import Canvas App.

(** The history holds between 1 and 20 entries, the index points into it,
    and the two buttons say whether there is an entry before and after the
    current one. *)
Definition history_ok (a : SeismicApp) : Prop :=
  (0 < size a <= MAX_HISTORY_SIZE)%Z
  /\ (0 <= m_historyIndex a < size a)%Z
  /\ m_undoBtn a = (0 <? m_historyIndex a)%Z
  /\ m_redoBtn a = (m_historyIndex a <? size a - 1)%Z.

(** [updateProcessedData] takes [new_data] on the canvas [c]: both volumes
    have a trace, and they have the same number of traces and the same
    number of samples in their first trace. *)
Definition accepted (new_data : list (list float)) (c : SeismicCanvas)
  : Prop :=
  new_data <> [] /\ m_data c <> []
  /\ length new_data = length (m_data c)
  /\ length (default [] (head new_data))
     = length (default [] (head (m_data c))).

(** The canvas takes the data of every entry of the history. *)
Definition canvas_takes (a : SeismicApp) : Prop :=
  forall e, e ∈ m_history a -> accepted (data e) (m_canvas a).

(** The data of the current entry is on display: it is the current data of
    the main window, and it is the data that the canvas draws
    ([m_processedData]). *)
Definition shows_current (a : SeismicApp) : Prop :=
  data <$> (m_history a !! Z.to_nat (m_historyIndex a))
  = Some (m_currentData a)
  /\ m_processedData (m_canvas a) = m_currentData a.

(** Before a file is loaded: no entry, index -1. *)
Definition history_empty (a : SeismicApp) : Prop :=
  m_history a = [] /\ m_historyIndex a = (-1)%Z.

(** What [saveToHistory] leaves in the history: the entries up to the
    current one, the new entry, and of these the last 20. *)
Definition saved_history (a : SeismicApp) (e : HistoryEntry)
  : list HistoryEntry :=
  let h := take (Z.to_nat (m_historyIndex a + 1)) (m_history a) ++ [e] in
  drop (length h - 20) h.
End HistoryVocabulary.

Section CanvasVocabulary.
Import Canvas App.

(** The extent of the data in the coordinates of a selection: the last trace
    and the time of the last sample, as [pixelToDataCoords] computes them. *)
Definition trace_extent (c : SeismicCanvas) : double :=
  f64_sub (f64_of_int (Z.of_nat (length (m_data c)))) (f64_of_int 1).

Definition time_extent (c : SeismicCanvas) : double :=
  f64_mul (f64_mul (f64_of_int (Z.of_nat (length (default [] (head (m_data c)))) - 1))
                   (m_sampleInterval c))
          (f64_of_int 1000).

Definition in_extent (c : SeismicCanvas) (p : QPointF) : bool :=
  fl_le f64_zero p.1 && fl_le p.1 (trace_extent c)
  && fl_le f64_zero p.2 && fl_le p.2 (time_extent c).

(** The selection is well formed: every point of it, and the start of the
    rectangle, lies in the extent of the data; a rectangle has no point or
    its two corners; while a rectangle is dragged the mode is [RECTANGLE] and
    no point is selected. *)
Definition selection_ok (c : SeismicCanvas) : Prop :=
  Forall (fun p => in_extent c p = true) (m_points c)
  /\ in_extent c (m_rectStart c) = true
  /\ (m_selectionMode c = RECTANGLE ->
      length (m_points c) = 0 \/ length (m_points c) = 2)
  /\ (m_dragging c = true ->
      m_selectionMode c = RECTANGLE /\ m_points c = []).

(** A canvas of 800 x 600 pixels over two traces of two samples at 2 ms, in
    rectangle mode with nothing selected; and a main window with two states
    in its history, the second one on display on such a canvas. *)
Definition canvas0 : SeismicCanvas :=
  {| m_data := [[f32_one; f32_of_int (-1)]; [f32_one; f32_one]];
     m_processedData := [[f32_one; f32_of_int (-1)]; [f32_one; f32_one]];
     m_sampleInterval := f64_div (f64_of_int 2) (f64_of_int 1000);
     m_selectionMode := RECTANGLE;
     m_points := []; m_rectStart := origin; m_dragging := false;
     width := 800; height := 600 |}.

(** A canvas that holds no data. *)
Definition canvas_empty : SeismicCanvas :=
  {| m_data := []; m_processedData := [];
     m_sampleInterval := f64_zero;
     m_selectionMode := POINT_BY_POINT;
     m_points := []; m_rectStart := origin; m_dragging := false;
     width := 800; height := 600 |}.

Definition app0 : SeismicApp :=
  {| m_originalData := [[f32_one; f32_of_int (-1)]; [f32_one; f32_one]];
     m_currentData := [[f32_one; f32_one]; [f32_one; f32_one]];
     m_history :=
       [{| data := [[f32_one; f32_of_int (-1)]; [f32_one; f32_one]];
           description := "Original data" |};
        {| data := [[f32_one; f32_one]; [f32_one; f32_one]];
           description := "Window 1" |}];
     m_historyIndex := 1;
     m_lastSelectedPoints := [];
     m_canvas :=
       {| m_data := [[f32_one; f32_of_int (-1)]; [f32_one; f32_one]];
          m_processedData := [[f32_one; f32_one]; [f32_one; f32_one]];
          m_sampleInterval := f64_div (f64_of_int 2) (f64_of_int 1000);
          m_selectionMode := RECTANGLE;
          m_points := []; m_rectStart := origin; m_dragging := false;
          width := 800; height := 600 |};
     m_undoBtn := true; m_redoBtn := false |}.
End CanvasVocabulary.

(** * Properties *)

(** ** Outcomes and loops *)

Lemma bind_Ok {A B} (c : outcome A) (k : A -> outcome B) (b : B) :
  bind c k = Ok b <-> exists a, c = Ok a /\ k a = Ok b.
Proof.
  destruct c as [a| |]; simpl; split.
  - eauto.
  - intros (a' & [= <-] & H); exact H.
  - discriminate.
  - intros (? & [=] & _).
  - discriminate.
  - intros (? & [=] & _).
Qed.

(** Unfolds the binds of a hypothesis [H : ... = Ok r]. *)
Ltac inv_bind H :=
  repeat match type of H with
  | bind _ _ = Ok _ =>
      let a := fresh "a" in
      let Ha := fresh "Ha" in
      apply bind_Ok in H; destruct H as (a & Ha & H)
  end.

(** A loop keeps what each turn of it keeps. *)
Lemma for_each_invariant {I S} (P : S -> Prop) (l : list I)
    (body : I -> S -> outcome S) (s r : S) :
  (forall i s s', i ∈ l -> P s -> body i s = Ok s' -> P s') ->
  P s -> for_each l body s = Ok r -> P r.
Proof.
  revert s. induction l as [|i l IH]; simpl; intros s Hbody Hs Hr.
  - congruence.
  - apply bind_Ok in Hr as (s' & Hs' & Hr).
    apply (IH s'); [ | eapply Hbody; eauto; constructor | exact Hr].
    intros j t t' Hj. apply Hbody. by constructor.
Qed.

(** A loop runs to its end when each turn does, on states of the invariant. *)
Lemma for_each_total {I S} (P : S -> Prop) (l : list I)
    (body : I -> S -> outcome S) (s : S) :
  (forall i s, i ∈ l -> P s -> exists s', body i s = Ok s' /\ P s') ->
  P s -> exists r, for_each l body s = Ok r /\ P r.
Proof.
  revert s. induction l as [|i l IH]; simpl; intros s Hbody Hs.
  - eauto.
  - destruct (Hbody i s) as (s' & Hs' & HP); [constructor | done | ].
    rewrite Hs'. simpl. apply IH; [ | done].
    intros j t Hj. apply Hbody. by constructor.
Qed.

Lemma for_each_counted {X St} (P : nat -> St -> Prop) (l : list X)
    (body : X -> St -> outcome St) (s r : St) :
  (forall k i s s', l !! k = Some i -> P k s -> body i s = Ok s' -> P (S k) s') ->
  P 0 s -> for_each l body s = Ok r -> P (length l) r.
Proof.
  revert P s. induction l as [|i l IH]; simpl; intros P s Hb Hs Hr.
  - congruence.
  - apply bind_Ok in Hr as (s' & Hs' & Hr).
    apply (IH (fun k => P (S k)) s'); [ | | exact Hr].
    + intros k j t t' Hk. apply (Hb (S k)). exact Hk.
    + apply (Hb 0 i s s'); done.
Qed.

Lemma for_each_counted_total {X St} (P : nat -> St -> Prop) (l : list X)
    (body : X -> St -> outcome St) (s : St) :
  (forall k i s, l !! k = Some i -> P k s ->
     exists s', body i s = Ok s' /\ P (S k) s') ->
  P 0 s -> exists r, for_each l body s = Ok r /\ P (length l) r.
Proof.
  revert P s. induction l as [|i l IH]; simpl; intros P s Hb Hs.
  - eauto.
  - destruct (Hb 0 i s) as (s' & Hs' & HP); [done..|].
    rewrite Hs'. simpl. apply (IH (fun k => P (S k)) s'); [|done].
    intros k j t Hk. apply (Hb (S k)). exact Hk.
Qed.

Lemma nest_invariant {A X Y} (P : list (list A) -> Prop)
    (lx : list X) (ly : X -> list Y)
    (body : X -> Y -> list (list A) -> outcome (list (list A)))
    (g r : list (list A)) :
  (forall i j g g', P g -> body i j g = Ok g' -> P g') ->
  P g -> for_each lx (fun i => for_each (ly i) (body i)) g = Ok r -> P r.
Proof.
  intros Hb. apply for_each_invariant. intros i t t' _.
  apply for_each_invariant. intros j u u' _. apply Hb.
Qed.

Lemma nest_total {A X Y} (P : list (list A) -> Prop)
    (lx : list X) (ly : X -> list Y)
    (body : X -> Y -> list (list A) -> outcome (list (list A)))
    (g : list (list A)) :
  (forall i j g, i ∈ lx -> j ∈ ly i -> P g ->
     exists g', body i j g = Ok g' /\ P g') ->
  P g ->
  exists r, for_each lx (fun i => for_each (ly i) (body i)) g = Ok r /\ P r.
Proof.
  intros Hb. apply for_each_total. intros i t Hi.
  apply for_each_total. intros j u Hj. by apply Hb.
Qed.

Lemma seq_lookup_eq (n k i : nat) : seq 0 n !! k = Some i -> i = k /\ k < n.
Proof. intros H. apply lookup_seq in H. lia. Qed.

Lemma int_range_lookup (lo hi : Z) (k : nat) (i : Z) :
  int_range lo hi !! k = Some i <->
  i = (lo + Z.of_nat k)%Z /\ (i <= hi)%Z.
Proof.
  unfold int_range. rewrite list_lookup_fmap. split.
  - intros H. destruct (seq 0 _ !! k) as [k'|] eqn:E; [|done].
    apply lookup_seq in E as [-> Hk]. injection H as <-. lia.
  - intros [-> Hi]. rewrite lookup_seq_lt by lia. done.
Qed.

Lemma int_range_length (lo hi : Z) :
  length (int_range lo hi) = Z.to_nat (hi - lo + 1).
Proof. unfold int_range. by rewrite length_map, length_seq. Qed.

Lemma int_range_cons (lo hi : Z) :
  (lo <= hi)%Z -> int_range lo hi = lo :: int_range (lo + 1) hi.
Proof.
  intros H. unfold int_range.
  replace (Z.to_nat (hi - lo + 1)) with (S (Z.to_nat (hi - (lo + 1) + 1))) by lia.
  cbn [seq map]. f_equal; [lia|].
  rewrite <- seq_shift, map_map. apply map_ext. intros k. lia.
Qed.

Lemma for_int_invariant {St} (P : St -> Prop) (lo hi : Z)
    (body : Z -> St -> outcome St) (s r : St) :
  (forall i s s', (lo <= i <= hi)%Z -> P s -> body i s = Ok s' -> P s') ->
  P s -> for_int lo hi body s = Ok r -> P r.
Proof.
  intros Hb Hs H. unfold for_int in H. apply bind_Ok in H as (s' & H & Hr).
  destruct (_ && _); [done|]. injection Hr as <-.
  eapply for_each_invariant; [|exact Hs|exact H].
  intros i t t' Hi. apply list_elem_of_lookup in Hi as [k Hk].
  apply int_range_lookup in Hk. apply Hb. lia.
Qed.

(** [for (int i = lo; i <= hi; ++i)] with an invariant on the value of [i]. *)
Lemma for_int_counted_total {St} (P : Z -> St -> Prop) (lo hi : Z)
    (body : Z -> St -> outcome St) (s : St) :
  (lo <= hi + 1)%Z -> (hi < INT_MAX)%Z ->
  (forall i s, (lo <= i <= hi)%Z -> P i s ->
     exists s', body i s = Ok s' /\ P (i + 1)%Z s') ->
  P lo s -> exists r, for_int lo hi body s = Ok r /\ P (hi + 1)%Z r.
Proof.
  intros Hlo Hhi Hb Hs. unfold for_int.
  destruct (for_each_counted_total (fun k => P (lo + Z.of_nat k)%Z)
              (int_range lo hi) body s) as (r & Hr & HP).
  - intros k i t Hk HPk. apply int_range_lookup in Hk as [-> Hk].
    destruct (Hb (lo + Z.of_nat k)%Z t) as (t' & Ht' & HP'); [lia|done|].
    exists t'. split; [done|].
    replace (lo + Z.of_nat (S k))%Z with (lo + Z.of_nat k + 1)%Z by lia. done.
  - by rewrite Z.add_0_r.
  - rewrite Hr. simpl.
    destruct (Z.eqb_spec hi INT_MAX); [lia|]. rewrite andb_false_r.
    exists r. split; [done|]. rewrite int_range_length in HP.
    replace (lo + Z.of_nat (Z.to_nat (hi - lo + 1)))%Z with (hi + 1)%Z in HP by lia.
    done.
Qed.

Lemma int_down_elem (hi i : Z) : i ∈ int_down hi -> (0 <= i <= hi)%Z.
Proof.
  unfold int_down. intros H. apply list_elem_of_fmap in H as (k & -> & Hk).
  rewrite list_elem_of_In, <- in_rev, <- list_elem_of_In in Hk.
  apply elem_of_seq in Hk. lia.
Qed.

(** ** Machine integers *)

Lemma static_cast_int_small (n : nat) :
  (Z.of_nat n <= INT_MAX)%Z -> static_cast_int n = Z.of_nat n.
Proof.
  unfold static_cast_int, wrap_int, INT_MAX. intros H.
  rewrite Z.mod_small by lia. lia.
Qed.

Lemma static_cast_int_pred (n : nat) :
  0 < n -> (Z.of_nat n <= INT_MAX)%Z ->
  static_cast_int (n - 1) = (Z.of_nat n - 1)%Z.
Proof. intros Hn Hmax. rewrite static_cast_int_small by lia. lia. Qed.

Lemma int_sub_Ok (a b : Z) :
  (INT_MIN <= a - b <= INT_MAX)%Z -> int_sub a b = Ok (a - b)%Z.
Proof.
  intros H. unfold int_sub, checked, in_int.
  destruct (Z.leb_spec INT_MIN (a - b)); [|lia].
  destruct (Z.leb_spec (a - b) INT_MAX); [done|lia].
Qed.

Lemma int_add_Ok (a b : Z) :
  (INT_MIN <= a + b <= INT_MAX)%Z -> int_add a b = Ok (a + b)%Z.
Proof.
  intros H. unfold int_add, checked, in_int.
  destruct (Z.leb_spec INT_MIN (a + b)); [|lia].
  destruct (Z.leb_spec (a + b) INT_MAX); [done|lia].
Qed.

Lemma int_min_spec (a b : Z) : int_min a b = Z.min a b.
Proof. unfold int_min. destruct (Z.ltb_spec b a); lia. Qed.

Lemma int_max_spec (a b : Z) : int_max a b = Z.max a b.
Proof. unfold int_max. destruct (Z.ltb_spec a b); lia. Qed.

(** ** Vectors and grids *)

Lemma at_Ok {A} (v : list A) (i : nat) (x : A) :
  at_ v i = Ok x <-> v !! i = Some x.
Proof. unfold at_. destruct (v !! i); split; congruence. Qed.

Lemma assign_Ok {A} (v v' : list A) (i : nat) (x : A) :
  assign v i x = Ok v' <-> i < length v /\ v' = <[i := x]> v.
Proof.
  unfold assign. destruct (decide (i < length v)); split.
  - intros [= <-]. done.
  - intros [_ ->]. done.
  - done.
  - intros [? _]. done.
Qed.

Lemma index_of_int_Ok (i : Z) (k : nat) :
  index_of_int i = Ok k <-> (0 <= i)%Z /\ k = Z.to_nat i.
Proof.
  unfold index_of_int. destruct (i <? 0)%Z eqn:E.
  - apply Z.ltb_lt in E. split; [done|lia].
  - apply Z.ltb_ge in E. split; [intros [= <-]; done | intros [_ ->]; done].
Qed.

Lemma at2_Ok {A} (g : list (list A)) (i j : nat) (x : A) :
  at2 g i j = Ok x <-> cell g i j = Some x.
Proof.
  unfold at2, cell, at_. destruct (g !! i) as [row|]; simpl; [|done].
  destruct (row !! j); split; congruence.
Qed.

Lemma at2_int_Ok {A} (g : list (list A)) (i j : Z) (x : A) :
  at2_int g i j = Ok x <->
  (0 <= i)%Z /\ (0 <= j)%Z /\ cell g (Z.to_nat i) (Z.to_nat j) = Some x.
Proof.
  unfold at2_int. rewrite bind_Ok. split.
  - intros (i' & Hi & H). apply index_of_int_Ok in Hi as [? ->].
    apply bind_Ok in H as (j' & Hj & H). apply index_of_int_Ok in Hj as [? ->].
    by apply at2_Ok in H.
  - intros (Hi & Hj & H). exists (Z.to_nat i). split; [by apply index_of_int_Ok|].
    apply bind_Ok. exists (Z.to_nat j). split; [by apply index_of_int_Ok|].
    by apply at2_Ok.
Qed.

Lemma has_shape_grid {A} (n m : nat) (x : A) : has_shape n m (grid n m x).
Proof.
  unfold has_shape, grid. split; [apply length_replicate|].
  apply Forall_replicate, length_replicate.
Qed.

Lemma cell_grid {A} (n m i j : nat) (x : A) :
  i < n -> j < m -> cell (grid n m x) i j = Some x.
Proof.
  intros Hi Hj. unfold cell, grid.
  rewrite lookup_replicate_2 by done. simpl. by apply lookup_replicate_2.
Qed.

Lemma cell_is_Some {A} (n m : nat) (g : list (list A)) (i j : nat) :
  has_shape n m g -> (is_Some (cell g i j) <-> i < n /\ j < m).
Proof.
  intros [Hn Hm]. unfold cell. split.
  - intros [x Hx]. destruct (g !! i) as [row|] eqn:E; [|done]. simpl in Hx.
    split; [apply lookup_lt_Some in E; lia|].
    apply lookup_lt_Some in Hx.
    rewrite Forall_lookup in Hm. rewrite (Hm _ _ E) in Hx. done.
  - intros [Hi Hj]. destruct (lookup_lt_is_Some_2 g i) as [row E]; [lia|].
    rewrite E. simpl. apply lookup_lt_is_Some_2.
    rewrite Forall_lookup in Hm. by rewrite (Hm _ _ E).
Qed.

Lemma at2_total {A} (n m : nat) (g : list (list A)) (i j : nat) :
  has_shape n m g -> i < n -> j < m -> exists x, at2 g i j = Ok x.
Proof.
  intros Hs Hi Hj.
  destruct (proj2 (cell_is_Some n m g i j Hs) (conj Hi Hj)) as [x Hx].
  exists x. by apply at2_Ok.
Qed.

Lemma at2_int_total {A} (n m : nat) (g : list (list A)) (i j : Z) :
  has_shape n m g -> (0 <= i < Z.of_nat n)%Z -> (0 <= j < Z.of_nat m)%Z ->
  exists x, at2_int g i j = Ok x.
Proof.
  intros Hs Hi Hj.
  destruct (at2_total n m g (Z.to_nat i) (Z.to_nat j)) as [x Hx];
    [done|lia|lia|].
  exists x. apply at2_int_Ok. split; [lia|]. split; [lia|]. by apply at2_Ok.
Qed.

(** The effect of [g[i][j] = x]. *)
Lemma assign2_Ok {A} (n m : nat) (g g' : list (list A)) (i j : nat) (x : A) :
  has_shape n m g -> assign2 g i j x = Ok g' ->
  i < n /\ j < m /\ has_shape n m g'
  /\ forall i' j', cell g' i' j'
                   = if decide (i' = i /\ j' = j) then Some x else cell g i' j'.
Proof.
  intros [Hn Hm] H. unfold assign2 in H.
  apply bind_Ok in H as (row & Hrow & H). apply at_Ok in Hrow.
  apply bind_Ok in H as (row' & Hrow' & H).
  apply assign_Ok in Hrow' as [Hj ->]. apply assign_Ok in H as [Hi ->].
  rewrite Forall_lookup in Hm. pose proof (Hm _ _ Hrow) as Hlen.
  split; [lia|]. split; [lia|]. split.
  - split; [by rewrite length_insert|].
    apply Forall_insert; [by apply Forall_lookup|]. by rewrite length_insert.
  - intros i' j'. unfold cell. destruct (decide (i' = i)) as [->|Hne].
    + rewrite list_lookup_insert_eq by done. simpl. rewrite Hrow. simpl.
      destruct (decide (j' = j)) as [->|Hnej].
      * rewrite list_lookup_insert_eq by done.
        by rewrite decide_True.
      * rewrite list_lookup_insert_ne by done. by rewrite decide_False by tauto.
    + rewrite list_lookup_insert_ne by done. by rewrite decide_False by tauto.
Qed.

Lemma assign2_total {A} (n m : nat) (g : list (list A)) (i j : nat) (x : A) :
  has_shape n m g -> i < n -> j < m -> exists g', assign2 g i j x = Ok g'.
Proof.
  intros [Hn Hm] Hi Hj. unfold assign2.
  destruct (lookup_lt_is_Some_2 g i) as [row E]; [lia|].
  rewrite Forall_lookup in Hm. pose proof (Hm _ _ E) as Hlen.
  unfold at_. rewrite E. simpl. unfold assign.
  rewrite decide_True by lia. simpl. rewrite decide_True by lia. eauto.
Qed.

Lemma assign2_shape {A} (n m : nat) (g g' : list (list A)) (i j : nat) (x : A) :
  has_shape n m g -> assign2 g i j x = Ok g' -> has_shape n m g'.
Proof.
  intros Hs H. by destruct (assign2_Ok n m g g' i j x Hs H) as (_ & _ & ? & _).
Qed.

Lemma assign2_int_shape {A} (n m : nat) (g g' : list (list A)) (i j : Z) (x : A) :
  has_shape n m g -> assign2_int g i j x = Ok g' -> has_shape n m g'.
Proof.
  intros Hs H. unfold assign2_int in H. inv_bind H. by eapply assign2_shape.
Qed.

(** Shapes are kept by every write and had by every fresh grid. *)
Create HintDb shape.
#[local] Hint Resolve has_shape_grid assign2_shape assign2_int_shape : shape.

Lemma assign2_int_Ok {A} (n m : nat) (g g' : list (list A)) (i j : Z) (x : A) :
  has_shape n m g -> assign2_int g i j x = Ok g' ->
  (0 <= i < Z.of_nat n)%Z /\ (0 <= j < Z.of_nat m)%Z /\ has_shape n m g'
  /\ forall i' j', cell g' i' j'
       = if decide (Z.of_nat i' = i /\ Z.of_nat j' = j) then Some x
         else cell g i' j'.
Proof.
  intros Hs H. unfold assign2_int in H.
  apply bind_Ok in H as (i0 & Hi & H). apply index_of_int_Ok in Hi as [Hi ->].
  apply bind_Ok in H as (j0 & Hj & H). apply index_of_int_Ok in Hj as [Hj ->].
  apply (assign2_Ok n m) in H as (Hin & Hjm & Hs' & Hc); [|done].
  split; [lia|]. split; [lia|]. split; [done|].
  intros i' j'. rewrite Hc.
  destruct (decide (i' = Z.to_nat i /\ j' = Z.to_nat j)) as [[-> ->]|Hne].
  - rewrite decide_True by lia. done.
  - rewrite decide_False by lia. done.
Qed.

Lemma assign2_int_total {A} (n m : nat) (g : list (list A)) (i j : Z) (x : A) :
  has_shape n m g -> (0 <= i < Z.of_nat n)%Z -> (0 <= j < Z.of_nat m)%Z ->
  exists g', assign2_int g i j x = Ok g'.
Proof.
  intros Hs Hi Hj. unfold assign2_int, index_of_int.
  destruct (Z.ltb_spec i 0); [lia|]. destruct (Z.ltb_spec j 0); [lia|].
  simpl. apply (assign2_total n m); [done|lia..].
Qed.

(** A loop nest keeps the shape when its innermost statement does. *)
Lemma nest_shape {A X Y} (n m : nat) (lx : list X) (ly : X -> list Y)
    (body : X -> Y -> list (list A) -> outcome (list (list A)))
    (g r : list (list A)) :
  (forall i j g g', has_shape n m g -> body i j g = Ok g' -> has_shape n m g') ->
  has_shape n m g ->
  for_each lx (fun i => for_each (ly i) (body i)) g = Ok r ->
  has_shape n m r.
Proof.
  intros Hb. apply for_each_invariant. intros i t t' _.
  apply for_each_invariant. intros j u u' _. apply Hb.
Qed.

(** ** The IBM float encoding *)

Section CodecFacts.
Import Segy.
Local Open Scope Z_scope.

(** A bit field of [n] bits at position [k], moved down by [j]. *)
Lemma land_field (x k n j : Z) :
  0 <= j <= k -> 0 <= n ->
  Z.shiftr (Z.land x (Z.shiftl (Z.ones n) k)) j
  = ((x / 2 ^ k) mod 2 ^ n) * 2 ^ (k - j).
Proof.
  intros Hj Hn.
  rewrite <- Z.shiftr_div_pow2, <- Z.land_ones, <- Z.shiftl_mul_pow2 by lia.
  apply Z.bits_inj'. intros i Hi.
  rewrite Z.shiftr_spec, Z.land_spec by lia.
  destruct (Z_lt_dec i (k - j)) as [Hlt|Hge].
  - rewrite (Z.shiftl_spec_low _ _ i) by lia.
    rewrite (Z.shiftl_spec_low _ _ (i + j)) by lia. apply andb_false_r.
  - rewrite !Z.shiftl_spec by lia. rewrite Z.land_spec, Z.shiftr_spec by lia.
    replace (i + j - k) with (i - (k - j)) by lia.
    replace (i - (k - j) + k) with (i + j) by lia. reflexivity.
Qed.

Lemma lor_disjoint (a b k : Z) :
  0 <= k -> 0 <= a < 2 ^ k -> Z.lor a (b * 2 ^ k) = a + b * 2 ^ k.
Proof.
  intros Hk Ha.
  rewrite <- (Z.add_lor_land a (b * 2 ^ k)).
  assert (Z.land a (b * 2 ^ k) = 0) as ->; [ | lia].
  rewrite <- (Z.mod_small a (2 ^ k)) by lia.
  rewrite <- Z.land_ones, <- Z.shiftl_mul_pow2 by lia.
  apply Z.bits_inj'. intros i Hi.
  rewrite !Z.land_spec, Z.bits_0.
  destruct (Z_lt_dec i k).
  - rewrite Z.shiftl_spec_low by lia. apply andb_false_r.
  - rewrite Z.ones_spec_high by lia. rewrite andb_false_r. reflexivity.
Qed.

Lemma tables_bounds (k : Z) :
  0 <= k < 4 ->
  0x21200000 <= nth (Z.to_nat k) it 0 <= 0x22100000
  /\ 1 <= nth (Z.to_nat k) mt 0 <= 8.
Proof.
  intros Hk.
  assert (k = 0 \/ k = 1 \/ k = 2 \/ k = 3) as [->|[->|[->| ->]]] by lia;
    simpl; lia.
Qed.

(** C7, as amended: [ieeeToIbm] returns 0 for the all-zero pattern and for a
    pattern that is zero once the sign bit is masked off; for every other
    32-bit pattern the result is the sign bit, the six high exponent bits
    moved down by one, and the entries of the fixed tables [it] and [mt]
    selected by bits 23-24 of the pattern, the two low bits of the biased
    exponent (not by the two high mantissa bits). *)
Theorem ieeeToIbm_tables_keyed_by_exponent_bits (ieee : Z) :
  0 <= ieee < 2 ^ 32 ->
  (ieee = 0 \/ Z.land ieee 0x7fffffff = 0 -> ieeeToIbm_bits ieee = 0) /\
  (ieee <> 0 -> Z.land ieee 0x7fffffff <> 0 ->
   ieeeToIbm_bits ieee = ibm_via_tables (exponent_low_key ieee) ieee).
Proof.
  intros Hr. split.
  - intros [-> | H]; [reflexivity|]. unfold ieeeToIbm_bits.
    rewrite H. simpl. by destruct (ieee =? 0).
  - intros Hnz Hm. unfold ieeeToIbm_bits.
    apply Z.eqb_neq in Hnz, Hm. rewrite Hnz, Hm.
    change 0x01800000 with (Z.shiftl (Z.ones 2) 23).
    change 0x7e000000 with (Z.shiftl (Z.ones 6) 25).
    change 0x007fffff with (Z.ones 23).
    rewrite !land_field by lia.
    rewrite <- (Z.shiftr_0_r (Z.land ieee 2147483648)).
    change 2147483648 with (Z.shiftl (Z.ones 1) 31).
    rewrite land_field by lia.
    rewrite Z.land_ones, !Z.shiftr_div_pow2 by lia.
    change (2 ^ (23 - 23)) with 1. change (2 ^ (25 - 1)) with (2 ^ 24).
    change (2 ^ (31 - 0)) with (2 ^ 31). change (2 ^ 2) with 4.
    change (2 ^ 6) with 64. rewrite Z.mul_1_r.
    fold (exponent_low_key ieee). unfold ibm_via_tables.
    assert (Hk : 0 <= exponent_low_key ieee < 4)
      by (unfold exponent_low_key; apply Z.mod_pos_bound; lia).
    destruct (tables_bounds _ Hk) as [Hit Hmt].
    set (ti := nth _ it 0) in *. set (tm := nth _ mt 0) in *.
    assert (Hf : 0 <= ieee mod 2 ^ 23 < 2 ^ 23)
      by (apply Z.mod_pos_bound; lia).
    assert (He : 0 <= (ieee / 2 ^ 25) mod 64 < 64)
      by (apply Z.mod_pos_bound; lia).
    set (fr := ieee mod 2 ^ 23) in *.
    set (ex := (ieee / 2 ^ 25) mod 64) in *.
    assert (Hs : (ieee / 2 ^ 31) mod 2 ^ 1 = ieee / 2 ^ 31).
    { apply Z.mod_small. split; [apply Z.div_pos; lia|].
      apply Z.div_lt_upper_bound; lia. }
    rewrite Hs.
    assert (Hq : 0 <= tm * fr / 2 ^ 3 < 2 ^ 23).
    { split; [apply Z.div_pos; nia|]. apply Z.div_lt_upper_bound; nia. }
    rewrite (Z.mod_small (tm * fr)) by nia.
    rewrite (Z.mod_small (ex * 2 ^ 24 + ti)) by lia.
    rewrite (Z.mod_small (_ + _)) by lia.
    rewrite lor_disjoint by lia. change (2 ^ 3) with 8. lia.
Qed.

(** The amended statement at the pattern of 1.0f and at negative zero. *)
Lemma ieeeToIbm_tables_keyed_by_exponent_bits_witness :
  ieeeToIbm_bits 0x80000000 = 0
  /\ ieeeToIbm_bits 0x3F800000
     = ibm_via_tables (exponent_low_key 0x3F800000) 0x3F800000.
Proof.
  split.
  - apply (ieeeToIbm_tables_keyed_by_exponent_bits 0x80000000);
      [lia | right; reflexivity].
  - apply (ieeeToIbm_tables_keyed_by_exponent_bits 0x3F800000);
      [lia | discriminate | discriminate].
Defined.

(** The pattern of 1.0f encodes to 0x41100000 (16^1 * 1/16); the tables
    keyed by the high mantissa bits would give 0x40200000. *)
Lemma ieeeToIbm_not_keyed_by_mantissa_bits :
  ~ tables_keyed_by_high_mantissa_bits.
Proof.
  intros H. destruct (H 0x3F800000) as [_ H1]; [lia|].
  specialize (H1 ltac:(discriminate) ltac:(discriminate)).
  vm_compute in H1. discriminate.
Qed.

(** On floats: both zeros encode to 0, and some values with their IBM words. *)
Lemma ieeeToIbm_zero (s : bool) : ieeeToIbm (S754_zero s) = 0.
Proof. by destruct s. Qed.

Lemma ieeeToIbm_examples :
  ieeeToIbm f32_one = 0x41100000
  /\ ieeeToIbm (f32_of_int (-1)) = 0xC1100000
  /\ ieeeToIbm (f32_div f32_one (f32_of_int 4)) = 0x40400000
  /\ ieeeToIbm (f32_of_int 100) = 0x42640000.
Proof. repeat split; reflexivity. Qed.

End CodecFacts.

(** ** The writer *)

Section WriterFacts.
Import Segy.

(** *** The checks of [writeFile] *)

Lemma io_for_each_late {X} (l : list X) (body : X -> io unit) (d : disk) :
  (forall i d', late (body i d').1) -> late (io_for_each l body d).1.
Proof.
  revert d. induction l as [|i l IH]; intros d Hb; simpl; [exact I|].
  unfold io_bind. specialize (Hb i d) as Hi.
  destruct (body i d) as [[[]|w|] d']; simpl in *; auto.
Qed.

Lemma io_lift_bind_late {A} (c : outcome A) (k : A -> io unit) (d : disk) :
  (forall w, c <> Throw w) ->
  (forall a, late (k a d).1) -> late (io_bind (io_lift c) k d).1.
Proof.
  intros Hc Hk. unfold io_bind, io_lift. destruct c; simpl; auto.
  by destruct (Hc what).
Qed.

Lemma at_no_throw {A} (v : list A) i w : at_ v i <> Throw w.
Proof. unfold at_. by destruct (v !! i). Qed.

Lemma memcpy_no_throw p off src w : memcpy p off src <> Throw w.
Proof.
  revert p off. induction src as [|b src IH]; intros p off; simpl; [done|].
  unfold assign. destruct (decide _); simpl; [apply IH | done].
Qed.

Lemma float_to_uint16_no_throw x w : float_to_uint16 x <> Throw w.
Proof.
  unfold float_to_uint16. destruct (fl_trunc x); [|done].
  by destruct (_ && _).
Qed.

Lemma ofstream_write_bind_late path p (k : bool -> io unit) d :
  (forall b d', late (k b d').1) -> late (io_bind (ofstream_write path p) k d).1.
Proof.
  intros Hk. unfold io_bind, ofstream_write. cbv zeta.
  destruct (transfer _ _ _) as [good d']. apply Hk.
Qed.

Lemma with_ofstream_outcome {A} path (body : io A) d :
  (with_ofstream path body d).1 = (body d).1.
Proof. unfold with_ofstream. by destruct (body d) as [[]]. Qed.

Lemma writeTextHeader_late w d : late (writeTextHeader w d).1.
Proof.
  unfold writeTextHeader. apply ofstream_write_bind_late.
  intros [] d'; simpl; done.
Qed.

Lemma writeBinaryHeader_late w dt n d : late (writeBinaryHeader w dt n d).1.
Proof.
  unfold writeBinaryHeader.
  apply io_lift_bind_late; [apply float_to_uint16_no_throw|]. intros us.
  apply io_lift_bind_late; [apply memcpy_no_throw|]. intros h1.
  apply io_lift_bind_late; [apply memcpy_no_throw|]. intros h2.
  apply ofstream_write_bind_late. intros [] d'; simpl; done.
Qed.

Lemma writeTraces_late w data hs d : late (writeTraces w data hs d).1.
Proof.
  unfold writeTraces. apply io_for_each_late. intros i d'.
  apply io_lift_bind_late; [apply at_no_throw|]. intros h.
  apply ofstream_write_bind_late. intros [] d''; simpl; [|done].
  apply io_lift_bind_late; [apply at_no_throw|]. intros row.
  apply io_for_each_late. intros j d3.
  apply io_lift_bind_late; [apply at_no_throw|]. intros x.
  apply ofstream_write_bind_late. intros [] d4; simpl; done.
Qed.

Lemma emit_late w data dt hs n d : late (emit w data dt hs n d).1.
Proof.
  unfold emit. unfold io_bind at 1, ofstream_open.
  destruct (read_only d); simpl; [done|].
  set (d1 := Disk _ _ _ _ _). rewrite with_ofstream_outcome.
  unfold io_bind.
  pose proof (writeTextHeader_late w d1) as H1.
  destruct (writeTextHeader w d1) as [[[]|?|] d2]; simpl in *; auto.
  pose proof (writeBinaryHeader_late w dt n d2) as H2.
  destruct (writeBinaryHeader w dt n d2) as [[[]|?|] d3]; simpl in *; auto.
  apply writeTraces_late.
Qed.

Lemma late_not_check (o : outcome unit) :
  late o ->
  o <> Throw InconsistentTraceLength /\ o <> Throw HeaderCountMismatch
  /\ o <> Throw MalformedHeader.
Proof.
  intros H. repeat split; intros ->; simpl in H; discriminate.
Qed.

(** A loop of checks that leave the disk alone. *)
Lemma io_for_each_check {X} (l : list X) (ok : X -> bool) (e : string)
    (body : X -> io unit) (d : disk) :
  (forall i, i ∈ l -> body i d = if ok i then (Ok tt, d) else (Throw e, d)) ->
  io_for_each l body d = if forallb ok l then (Ok tt, d) else (Throw e, d).
Proof.
  induction l as [|i l IH]; intros Hb; simpl; [done|].
  unfold io_bind. rewrite (Hb i) by constructor.
  destruct (ok i); simpl; [|done].
  apply IH. intros j Hj. apply Hb. by constructor.
Qed.

Lemma forallb_seq_lookup {A} (p : A -> bool) (l : list A) (k : nat) :
  forallb (fun i => from_option p false (l !! i))
          (seq k (length l - k))
  = forallb p (drop k l).
Proof.
  apply eq_iff_eq_true. rewrite !forallb_forall. split.
  - intros H x Hx. apply list_elem_of_In, list_elem_of_lookup in Hx as [j Hj].
    rewrite lookup_drop in Hj.
    specialize (H (k + j)). rewrite Hj in H. apply H.
    apply list_elem_of_In, elem_of_seq.
    apply lookup_lt_Some in Hj. lia.
  - intros H i Hi. apply list_elem_of_In, elem_of_seq in Hi.
    destruct (l !! i) as [x|] eqn:E.
    + apply H, list_elem_of_In, list_elem_of_lookup. exists (i - k).
      rewrite lookup_drop. replace (k + (i - k)) with i by lia. done.
    + apply lookup_ge_None in E. lia.
Qed.

Lemma forallb_false_lookup {A} (p : A -> bool) (l : list A) :
  forallb p l = false -> exists i x, l !! i = Some x /\ p x = false.
Proof.
  induction l as [|x l IH]; simpl; [discriminate|].
  destruct (p x) eqn:E; simpl.
  - intros H. destruct (IH H) as (i & y & Hi & Hy). by exists (S i), y.
  - intros _. by exists 0, x.
Qed.

Lemma writeFile_cases w data dt hs d :
  data <> [] ->
  writeFile w data dt hs d =
    if negb (uniform data) then (Throw InconsistentTraceLength, d)
    else if negb (length hs =? length data) then (Throw HeaderCountMismatch, d)
    else if negb (well_sized hs) then (Throw MalformedHeader, d)
    else emit w data dt hs (length (default [] (head data))) d.
Proof.
  intros Hne. unfold writeFile. destruct (decide (data = [])); [done|].
  destruct data as [|row0 data']; [done|]. 
  change (at_ (row0 :: data') 0) with (Ok row0).
  change (io_bind (io_lift (Ok row0)) ?k d) with (k row0 d). cbv beta.
  unfold io_bind at 1.
  rewrite (io_for_each_check _
    (fun i => from_option (fun row => length row =? length row0) false
                          ((row0 :: data') !! i))
    InconsistentTraceLength).
  2:{ intros i Hi. unfold io_bind, io_lift, at_.
      apply elem_of_seq in Hi.
      destruct ((row0 :: data') !! i) as [row|] eqn:E.
      - simpl. by destruct (length row =? length row0).
      - apply lookup_ge_None in E. simpl in *. lia. }
  rewrite (forallb_seq_lookup (fun row => length row =? length row0) (row0 :: data') 1).
  unfold uniform. cbn [head default forallb drop]. rewrite Nat.eqb_refl.
  rewrite drop_0. cbn [andb].
  destruct (forallb _ data'); cbn [negb]; [|done].
  destruct (length hs =? length (row0 :: data')) eqn:El; cbn [negb]; [|done].
  apply Nat.eqb_eq in El.
  unfold io_bind at 1.
  rewrite (io_for_each_check _
    (fun i => from_option (fun h : bytes => length h =? 240) false (hs !! i))
    MalformedHeader).
  2:{ intros i Hi. unfold io_bind, io_lift, at_.
      apply elem_of_seq in Hi.
      destruct (hs !! i) as [h|] eqn:E.
      - simpl. by destruct (length h =? 240).
      - apply lookup_ge_None in E. simpl in *. lia. }
  rewrite <- El.
  pose proof (forallb_seq_lookup (fun h : bytes => length h =? 240) hs 0) as Hf.
  rewrite Nat.sub_0_r, drop_0 in Hf. rewrite Hf.
  unfold well_sized. destruct (forallb _ hs); cbn [negb]; reflexivity.
Qed.

Lemma uniform_spec (data : list (list float)) :
  uniform data = true <->
  forall i row, data !! i = Some row ->
    length row = length (default [] (head data)).
Proof.
  unfold uniform. rewrite forallb_forall. split.
  - intros H i row Hi. apply Nat.eqb_eq, H, list_elem_of_In.
    eapply list_elem_of_lookup_2; eauto.
  - intros H row Hrow. apply list_elem_of_In, list_elem_of_lookup in Hrow as [i Hi].
    apply Nat.eqb_eq. eauto.
Qed.

Lemma well_sized_spec (hs : list bytes) :
  well_sized hs = true <-> forall i h, hs !! i = Some h -> length h = 240.
Proof.
  unfold well_sized. rewrite forallb_forall. split.
  - intros H i row Hi. apply Nat.eqb_eq, H, list_elem_of_In.
    eapply list_elem_of_lookup_2; eauto.
  - intros H row Hrow. apply list_elem_of_In, list_elem_of_lookup in Hrow as [i Hi].
    apply Nat.eqb_eq. eauto.
Qed.

(** C5: for a non-empty volume, [writeFile] throws the inconsistent-trace-length
    error exactly when some trace's sample count differs from that of trace 0;
    otherwise it throws the header-count-mismatch error exactly when the number
    of trace headers differs from the number of traces; otherwise it throws the
    malformed-header error exactly when some trace header is not 240 bytes
    long; and when it throws one of the three the disk, and so the target
    file, is as it was. *)
Theorem writeFile_consistency_errors (w : SegyWriter) (data : list (list float))
    (dt : double) (hs : list bytes) (d : disk) :
  data <> [] ->
  let n0 := length (default [] (head data)) in
  let r := writeFile w data dt hs d in
  (r.1 = Throw InconsistentTraceLength <->
     exists i row, data !! i = Some row /\ length row <> n0)
  /\ ((forall i row, data !! i = Some row -> length row = n0) ->
      (r.1 = Throw HeaderCountMismatch <-> length hs <> length data)
      /\ (length hs = length data ->
          (r.1 = Throw MalformedHeader <->
             exists i h, hs !! i = Some h /\ length h <> 240)))
  /\ (r.1 = Throw InconsistentTraceLength \/ r.1 = Throw HeaderCountMismatch
      \/ r.1 = Throw MalformedHeader -> r.2 = d).
Proof.
  intros Hne n0 r. subst r. rewrite (writeFile_cases w data dt hs d Hne).
  pose proof (uniform_spec data) as Hu.
  pose proof (well_sized_spec hs) as Hw.
  pose proof (late_not_check _ (emit_late w data dt hs n0 d)) as (L1 & L2 & L3).
  fold n0 in Hu |- *.
  destruct (uniform data) eqn:Eu; cbn [negb].
  - assert (Hall : forall i row, data !! i = Some row -> length row = n0)
      by (by apply Hu).
    destruct (length hs =? length data) eqn:El; cbn [negb].
    + apply Nat.eqb_eq in El.
      destruct (well_sized hs) eqn:Ew; cbn [negb].
      * assert (Hws : forall i h, hs !! i = Some h -> length h = 240)
          by (by apply Hw).
        split; [|split].
        -- split; [done|]. intros (i & row & Hi & Hr). by apply Hall in Hi.
        -- intros _. split; [split; [done|done]|].
           intros _. split; [done|]. intros (i & h & Hi & Hh).
           by apply Hws in Hi.
        -- intros [H|[H|H]]; done.
      * split; [|split]; simpl.
        -- split; [discriminate|]. intros (i & row & Hi & Hr). by apply Hall in Hi.
        -- intros _. split; [split; [discriminate|done]|].
           intros _. split; [|done]. intros _.
           destruct (forallb_false_lookup _ _ Ew) as (i & h & Hi & Hh).
           exists i, h. by apply Nat.eqb_neq in Hh.
        -- done.
    + apply Nat.eqb_neq in El. split; [|split]; simpl.
      * split; [discriminate|]. intros (i & row & Hi & Hr). by apply Hall in Hi.
      * intros _. split; [done|]. intros El'. done.
      * done.
  - split; [|split]; simpl.
    + split; [|done]. intros _.
      destruct (forallb_false_lookup _ _ Eu) as (i & row & Hi & Hr).
      exists i, row. by apply Nat.eqb_neq in Hr.
    + intros Hall. apply Hu in Hall. discriminate.
    + done.
Qed.

(** A volume whose second trace is shorter than the first. *)
Lemma writeFile_consistency_errors_witness :
  (writeFile writer0 [[f32_one]; []] dt0 [] disk0).1
  = Throw InconsistentTraceLength
  /\ (writeFile writer0 [[f32_one]; []] dt0 [] disk0).2 = disk0.
Proof.
  destruct (writeFile_consistency_errors writer0 [[f32_one]; []] dt0 [] disk0)
    as (H1 & _ & H3); [discriminate|].
  assert (H : (writeFile writer0 [[f32_one]; []] dt0 [] disk0).1
              = Throw InconsistentTraceLength).
  { apply H1. exists 1, []. split; [reflexivity | discriminate]. }
  split; [exact H | apply H3; left; exact H].
Defined.

(** C10: with a volume of zero traces [writeFile], in either overload, throws
    "Data is empty", whatever the trace headers are, and leaves the disk as it
    was; the message is none of the three consistency errors. *)
Theorem writeFile_empty_volume (w : SegyWriter) (dt : double)
    (hs : list bytes) (d : disk) :
  writeFile w [] dt hs d = (Throw DataIsEmpty, d)
  /\ writeFile_ref w [] dt d = (Throw DataIsEmpty, d)
  /\ DataIsEmpty <> InconsistentTraceLength
  /\ DataIsEmpty <> HeaderCountMismatch
  /\ DataIsEmpty <> MalformedHeader.
Proof. do 2 (split; [reflexivity|]). repeat split; discriminate. Qed.

(** *** Bytes and headers *)

Lemma byte_of_Z_mod (a b : Z) :
  (a mod 256 = b mod 256)%Z -> byte_of_Z a = byte_of_Z b.
Proof. unfold byte_of_Z. by intros ->. Qed.

Lemma Z_of_byte_of_Z (z : Z) : Z_of_byte (byte_of_Z z) = (z mod 256)%Z.
Proof.
  unfold Z_of_byte, byte_of_Z.
  pose proof (Z.mod_pos_bound z 256 eq_refl) as Hz.
  destruct (Byte.of_N (Z.to_N (z mod 256))) as [b|] eqn:E; simpl.
  - apply Byte.to_of_N in E. rewrite E. lia.
  - apply Byte.of_N_None_iff in E. lia.
Qed.

Lemma swapBytes16_arith (v : Z) :
  (0 <= v < 2 ^ 16)%Z -> swapBytes16 v = ((v mod 256) * 256 + v / 256)%Z.
Proof.
  intros Hv. unfold swapBytes16.
  rewrite Z.shiftl_mul_pow2, Z.shiftr_div_pow2 by lia.
  assert (0 <= v / 2 ^ 8 < 2 ^ 8)%Z
    by (split; [apply Z.div_pos; lia | apply Z.div_lt_upper_bound; lia]).
  rewrite Z.lor_comm, lor_disjoint by lia.
  change (2 ^ 8)%Z with 256%Z. change (2 ^ 16)%Z with 65536%Z in *.
  Z.div_mod_to_equations. lia.
Qed.

Lemma object16_swap (v : Z) :
  (0 <= v < 2 ^ 16)%Z ->
  object16 (swapBytes16 v) = [byte_of_Z (v / 256); byte_of_Z v].
Proof.
  intros Hv. rewrite swapBytes16_arith by done. unfold object16.
  rewrite Z.shiftr_div_pow2 by lia. change (2 ^ 8)%Z with 256%Z.
  change (2 ^ 16)%Z with 65536%Z in *.
  f_equal; [|f_equal]; apply byte_of_Z_mod; Z.div_mod_to_equations; lia.
Qed.

Lemma memcpy_Ok (src p p' : bytes) (off : nat) :
  memcpy p off src = Ok p' ->
  length p' = length p
  /\ (forall j, j < length src -> p' !! (off + j) = src !! j)
  /\ (forall k, k < off \/ off + length src <= k -> p' !! k = p !! k).
Proof.
  revert p off. induction src as [|b src IH]; intros p off; simpl.
  - intros [= <-]. split; [done|]. split; [lia|done].
  - intros H. apply bind_Ok in H as (p1 & H1 & H).
    unfold assign in H1. destruct (decide (off < length p)); [|done].
    injection H1 as <-. apply IH in H as (Hl & Hin & Hout).
    rewrite length_insert in Hl. split; [done|]. split.
    + intros [|j] Hj.
      * rewrite Nat.add_0_r, Hout by lia. by rewrite list_lookup_insert_eq.
      * replace (off + S j) with (S off + j) by lia. rewrite Hin by lia. done.
    + intros k Hk. rewrite Hout by lia. apply list_lookup_insert_ne. lia.
Qed.

Lemma new_SegyWriter_Ok target reference d w :
  new_SegyWriter target reference d = Ok w ->
  exists f, files d !! reference = Some f
    /\ target_path_ w = target
    /\ text_header_ w = take 3200 f /\ length (text_header_ w) = 3200
    /\ binary_header_ w = take 400 (drop 3200 f)
    /\ length (binary_header_ w) = 400.
Proof.
  unfold new_SegyWriter, readReferenceFile. intros H.
  apply bind_Ok in H as (r & Hr & [= <-]). simpl.
  destruct (files d !! reference) as [f|]; [|done]. exists f.
  destruct (length (take 3200 f) =? 3200) eqn:E1; [|done].
  destruct (length (take 400 (drop 3200 f)) =? 400) eqn:E2; [|done].
  cbn [negb] in Hr. apply bind_Ok in Hr as (raw & _ & Hr).
  destruct (swapBytes16 raw =? 0)%Z; [done|].
  apply bind_Ok in Hr as (hs & _ & [= <-]). simpl.
  apply Nat.eqb_eq in E1, E2. done.
Qed.

Lemma float_to_uint16_range x us :
  float_to_uint16 x = Ok us -> (0 <= us < 2 ^ 16)%Z.
Proof.
  unfold float_to_uint16. destruct (fl_trunc x); [|done].
  destruct (_ && _) eqn:E; [|done]. intros [= <-]. lia.
Qed.

Lemma new_writer0 : new_SegyWriter "out.sgy" "ref.sgy" disk0 = Ok writer0.
Proof. vm_compute. reflexivity. Qed.

Lemma write_writer0 :
  writeFile_ref writer0 [[f32_one; f32_of_int (-1)]] dt0 disk0 = (Ok tt, disk1).
Proof. vm_compute. reflexivity. Qed.

End WriterFacts.

(** ** The engine *)

Section EngineFacts.
Import Amplify.

(** *** Shapes *)

Lemma forward_cell_shape n m ts tm i j g g' :
  has_shape n m g -> forward_cell ts tm i j g = Ok g' -> has_shape n m g'.
Proof.
  intros Hs H. unfold forward_cell in H. inv_bind H. eauto with shape.
Qed.

Lemma backward_cell_shape n m nt ns ts tm i j g g' :
  has_shape n m g -> backward_cell nt ns ts tm i j g = Ok g' ->
  has_shape n m g'.
Proof.
  intros Hs H. unfold backward_cell in H. inv_bind H. eauto with shape.
Qed.

Lemma distanceTransformEDT_shape (n m : nat) (binary_mask : BooleanMask)
    (sampling : list float) (distance_map : FloatMask) :
  0 < n -> 0 < m -> has_shape n m binary_mask ->
  distanceTransformEDT binary_mask sampling = Ok distance_map ->
  has_shape n m distance_map.
Proof.
  intros Hn Hm [Hlen Hrows] H. unfold distanceTransformEDT in H.
  destruct binary_mask as [|row0 rest] eqn:Eb; [simpl in Hlen; lia|].
  rewrite <- Eb in *.
  assert (Hr0 : length row0 = m).
  { rewrite Eb in Hrows. by apply Forall_cons in Hrows as [? _]. }
  destruct row0 as [|b0 row0']; [simpl in Hr0; lia|].
  rewrite Hlen, Hr0 in H.
  apply bind_Ok in H as (g1 & H1 & H).
  apply bind_Ok in H as (ts & _ & H).
  apply bind_Ok in H as (tm & _ & H).
  apply bind_Ok in H as (g2 & H2 & H).
  assert (S1 : has_shape n m g1).
  { revert H1. apply nest_shape; [|apply has_shape_grid].
    intros i j g g' Hs Hb. apply bind_Ok in Hb as (b & _ & Hb).
    destruct b; simpl in Hb; [by injection Hb as <- | by eapply assign2_shape]. }
  assert (S2 : has_shape n m g2).
  { revert H2. apply nest_shape; [|exact S1].
    intros i j g g' Hs Hb. apply bind_Ok in Hb as (b & _ & Hb).
    destruct b; [by eapply forward_cell_shape | by injection Hb as <-]. }
  revert H. apply nest_shape; [|exact S2].
  intros i j g g' Hs Hb. apply bind_Ok in Hb as (b & _ & Hb).
  destruct b; [by eapply backward_cell_shape | by injection Hb as <-].
Qed.

(** Without samples there is no distance map, whatever the trace count. *)
Lemma distanceTransformEDT_no_samples (rest : BooleanMask)
    (sampling : list float) :
  distanceTransformEDT ([] :: rest) sampling = Ok [].
Proof. reflexivity. Qed.

Lemma hard_mask_shape n m w g r :
  has_shape n m g -> hard_mask n m w g = Ok r -> has_shape n m r.
Proof.
  intros Hs. unfold hard_mask. apply nest_shape; [|done].
  intros i j t t' Ht Hb. apply bind_Ok in Hb as (b & _ & Hb).
  eauto with shape.
Qed.

Lemma createTransitionMask_shape (n m : nat) (window : BooleanMask)
    (width_traces : Z) (width_time_ms dt_ms : float) (mode : TransitionMode)
    (mask : FloatMask) :
  createTransitionMask (n, m) window width_traces width_time_ms dt_ms mode
  = Ok mask ->
  has_shape n m mask.
Proof.
  unfold createTransitionMask. cbn [fst snd].
  destruct (_ || _).
  { apply hard_mask_shape, has_shape_grid. }
  destruct mode; intros H.
  - apply bind_Ok in H as (inv & _ & H).
    apply bind_Ok in H as (dist & _ & H).
    revert H. apply nest_shape; [|apply has_shape_grid].
    intros i j g g' Hs Hb. inv_bind Hb. by eapply assign2_shape.
  - apply bind_Ok in H as (dist & _ & H).
    apply bind_Ok in H as (mx & _ & H).
    destruct (fl_eq mx f32_zero).
    { revert H. apply hard_mask_shape, has_shape_grid. }
    revert H. apply nest_shape; [|apply has_shape_grid].
    intros i j g g' Hs Hb. apply bind_Ok in Hb as (b & _ & Hb).
    destruct b; [inv_bind Hb|]; by eapply assign2_shape.
Qed.

Lemma polygon_fill_shape n m nt ns dt_ms trace_idx xs g g' :
  has_shape n m g -> polygon_fill nt ns dt_ms trace_idx xs g = Ok g' ->
  has_shape n m g'.
Proof.
  intros Hs. unfold polygon_fill. apply for_each_invariant; [|done].
  intros i t t' _ Ht Hb. destruct (decide _); [|by injection Hb as <-].
  inv_bind Hb. revert Hb. apply for_int_invariant; [|done].
  intros s u u' _ Hu Hb. destruct (_ && _); [|by injection Hb as <-].
  by eapply assign2_int_shape.
Qed.

Lemma createWindowMask_shape (n m : nat) (target_window : list Point)
    (dt_ms : float) (mask : BooleanMask) :
  createWindowMask (n, m) target_window dt_ms = Ok mask -> has_shape n m mask.
Proof.
  unfold createWindowMask. cbn [fst snd].
  destruct (decide (target_window = [])).
  { intros [= <-]. apply has_shape_grid. }
  destruct (decide (length target_window = 2)).
  { intros H. inv_bind H. revert H.
    apply for_int_invariant; [|apply has_shape_grid].
    intros i t t' _ Ht. apply for_int_invariant; [|done].
    intros j u u' _ Hu. by apply assign2_int_shape. }
  destruct (decide (length target_window < 3)).
  { apply for_each_invariant; [|apply has_shape_grid].
    intros p t t' _ Ht Hb. apply bind_Ok in Hb as (s & _ & Hb).
    destruct (_ && _); [|by injection Hb as <-]. by eapply assign2_int_shape. }
  intros H. apply bind_Ok in H as (first & _ & H). revert H.
  apply for_int_invariant; [|apply has_shape_grid].
  intros i t t' _ Ht Hb. apply bind_Ok in Hb as (xs & _ & Hb).
  by eapply polygon_fill_shape.
Qed.

(** C8: the mask returned by [createWindowMask] has the dimensions of the
    shape it was given; the distance map returned by [distanceTransformEDT]
    for a mask of [n > 0] traces of [m > 0] samples has [n] traces of [m]
    samples; the mask returned by [createTransitionMask] has the dimensions of
    the shape it was given. *)
Theorem shape_invariants :
  (forall n m target_window dt_ms mask,
     createWindowMask (n, m) target_window dt_ms = Ok mask ->
     has_shape n m mask)
  /\ (forall n m binary_mask sampling distance_map,
        0 < n -> 0 < m -> has_shape n m binary_mask ->
        distanceTransformEDT binary_mask sampling = Ok distance_map ->
        has_shape n m distance_map)
  /\ (forall n m window width_traces width_time_ms dt_ms mode mask,
        createTransitionMask (n, m) window width_traces width_time_ms dt_ms mode
        = Ok mask ->
        has_shape n m mask).
Proof.
  split; [|split].
  - apply createWindowMask_shape.
  - apply distanceTransformEDT_shape.
  - apply createTransitionMask_shape.
Qed.

Lemma shape_invariants_witness :
  (exists mask, createWindowMask (4, 4) wedge f32_one = Ok mask
                /\ has_shape 4 4 mask)
  /\ (exists distance_map,
        distanceTransformEDT full_window [f32_one; f32_one] = Ok distance_map
        /\ has_shape 2 2 distance_map)
  /\ (exists mask,
        createTransitionMask (2, 2) full_window 5 (f32_of_int 20)
          (f32_of_int 2) OUTSIDE = Ok mask
        /\ has_shape 2 2 mask).
Proof.
  destruct shape_invariants as (H1 & H2 & H3).
  split; [|split].
  - eexists. split; [vm_compute; reflexivity|].
    apply (H1 4 4 wedge f32_one). vm_compute. reflexivity.
  - eexists. split; [vm_compute; reflexivity|].
    apply (H2 2 2 full_window [f32_one; f32_one]); [lia | lia | | ].
    + split; [reflexivity|]. repeat constructor.
    + vm_compute. reflexivity.
  - eexists. split; [vm_compute; reflexivity|].
    apply (H3 2 2 full_window 5%Z (f32_of_int 20) (f32_of_int 2) OUTSIDE).
    vm_compute. reflexivity.
Defined.

(** *** The rectangle window *)

Lemma clamp_index_Ok (n : nat) (x : Z) :
  0 < n -> (Z.of_nat n <= INT_MAX)%Z ->
  clamp_index n x = Ok (Z.max 0 (Z.min (Z.of_nat n - 1) x)).
Proof.
  intros Hn Hmax. unfold clamp_index.
  rewrite static_cast_int_small by done.
  rewrite int_sub_Ok by (unfold INT_MIN, INT_MAX in *; lia).
  simpl. by rewrite int_max_spec, int_min_spec.
Qed.

Lemma clamp_index_mono (n : nat) (x y cx cy : Z) :
  (x <= y)%Z -> clamp_index n x = Ok cx -> clamp_index n y = Ok cy ->
  (0 <= cx <= cy)%Z.
Proof.
  intros Hxy Hx Hy. unfold clamp_index in *.
  destruct (int_sub _ _) as [last| |]; [|done..].
  cbn [bind] in *. injection Hx as <-. injection Hy as <-.
  rewrite !int_max_spec, !int_min_spec. lia.
Qed.

(** The fill of an in-range box of a grid. *)
Lemma fill_box (n m : nat) (lo_t hi_t lo_s hi_s : Z) (g : BooleanMask) :
  has_shape n m g ->
  (Z.of_nat n <= INT_MAX)%Z -> (Z.of_nat m <= INT_MAX)%Z ->
  (0 <= lo_t <= hi_t)%Z -> (hi_t < Z.of_nat n)%Z ->
  (0 <= lo_s <= hi_s)%Z -> (hi_s < Z.of_nat m)%Z ->
  exists g',
    for_int lo_t hi_t (fun trace =>
      for_int lo_s hi_s (fun sample window_indices =>
        assign2_int window_indices trace sample true)) g = Ok g'
    /\ has_shape n m g'
    /\ forall i j, cell g' i j
         = if decide ((lo_t <= Z.of_nat i <= hi_t)%Z
                      /\ (lo_s <= Z.of_nat j <= hi_s)%Z)
           then Some true else cell g i j.
Proof.
  intros Hs Hn Hm Ht Htn Hsm Hsn.
  destruct (for_int_counted_total
    (fun t g' => has_shape n m g' /\
       forall i j, cell g' i j
         = if decide ((lo_t <= Z.of_nat i < t)%Z
                      /\ (lo_s <= Z.of_nat j <= hi_s)%Z)
           then Some true else cell g i j)
    lo_t hi_t
    (fun trace => for_int lo_s hi_s (fun sample window_indices =>
        assign2_int window_indices trace sample true)) g)
    as (g' & Hg' & Hs' & Hc); [lia|lia| | |].
  - intros t g1 Htr [Hs1 Hc1].
    destruct (for_int_counted_total
      (fun s g' => has_shape n m g' /\
         forall i j, cell g' i j
           = if decide (Z.of_nat i = t /\ (lo_s <= Z.of_nat j < s)%Z)
             then Some true else cell g1 i j)
      lo_s hi_s
      (fun sample window_indices =>
         assign2_int window_indices t sample true) g1)
      as (g2 & Hg2 & Hs2 & Hc2); [lia|lia| | |].
    + intros s g2 Hsr [Hs2 Hc2].
      destruct (assign2_int_total n m g2 t s true) as [g3 Hg3]; [done|lia|lia|].
      exists g3. split; [done|].
      apply (assign2_int_Ok n m) in Hg3 as (_ & _ & Hs3 & Hc3); [|done].
      split; [done|]. intros i j. rewrite Hc3, Hc2.
      repeat destruct (decide _); try done; lia.
    + split; [done|]. intros i j. rewrite decide_False by lia. done.
    + exists g2. split; [done|]. split; [done|].
      intros i j. rewrite Hc2, Hc1.
      repeat destruct (decide _); try done; lia.
  - split; [done|]. intros i j. rewrite decide_False by lia. done.
  - exists g'. split; [done|]. split; [done|].
    intros i j. rewrite Hc. repeat destruct (decide _); try done; lia.
Qed.

(** The mask of a two-point window is true exactly on the clamped box. *)
Lemma rectangle_mask_box (n m : nat) (p1 p2 : Point) (dt_ms : float)
    (s1 s2 : Z) :
  0 < n -> 0 < m ->
  (Z.of_nat n <= INT_MAX)%Z -> (Z.of_nat m <= INT_MAX)%Z ->
  float_to_int (f32_div (time_ms p1) dt_ms) = Ok s1 ->
  float_to_int (f32_div (time_ms p2) dt_ms) = Ok s2 ->
  let clamp k x := Z.max 0 (Z.min (Z.of_nat k - 1) x) in
  exists mask,
    createWindowMask (n, m) [p1; p2] dt_ms = Ok mask
    /\ has_shape n m mask
    /\ forall i j, i < n -> j < m ->
         cell mask i j
         = Some (bool_decide
             ((clamp n (Z.min (trace p1) (trace p2)) <= Z.of_nat i
               <= clamp n (Z.max (trace p1) (trace p2)))%Z
              /\ (clamp m (Z.min s1 s2) <= Z.of_nat j
                  <= clamp m (Z.max s1 s2))%Z)).
Proof.
  intros Hn Hm Hnmax Hmmax H1 H2 clamp.
  unfold createWindowMask. cbn [fst snd].
  rewrite decide_False by done. rewrite decide_True by done.
  change (at_ [p1; p2] 0) with (Ok p1). change (at_ [p1; p2] 1) with (Ok p2).
  cbn [bind]. rewrite H1, H2. cbn [bind].
  rewrite !clamp_index_Ok by done. cbn [bind].
  rewrite !int_min_spec, !int_max_spec. fold (clamp n) (clamp m).
  destruct (fill_box n m (clamp n (Z.min (trace p1) (trace p2)))
              (clamp n (Z.max (trace p1) (trace p2)))
              (clamp m (Z.min s1 s2)) (clamp m (Z.max s1 s2))
              (grid n m false)) as (mask & Hmask & Hs & Hc);
    [apply has_shape_grid | done | done | unfold clamp; lia..|].
  exists mask. split; [done|]. split; [done|].
  intros i j Hi Hj. rewrite Hc. destruct (decide _).
  - by rewrite bool_decide_eq_true_2.
  - rewrite bool_decide_eq_false_2 by done. by apply cell_grid.
Qed.

(** A cell that is true stays true under [g[i][j] = true]. *)
Lemma assign2_int_true_keeps (n m : nat) (g g' : BooleanMask) (i j : Z)
    (a b : nat) :
  has_shape n m g -> assign2_int g i j true = Ok g' ->
  cell g a b = Some true -> cell g' a b = Some true.
Proof.
  intros Hs H Hc. apply (assign2_int_Ok n m) in H as (_ & _ & _ & Hg); [|done].
  rewrite Hg. by destruct (decide _).
Qed.

(** A fill that starts at [(lo_t, lo_s)] and returns has set that cell. *)
Lemma fill_sets_first (n m : nat) (lo_t hi_t lo_s hi_s : Z)
    (g g' : BooleanMask) :
  has_shape n m g -> (lo_t <= hi_t)%Z -> (lo_s <= hi_s)%Z ->
  for_int lo_t hi_t (fun trace =>
    for_int lo_s hi_s (fun sample window_indices =>
      assign2_int window_indices trace sample true)) g = Ok g' ->
  cell g' (Z.to_nat lo_t) (Z.to_nat lo_s) = Some true.
Proof.
  intros Hs Ht Hsm H.
  pose (P := fun g : BooleanMask =>
    has_shape n m g /\ cell g (Z.to_nat lo_t) (Z.to_nat lo_s) = Some true).
  assert (Hinner : forall t lo g g',
    P g -> for_each (int_range lo hi_s)
             (fun sample w => assign2_int w t sample true) g = Ok g' -> P g').
  { intros t lo g0 g1. apply for_each_invariant.
    intros s u u' _ [Hu Hc] Hb. split.
    - by eapply assign2_int_shape.
    - by eapply assign2_int_true_keeps. }
  cut (P g'); [by intros [_ ?]|].
  unfold for_int in H. apply bind_Ok in H as (g1 & H & Hend).
  destruct (_ && _) in Hend; [done|]. injection Hend as <-.
  rewrite int_range_cons in H by done. cbn [for_each] in H.
  apply bind_Ok in H as (g2 & Hrow & H).
  assert (P2 : P g2).
  { unfold for_int in Hrow. apply bind_Ok in Hrow as (g3 & Hrow & Hend).
    destruct (_ && _); [done|]. injection Hend as <-.
    rewrite int_range_cons in Hrow by done. cbn [for_each] in Hrow.
    apply bind_Ok in Hrow as (g4 & Hset & Hrow).
    apply (Hinner lo_t (lo_s + 1)%Z g4); [|done].
    pose proof Hset as Hset'.
    apply (assign2_int_Ok n m) in Hset as (? & ? & Hs4 & Hc4); [|done].
    split; [done|]. rewrite Hc4. rewrite decide_True by lia. done. }
  revert H. apply for_each_invariant; [|done].
  intros t u u' _ Hu Hb. unfold for_int in Hb.
  apply bind_Ok in Hb as (u1 & Hb & Hend).
  destruct (_ && _); [done|]. injection Hend as <-.
  by apply (Hinner t lo_s u).
Qed.

Lemma rectangle_mask_has_true (n m : nat) (p1 p2 : Point) (dt_ms : float)
    (mask : BooleanMask) :
  createWindowMask (n, m) [p1; p2] dt_ms = Ok mask ->
  exists i j, cell mask i j = Some true.
Proof.
  unfold createWindowMask. cbn [fst snd].
  rewrite decide_False by done. rewrite decide_True by done.
  change (at_ [p1; p2] 0) with (Ok p1). change (at_ [p1; p2] 1) with (Ok p2).
  cbn [bind]. intros H.
  apply bind_Ok in H as (s1 & _ & H). apply bind_Ok in H as (s2 & _ & H).
  apply bind_Ok in H as (lo_t & Hlt & H). apply bind_Ok in H as (hi_t & Hht & H).
  apply bind_Ok in H as (lo_s & Hls & H). apply bind_Ok in H as (hi_s & Hhs & H).
  rewrite !int_min_spec, !int_max_spec in *.
  assert (0 <= lo_t <= hi_t)%Z
    by (eapply clamp_index_mono; [|exact Hlt|exact Hht]; lia).
  assert (0 <= lo_s <= hi_s)%Z
    by (eapply clamp_index_mono; [|exact Hls|exact Hhs]; lia).
  exists (Z.to_nat lo_t), (Z.to_nat lo_s).
  apply (fill_sets_first n m lo_t hi_t lo_s hi_s (grid n m false));
    [apply has_shape_grid | lia | lia | done].
Qed.

(** C9: the mask that [createWindowMask] returns for a two-point window has at
    least one true cell, wherever the rectangle lies: each bound is clamped
    into the grid, so the fill loops run at least once. And it does return a
    mask on a non-empty grid whose dimensions fit an [int], when the two
    sample indices convert to [int]. *)
Theorem rectangle_mask_nonempty (n m : nat) (p1 p2 : Point) (dt_ms : float) :
  (forall mask,
     createWindowMask (n, m) [p1; p2] dt_ms = Ok mask ->
     exists i j, cell mask i j = Some true)
  /\ (forall s1 s2,
        0 < n -> 0 < m ->
        (Z.of_nat n <= INT_MAX)%Z -> (Z.of_nat m <= INT_MAX)%Z ->
        float_to_int (f32_div (time_ms p1) dt_ms) = Ok s1 ->
        float_to_int (f32_div (time_ms p2) dt_ms) = Ok s2 ->
        exists mask, createWindowMask (n, m) [p1; p2] dt_ms = Ok mask).
Proof.
  split.
  - apply rectangle_mask_has_true.
  - intros s1 s2 Hn Hm Hnmax Hmmax H1 H2.
    destruct (rectangle_mask_box n m p1 p2 dt_ms s1 s2)
      as (mask & Hmask & _); [done..|].
    by exists mask.
Qed.

Lemma rectangle_mask_nonempty_witness :
  exists mask,
    createWindowMask (2, 3)
      [{| trace := 5; time_ms := f32_of_int 30 |};
       {| trace := 7; time_ms := f32_of_int 40 |}] (f32_of_int 4) = Ok mask
    /\ exists i j, cell mask i j = Some true.
Proof.
  destruct (rectangle_mask_nonempty 2 3
              {| trace := 5; time_ms := f32_of_int 30 |}
              {| trace := 7; time_ms := f32_of_int 40 |} (f32_of_int 4))
    as [Htrue Hreturns].
  destruct (Hreturns 7%Z 10%Z) as [mask Hmask];
    [lia | lia | done | done | reflexivity | reflexivity |].
  exists mask. split; [exact Hmask | exact (Htrue mask Hmask)].
Defined.

(** *** The single-point window *)

(** C4, as amended: for a one-point window on a non-empty grid
    [createWindowMask] marks exactly the cell
    [(trace, static_cast<int>(time_ms / dt))], the sample index truncated
    toward zero and not rounded, when that cell is in the grid, and no cell
    otherwise. *)
Theorem single_point_mask (n m : nat) (p : Point) (dt_ms : float) (s : Z) :
  0 < n -> 0 < m ->
  (Z.of_nat n <= INT_MAX)%Z -> (Z.of_nat m <= INT_MAX)%Z ->
  float_to_int (f32_div (time_ms p) dt_ms) = Ok s ->
  exists mask,
    createWindowMask (n, m) [p] dt_ms = Ok mask
    /\ has_shape n m mask
    /\ forall i j, i < n -> j < m ->
         cell mask i j
         = Some (bool_decide (Z.of_nat i = trace p /\ Z.of_nat j = s)).
Proof.
  intros Hn Hm Hnmax Hmmax Hs.
  unfold createWindowMask. cbn [fst snd].
  rewrite decide_False by done. rewrite decide_False by (simpl; lia).
  rewrite decide_True by (simpl; lia).
  cbn [for_each]. rewrite Hs. cbn [bind].
  rewrite !static_cast_int_small by done.
  destruct (_ && _) eqn:E.
  - apply andb_prop in E as [E E4]. apply andb_prop in E as [E E3].
    apply andb_prop in E as [E1 E2].
    apply Z.leb_le in E1, E3. apply Z.ltb_lt in E2, E4.
    destruct (assign2_int_total n m (grid n m false) (trace p) s true)
      as [mask Hmask]; [apply has_shape_grid|lia|lia|].
    rewrite Hmask. cbn [bind]. exists mask. split; [done|].
    apply (assign2_int_Ok n m) in Hmask as (_ & _ & Hsh & Hc);
      [|apply has_shape_grid].
    split; [done|]. intros i j Hi Hj. rewrite Hc. destruct (decide _).
    + by rewrite bool_decide_eq_true_2.
    + rewrite bool_decide_eq_false_2 by done. by apply cell_grid.
  - exists (grid n m false). split; [done|]. split; [apply has_shape_grid|].
    intros i j Hi Hj. rewrite cell_grid by done. f_equal. symmetry.
    apply bool_decide_eq_false_2. intros [Ht Hsj].
    rewrite <- Ht, <- Hsj in E.
    destruct (Z.leb_spec 0 (Z.of_nat i)); [|lia].
    destruct (Z.ltb_spec (Z.of_nat i) (Z.of_nat n)); [|lia].
    destruct (Z.leb_spec 0 (Z.of_nat j)); [|lia].
    destruct (Z.ltb_spec (Z.of_nat j) (Z.of_nat m)); [|lia].
    discriminate.
Qed.

Lemma single_point_mask_witness :
  exists mask,
    createWindowMask (1, 3) [{| trace := 0; time_ms := f32_of_int 3 |}]
      (f32_of_int 4) = Ok mask
    /\ has_shape 1 3 mask
    /\ forall i j, i < 1 -> j < 3 ->
         cell mask i j
         = Some (bool_decide (Z.of_nat i = 0%Z /\ Z.of_nat j = 0%Z)).
Proof.
  apply (single_point_mask 1 3 {| trace := 0; time_ms := f32_of_int 3 |}
           (f32_of_int 4) 0%Z); [lia | lia | done | done | reflexivity].
Defined.

(** With time 3 ms and dt 4 ms the quotient 0.75 rounds to 1, but the cell that
    is marked is sample 0. *)
Lemma single_point_not_rounded : ~ single_point_marks_rounded_cell.
Proof.
  intros H.
  destruct (H 1 3 {| trace := 0; time_ms := f32_of_int 3 |} (f32_of_int 4) 1%Z)
    as (mask & Hmask & Hc); [lia | lia | done | done | reflexivity |].
  vm_compute in Hmask. injection Hmask as <-.
  specialize (Hc 0 1 ltac:(lia) ltac:(lia)). vm_compute in Hc. discriminate.
Qed.

(** *** Blend weights *)

Lemma fl_lt_le (a b : spec_float) : fl_lt a b = true -> fl_le a b = true.
Proof.
  unfold fl_lt, fl_le, SFltb, SFleb. by destruct (SFcompare a b) as [[]|].
Qed.

Lemma clamp_in_unit (x : float) :
  in_unit_interval (fl_max f32_zero (fl_min f32_one x)) = true.
Proof.
  unfold fl_min. destruct (fl_lt x f32_one) eqn:E1.
  - unfold fl_max. destruct (fl_lt f32_zero x) eqn:E0.
    + unfold in_unit_interval. by rewrite !fl_lt_le.
    + reflexivity.
  - reflexivity.
Qed.

Lemma unit_mask_grid_zero n m : unit_mask (grid n m f32_zero).
Proof.
  intros i j x H.
  assert (is_Some (cell (grid n m f32_zero) i j)) as Hs by eauto.
  apply (cell_is_Some n m) in Hs as [Hi Hj]; [|apply has_shape_grid].
  rewrite cell_grid in H by done. by injection H as <-.
Qed.

Lemma unit_mask_assign2 n m g g' i j x :
  has_shape n m g -> unit_mask g -> in_unit_interval x = true ->
  assign2 g i j x = Ok g' -> has_shape n m g' /\ unit_mask g'.
Proof.
  intros Hs Hu Hx H. apply (assign2_Ok n m) in H as (_ & _ & Hs' & Hc); [|done].
  split; [done|]. intros i' j' y. rewrite Hc. destruct (decide _).
  - by intros [= <-].
  - apply Hu.
Qed.

Lemma hard_mask_unit n m w r :
  hard_mask n m w (grid n m f32_zero) = Ok r -> unit_mask r.
Proof.
  intros H.
  cut (has_shape n m r /\ unit_mask r); [tauto|].
  revert H. unfold hard_mask.
  apply (nest_invariant (fun g => has_shape n m g /\ unit_mask g)).
  - intros i j g g' [Hs Hu] Hb. apply bind_Ok in Hb as (b & _ & Hb).
    eapply unit_mask_assign2; eauto. by destruct b.
  - split; [apply has_shape_grid | apply unit_mask_grid_zero].
Qed.

(** Outside the window the weights are clamped, and the hard edge is 0 or 1. *)
Lemma createTransitionMask_unit_outside (n m : nat) (window : BooleanMask)
    (width_traces : Z) (width_time_ms dt_ms : float) (mask : FloatMask) :
  createTransitionMask (n, m) window width_traces width_time_ms dt_ms OUTSIDE
  = Ok mask ->
  unit_mask mask.
Proof.
  unfold createTransitionMask. cbn [fst snd].
  destruct (_ || _); [apply hard_mask_unit|].
  intros H. apply bind_Ok in H as (inv & _ & H).
  apply bind_Ok in H as (dist & _ & H).
  cut (has_shape n m mask /\ unit_mask mask); [tauto|].
  revert H. apply (nest_invariant (fun g => has_shape n m g /\ unit_mask g)).
  - intros i j g g' [Hs Hu] Hb. apply bind_Ok in Hb as (d & _ & Hb).
    apply bind_Ok in Hb as (b & _ & Hb).
    eapply unit_mask_assign2; eauto. destruct b; [done|apply clamp_in_unit].
  - split; [apply has_shape_grid | apply unit_mask_grid_zero].
Qed.

(** C3 fails for INSIDE mode on a window that covers the whole grid: every
    distance is infinite, the maximum is infinite, and each weight is
    inf / inf = NaN, which is not in [[0, 1]]. *)
Theorem createTransitionMask_inside_full_window :
  createTransitionMask (2, 2) full_window 5 (f32_of_int 20) (f32_of_int 2)
    INSIDE
  = Ok [[S754_nan; S754_nan]; [S754_nan; S754_nan]]
  /\ in_unit_interval S754_nan = false.
Proof. split; vm_compute; reflexivity. Qed.

(** A rectangle over the whole of a 2 x 2 volume, blended INSIDE with the
    default widths: every output sample is NaN. *)
Lemma amplify_full_window_nan :
  exists r,
    amplifySeismicWindow [[f32_one; f32_one]; [f32_one; f32_one]] f32_2
      [{| trace := 0; time_ms := f32_zero |};
       {| trace := 1; time_ms := f32_2 |}]
      SCALE f32_2 5 f32_20 INSIDE 10 (f32_of_int 50)
    = Ok r
    /\ window_indices r = full_window
    /\ output_data r = [[S754_nan; S754_nan]; [S754_nan; S754_nan]].
Proof. eexists. split; [vm_compute; reflexivity|]. split; reflexivity. Qed.

(** *** The no-op *)

Lemma any_true_spec (mask : BooleanMask) :
  any_true mask = true <-> exists i j, cell mask i j = Some true.
Proof.
  unfold any_true. rewrite existsb_exists. split.
  - intros (row & Hrow & Hex). apply existsb_exists in Hex as (b & Hb & Hid).
    apply list_elem_of_In, list_elem_of_lookup in Hrow as [i Hi].
    apply list_elem_of_In, list_elem_of_lookup in Hb as [j Hj].
    exists i, j. unfold cell. rewrite Hi. simpl. rewrite Hj.
    f_equal. exact Hid.
  - intros (i & j & H). unfold cell in H.
    destruct (mask !! i) as [row|] eqn:E; simpl in H; [|done].
    exists row. split; [eapply list_elem_of_In, list_elem_of_lookup_2; eauto|].
    apply existsb_exists. exists true. split; [|done].
    eapply list_elem_of_In, list_elem_of_lookup_2; eauto.
Qed.

Lemma any_true_false (mask : BooleanMask) :
  any_true mask = false <-> no_true_cell mask.
Proof.
  unfold no_true_cell. split.
  - intros H i j Hc. assert (any_true mask = true); [|congruence].
    apply any_true_spec. eauto.
  - intros H. destruct (any_true mask) eqn:E; [|done].
    apply any_true_spec in E as (i & j & Hc). by destruct (H i j).
Qed.

Lemma any_true_grid_false (n m : nat) : any_true (grid n m false) = false.
Proof.
  apply any_true_false. intros i j H.
  assert (is_Some (cell (grid n m false) i j)) as Hs by eauto.
  apply (cell_is_Some n m) in Hs as [Hi Hj]; [|apply has_shape_grid].
  rewrite cell_grid in H by done. discriminate.
Qed.

(** C2: for a volume with at least one trace and one sample, if the window is
    empty or the window mask has no true cell, [amplifySeismicWindow] returns
    normally the input volume, an all-ones multiplier mask and an all-false
    window mask. *)
Theorem amplify_noop (seismic_data : SeismicData) (dt_ms : float)
    (target_window : list Point) (mode : ProcessingMode) (scale_factor : float)
    (width_traces : Z) (width_time_ms : float) (transition_mode : TransitionMode)
    (align_traces : Z) (align_time_ms : float) :
  seismic_data <> [] -> default [] (head seismic_data) <> [] ->
  (target_window = []
   \/ exists mask,
        createWindowMask
          (length seismic_data, length (default [] (head seismic_data)))
          target_window dt_ms = Ok mask
        /\ no_true_cell mask) ->
  amplifySeismicWindow seismic_data dt_ms target_window mode scale_factor
    width_traces width_time_ms transition_mode align_traces align_time_ms
  = Ok (noop_result seismic_data).
Proof.
  intros Hne Hne0 Hw. unfold amplifySeismicWindow, noop_result.
  destruct seismic_data as [|row0 rest]; [done|].
  destruct row0 as [|x row0]; [done|].
  change (default [] (head ((x :: row0) :: rest))) with (x :: row0) in *.
  destruct Hw as [-> | (mask & Hmask & Hno)].
  - unfold createWindowMask. rewrite decide_True by done. cbn [bind].
    rewrite decide_True by done. done.
  - rewrite Hmask. cbn [bind].
    destruct (decide (target_window = [])); [done|].
    apply any_true_false in Hno. rewrite Hno. done.
Qed.

(** Scenario B: the empty window. *)
Lemma amplify_noop_witness :
  amplifySeismicWindow scenario_data f32_2 [] SCALE f32_2
    0 f32_zero INSIDE 0 f32_zero
  = Ok (noop_result scenario_data).
Proof.
  apply (amplify_noop scenario_data f32_2 [] SCALE f32_2 0 f32_zero INSIDE 0
           f32_zero); [discriminate | discriminate | left; reflexivity].
Defined.

(** *** The gain *)

(** The final loop nest leaves every cell [gained]. *)
Lemma apply_gain_Ok (n m : nat) (seismic_data : SeismicData)
    (blending_mask : FloatMask) (gain : float) (result r : AmplifyResult) :
  has_shape n m (multiplier_mask result) ->
  has_shape n m (output_data result) ->
  apply_gain n m seismic_data blending_mask gain result = Ok r ->
  has_shape n m (multiplier_mask r) /\ has_shape n m (output_data r)
  /\ window_indices r = window_indices result
  /\ forall i j, i < n -> j < m -> gained seismic_data blending_mask gain r i j.
Proof.
  intros Hm0 Ho0 H. unfold apply_gain in H.
  pose (Inv := fun (i j : nat) (r : AmplifyResult) =>
    has_shape n m (multiplier_mask r) /\ has_shape n m (output_data r)
    /\ window_indices r = window_indices result
    /\ forall i' j', (i' < i \/ (i' = i /\ j' < j)) -> j' < m ->
         gained seismic_data blending_mask gain r i' j').
  assert (HI : Inv n 0 r).
  { replace n with (length (seq 0 n)) at 1 by apply length_seq.
    revert H. apply (for_each_counted (fun k => Inv k 0)).
    - intros k i s s' Hk HP Hrow. apply seq_lookup_eq in Hk as [-> Hk].
      assert (HQ : Inv k m s').
      { replace m with (length (seq 0 m)) at 1 by apply length_seq.
        revert Hrow. apply (for_each_counted (fun j => Inv k j)); [|done].
        clear s' HP. intros j j0 t t' Hj (Hm1 & Ho1 & Hw1 & Hg1) Hb.
        apply seq_lookup_eq in Hj as [-> Hj].
        apply bind_Ok in Hb as (w & Hw & Hb). apply at2_Ok in Hw.
        apply bind_Ok in Hb as (mm & Hmm & Hb).
        apply bind_Ok in Hb as (x & Hx & Hb). apply at2_Ok in Hx.
        apply bind_Ok in Hb as (mv & Hmv & Hb). apply at2_Ok in Hmv.
        apply bind_Ok in Hb as (oo & Hoo & Hb). injection Hb as <-.
        apply (assign2_Ok n m) in Hmm as (_ & _ & Hm2 & Hc2); [|done].
        apply (assign2_Ok n m) in Hoo as (_ & _ & Ho2 & Hco); [|done].
        rewrite Hc2, decide_True in Hmv by done. injection Hmv as <-.
        split; [done|]. split; [done|]. split; [done|].
        intros i' j' Hij Hj'. unfold gained. cbn [multiplier_mask output_data].
        rewrite Hc2, Hco.
        destruct (decide (i' = k /\ j' = j)) as [[-> ->]|Hne].
        - exists w, x. done.
        - apply Hg1; [lia|done]. }
      destruct HQ as (Hm1 & Ho1 & Hw1 & Hg1).
      split; [done|]. split; [done|]. split; [done|].
      intros i' j' Hij Hj'. apply Hg1; [lia|done].
    - split; [done|]. split; [done|]. split; [done|]. intros i' j' Hij. lia. }
  destruct HI as (Hm1 & Ho1 & Hw1 & Hg1).
  split; [done|]. split; [done|]. split; [done|].
  intros i j Hi Hj. apply Hg1; [lia|done].
Qed.

(** What [amplifySeismicWindow] returns off the no-op path. *)
Lemma amplify_gained (seismic_data : SeismicData) (dt_ms : float)
    (target_window : list Point) (mode : ProcessingMode) (scale_factor : float)
    (width_traces : Z) (width_time_ms : float) (transition_mode : TransitionMode)
    (align_traces : Z) (align_time_ms : float) (r : AmplifyResult) :
  amplifySeismicWindow seismic_data dt_ms target_window mode scale_factor
    width_traces width_time_ms transition_mode align_traces align_time_ms
  = Ok r ->
  any_true (window_indices r) = true ->
  let n := length seismic_data in
  let m := length (default [] (head seismic_data)) in
  exists blending_mask gain,
    createWindowMask (n, m) target_window dt_ms = Ok (window_indices r)
    /\ createTransitionMask (n, m) (window_indices r) width_traces
         width_time_ms dt_ms transition_mode = Ok blending_mask
    /\ target_amplification seismic_data dt_ms (window_indices r) mode
         scale_factor align_traces align_time_ms = Ok gain
    /\ has_shape n m (multiplier_mask r) /\ has_shape n m (output_data r)
    /\ forall i j, i < n -> j < m ->
         gained seismic_data blending_mask gain r i j.
Proof.
  intros H Hany. unfold amplifySeismicWindow in H.
  destruct seismic_data as [|[|x0 row0] rest]; [done|done|].
  set (data := (x0 :: row0) :: rest) in *.
  change (default [] (head data)) with (x0 :: row0).
  intros n m. fold n m in H.
  apply bind_Ok in H as (window & Hwin & H).
  destruct (decide (target_window = [])).
  { injection H as <-. cbn [window_indices new_AmplifyResult] in Hany.
    by rewrite any_true_grid_false in Hany. }
  destruct (any_true window) eqn:Ew; cbn [negb] in H.
  2:{ injection H as <-. cbn [window_indices new_AmplifyResult] in Hany.
    by rewrite any_true_grid_false in Hany. }
  apply bind_Ok in H as (blend & Hblend & H).
  apply bind_Ok in H as (gain & Hgain & H).
  apply bind_Ok in H as (r' & Hr' & H). injection H as <-.
  cbn [window_indices multiplier_mask output_data].
  apply (apply_gain_Ok n m) in Hr' as (Hs1 & Hs2 & _ & Hg);
    [|apply has_shape_grid..].
  exists blend, gain. repeat (split; [done|]).
  intros i j Hi Hj. destruct (Hg i j Hi Hj) as (w & x & ? & ? & ? & ?).
  exists w, x. done.
Qed.

(** On grids of the shape of the volume the final loop nest runs to its end. *)
Lemma apply_gain_total (n m : nat) (seismic_data : SeismicData)
    (blending_mask : FloatMask) (gain : float) (result : AmplifyResult) :
  has_shape n m seismic_data -> has_shape n m blending_mask ->
  has_shape n m (multiplier_mask result) ->
  has_shape n m (output_data result) ->
  exists r, apply_gain n m seismic_data blending_mask gain result = Ok r.
Proof.
  intros Hd Hb Hm0 Ho0. unfold apply_gain.
  pose (Inv := fun r : AmplifyResult =>
    has_shape n m (multiplier_mask r) /\ has_shape n m (output_data r)).
  destruct (for_each_total Inv (seq 0 n)
    (fun i => for_each (seq 0 m) (fun j result =>
       w <- at2 blending_mask i j ;;
       multiplier_mask <-
         assign2 (multiplier_mask result) i j
           (f32_add f32_one (f32_mul w (f32_sub gain f32_one))) ;;
       x <- at2 seismic_data i j ;;
       m <- at2 multiplier_mask i j ;;
       output_data <- assign2 (output_data result) i j (f32_mul x m) ;;
       Ok {| output_data := output_data;
             multiplier_mask := multiplier_mask;
             window_indices := window_indices result |})) result)
    as (r & Hr & _); [| done | by exists r].
  intros i s Hi HI. apply elem_of_seq in Hi.
  apply (for_each_total Inv); [|done].
  clear s HI. intros j s Hj [Hm1 Ho1]. apply elem_of_seq in Hj.
  destruct (at2_total n m blending_mask i j) as [w ->]; [done|lia|lia|].
  cbn [bind].
  destruct (assign2_total n m (multiplier_mask s) i j
              (f32_add f32_one (f32_mul w (f32_sub gain f32_one))))
    as [mm Hmm]; [done|lia|lia|].
  rewrite Hmm. cbn [bind].
  destruct (at2_total n m seismic_data i j) as [x ->]; [done|lia|lia|].
  cbn [bind].
  pose proof (assign2_shape n m _ _ _ _ _ Hm1 Hmm) as Hm2.
  destruct (at2_total n m mm i j) as [v ->]; [done|lia|lia|].
  cbn [bind].
  destruct (assign2_total n m (output_data s) i j (f32_mul x v))
    as [oo Hoo]; [done|lia|lia|].
  rewrite Hoo. cbn [bind].
  eexists. split; [reflexivity|]. unfold Inv.
  cbn [multiplier_mask output_data]. split; [exact Hm2|].
  eapply assign2_shape; [exact Ho1 | exact Hoo].
Qed.

(** [amplifySeismicWindow] returns on a volume whose traces have equal
    lengths once the window mask, the blend mask and the gain are there. *)
Lemma amplify_returns (seismic_data : SeismicData) (dt_ms : float)
    (target_window : list Point) (mode : ProcessingMode) (scale_factor : float)
    (width_traces : Z) (width_time_ms : float) (transition_mode : TransitionMode)
    (align_traces : Z) (align_time_ms : float)
    (window : BooleanMask) (blending_mask : FloatMask) (gain : float) :
  let n := length seismic_data in
  let m := length (default [] (head seismic_data)) in
  0 < n -> 0 < m -> has_shape n m seismic_data ->
  createWindowMask (n, m) target_window dt_ms = Ok window ->
  any_true window = true ->
  createTransitionMask (n, m) window width_traces width_time_ms dt_ms
    transition_mode = Ok blending_mask ->
  target_amplification seismic_data dt_ms window mode scale_factor
    align_traces align_time_ms = Ok gain ->
  exists r,
    amplifySeismicWindow seismic_data dt_ms target_window mode scale_factor
      width_traces width_time_ms transition_mode align_traces align_time_ms
    = Ok r
    /\ window_indices r = window.
Proof.
  unfold amplifySeismicWindow.
  destruct seismic_data as [|[|x0 row0] rest]; [simpl; lia | simpl; lia|].
  set (data := (x0 :: row0) :: rest) in *.
  change (default [] (head data)) with (x0 :: row0).
  cbv zeta. intros Hn Hm Hd Hwin Hany Hblend Hgain.
  set (n := length data) in *. set (m := length (x0 :: row0)) in *.
  rewrite Hwin. cbn [bind].
  destruct (decide (target_window = [])) as [->|Hne].
  { unfold createWindowMask in Hwin. rewrite decide_True in Hwin by done.
    injection Hwin as <-. by rewrite any_true_grid_false in Hany. }
  rewrite Hany. cbn [negb]. rewrite Hblend. cbn [bind].
  rewrite Hgain. cbn [bind].
  destruct (apply_gain_total n m data blending_mask gain
              (new_AmplifyResult n m)) as [r ->];
    [done | by eapply createTransitionMask_shape | apply has_shape_grid.. |].
  cbn [bind]. eexists. split; reflexivity.
Qed.

(** C1: when [amplifySeismicWindow] returns a result whose window mask has a
    true cell (the path that is not the no-op), there are the blend mask
    returned by [createTransitionMask] and the gain it computed such that at
    every cell [multiplier = 1 + blendWeight * (gain - 1)] and
    [output = input * multiplier], in float arithmetic, and nothing else is
    in the result. And it does return on a volume whose traces have equal
    lengths, once the window mask, the blend mask and the gain are there. *)
Theorem amplify_multiplier_identity (seismic_data : SeismicData) (dt_ms : float)
    (target_window : list Point) (mode : ProcessingMode) (scale_factor : float)
    (width_traces : Z) (width_time_ms : float) (transition_mode : TransitionMode)
    (align_traces : Z) (align_time_ms : float) :
  let n := length seismic_data in
  let m := length (default [] (head seismic_data)) in
  (forall r,
     amplifySeismicWindow seismic_data dt_ms target_window mode scale_factor
       width_traces width_time_ms transition_mode align_traces align_time_ms
     = Ok r ->
     any_true (window_indices r) = true ->
     exists blending_mask gain,
       createWindowMask (n, m) target_window dt_ms = Ok (window_indices r)
       /\ createTransitionMask (n, m) (window_indices r) width_traces
            width_time_ms dt_ms transition_mode = Ok blending_mask
       /\ target_amplification seismic_data dt_ms (window_indices r) mode
            scale_factor align_traces align_time_ms = Ok gain
       /\ has_shape n m (multiplier_mask r) /\ has_shape n m (output_data r)
       /\ forall i j, i < n -> j < m ->
            gained seismic_data blending_mask gain r i j)
  /\ (forall window blending_mask gain,
        0 < n -> 0 < m -> has_shape n m seismic_data ->
        createWindowMask (n, m) target_window dt_ms = Ok window ->
        any_true window = true ->
        createTransitionMask (n, m) window width_traces width_time_ms dt_ms
          transition_mode = Ok blending_mask ->
        target_amplification seismic_data dt_ms window mode scale_factor
          align_traces align_time_ms = Ok gain ->
        exists r,
          amplifySeismicWindow seismic_data dt_ms target_window mode
            scale_factor width_traces width_time_ms transition_mode
            align_traces align_time_ms = Ok r
          /\ window_indices r = window).
Proof.
  intros n m. split.
  - intros r. apply amplify_gained.
  - intros window blending_mask gain. apply amplify_returns.
Qed.

Lemma scenario_A :
  amplifySeismicWindow scenario_data f32_2 scenario_window SCALE f32_2
    0 f32_zero INSIDE 0 f32_zero
  = Ok scenario_result.
Proof. vm_compute. reflexivity. Qed.

(** Scenario A. *)
Lemma amplify_multiplier_identity_witness :
  exists blending_mask gain,
    createWindowMask (5, 4) scenario_window f32_2
    = Ok (window_indices scenario_result)
    /\ createTransitionMask (5, 4) (window_indices scenario_result) 0
         f32_zero f32_2 INSIDE = Ok blending_mask
    /\ target_amplification scenario_data f32_2
         (window_indices scenario_result) SCALE f32_2 0 f32_zero = Ok gain
    /\ has_shape 5 4 (multiplier_mask scenario_result)
    /\ has_shape 5 4 (output_data scenario_result)
    /\ forall i j, i < 5 -> j < 4 ->
         gained scenario_data blending_mask gain scenario_result i j.
Proof.
  apply (amplify_multiplier_identity scenario_data f32_2 scenario_window SCALE
           f32_2 0 f32_zero INSIDE 0 f32_zero).
  - vm_compute. reflexivity.
  - vm_compute. reflexivity.
Defined.

(** *** Runs without undefined behaviour *)

Lemma forward_cell_total (n m : nat) (ts tm : float) (i j : nat) (g : FloatMask) :
  has_shape n m g -> i < n -> j < m ->
  exists g', forward_cell ts tm i j g = Ok g' /\ has_shape n m g'.
Proof.
  intros Hs Hi Hj. unfold forward_cell.
  destruct (at2_total n m g i j) as [d0 ->]; [done..|]. cbn [bind].
  destruct (decide (0 < i)).
  - destruct (at2_total n m g (i - 1) j) as [d1 ->]; [done|lia|lia|].
    cbn [bind]. destruct (decide (0 < j)).
    + destruct (at2_total n m g i (j - 1)) as [d2 ->]; [done|lia|lia|].
      cbn [bind]. rewrite decide_True by done.
      destruct (at2_total n m g (i - 1) (j - 1)) as [d3 ->]; [done|lia|lia|].
      cbn [bind].
      match goal with |- context [assign2 g i j ?x] =>
        destruct (assign2_total n m g i j x) as [g' Hg']; [done..|] end.
      exists g'. split; [done|]. by eapply assign2_shape.
    + cbn [bind]. rewrite decide_False by tauto. cbn [bind].
      match goal with |- context [assign2 g i j ?x] =>
        destruct (assign2_total n m g i j x) as [g' Hg']; [done..|] end.
      exists g'. split; [done|]. by eapply assign2_shape.
  - cbn [bind]. destruct (decide (0 < j)).
    + destruct (at2_total n m g i (j - 1)) as [d2 ->]; [done|lia|lia|].
      cbn [bind]. rewrite decide_False by tauto. cbn [bind].
      match goal with |- context [assign2 g i j ?x] =>
        destruct (assign2_total n m g i j x) as [g' Hg']; [done..|] end.
      exists g'. split; [done|]. by eapply assign2_shape.
    + cbn [bind]. rewrite decide_False by tauto. cbn [bind].
      match goal with |- context [assign2 g i j ?x] =>
        destruct (assign2_total n m g i j x) as [g' Hg']; [done..|] end.
      exists g'. split; [done|]. by eapply assign2_shape.
Qed.

Lemma backward_cell_total (n m : nat) (ts tm : float) (i j : Z) (g : FloatMask) :
  has_shape n m g ->
  (Z.of_nat n <= INT_MAX)%Z -> (Z.of_nat m <= INT_MAX)%Z ->
  (0 <= i < Z.of_nat n)%Z -> (0 <= j < Z.of_nat m)%Z ->
  exists g', backward_cell n m ts tm i j g = Ok g' /\ has_shape n m g'.
Proof.
  intros Hs Hn Hm Hi Hj. unfold backward_cell.
  assert (Hb : (INT_MIN < 0 /\ 0 < INT_MAX)%Z) by (unfold INT_MIN, INT_MAX; lia).
  destruct (at2_int_total n m g i j) as [d0 ->]; [done..|]. cbn [bind].
  rewrite !static_cast_int_small by done.
  rewrite !int_sub_Ok by lia. cbn [bind].
  assert (Hfin : forall x, exists g',
            assign2_int g i j x = Ok g' /\ has_shape n m g').
  { intros x. destruct (assign2_int_total n m g i j x) as [g' Hg']; [done..|].
    exists g'. split; [done|]. by eapply assign2_int_shape. }
  destruct (Z.ltb_spec i (Z.of_nat n - 1)); destruct (Z.ltb_spec j (Z.of_nat m - 1));
    cbn [andb bind];
    repeat (rewrite int_add_Ok by lia; cbn [bind]);
    repeat match goal with
      | |- context [at2_int g ?a ?b] =>
          let d := fresh "d" in
          destruct (at2_int_total n m g a b) as [d ->]; [done|lia|lia|];
          cbn [bind]
      end;
    apply Hfin.
Qed.

(** [distanceTransformEDT] returns on a mask whose dimensions fit an [int]. *)
Lemma distanceTransformEDT_total (n m : nat) (binary_mask : BooleanMask)
    (trace_sampling time_sampling : float) :
  0 < n -> 0 < m ->
  (Z.of_nat n <= INT_MAX)%Z -> (Z.of_nat m <= INT_MAX)%Z ->
  has_shape n m binary_mask ->
  exists distance_map,
    distanceTransformEDT binary_mask [trace_sampling; time_sampling]
    = Ok distance_map
    /\ has_shape n m distance_map.
Proof.
  intros Hn Hm Hnmax Hmmax Hs. pose proof Hs as [Hlen Hrows].
  unfold distanceTransformEDT.
  destruct binary_mask as [|row0 rest] eqn:Eb; [simpl in Hlen; lia|].
  rewrite <- Eb in *.
  assert (Hr0 : length row0 = m).
  { rewrite Eb in Hrows. by apply Forall_cons in Hrows as [? _]. }
  destruct row0 as [|b0 row0']; [simpl in Hr0; lia|].
  rewrite Hlen, Hr0.
  destruct (nest_total (has_shape n m) (seq 0 n) (fun _ => seq 0 m)
    (fun i j distance_map =>
       b <- at2 binary_mask i j ;;
       if negb b then assign2 distance_map i j f32_zero else Ok distance_map)
    (grid n m f32_infinity)) as (g1 & -> & S1); [|apply has_shape_grid|].
  { intros i j g Hi Hj Hg. apply elem_of_seq in Hi, Hj.
    destruct (at2_total n m binary_mask i j) as [b ->]; [done|lia|lia|].
    cbn [bind]. destruct b; cbn [negb]; [by exists g|].
    destruct (assign2_total n m g i j f32_zero) as [g' Hg']; [done|lia|lia|].
    exists g'. split; [done|]. by eapply assign2_shape. }
  cbn [bind at_ lookup list_lookup].
  change (at_ [trace_sampling; time_sampling] 0) with (Ok trace_sampling).
  change (at_ [trace_sampling; time_sampling] 1) with (Ok time_sampling).
  cbn [bind].
  destruct (nest_total (has_shape n m) (seq 0 n) (fun _ => seq 0 m)
    (fun i j distance_map =>
       b <- at2 binary_mask i j ;;
       if b then forward_cell trace_sampling time_sampling i j distance_map
       else Ok distance_map) g1) as (g2 & -> & S2); [|done|].
  { intros i j g Hi Hj Hg. apply elem_of_seq in Hi, Hj.
    destruct (at2_total n m binary_mask i j) as [b ->]; [done|lia|lia|].
    cbn [bind]. destruct b; [|by exists g].
    apply (forward_cell_total n m); [done|lia|lia]. }
  cbn [bind]. rewrite !static_cast_int_pred by done.
  apply (nest_total (has_shape n m)); [|done].
  intros i j g Hi Hj Hg. apply int_down_elem in Hi, Hj.
  destruct (at2_int_total n m binary_mask i j) as [b ->]; [done|lia|lia|].
  cbn [bind]. destruct b; [|by exists g].
  apply (backward_cell_total n m); [done..|lia|lia].
Qed.

Lemma hard_mask_total (n m : nat) (window : BooleanMask) (g : FloatMask) :
  has_shape n m window -> has_shape n m g ->
  exists r, hard_mask n m window g = Ok r /\ has_shape n m r.
Proof.
  intros Hw Hg. unfold hard_mask. apply (nest_total (has_shape n m)); [|done].
  intros i j t Hi Hj Ht. apply elem_of_seq in Hi, Hj.
  destruct (at2_total n m window i j) as [b ->]; [done|lia|lia|]. cbn [bind].
  match goal with |- context [assign2 t i j ?x] =>
    destruct (assign2_total n m t i j x) as [g' Hg']; [done|lia|lia|] end.
  exists g'. split; [done|]. by eapply assign2_shape.
Qed.

(** The distances read by [createTransitionMask] are there. *)
Lemma distances_there (n m : nat) (mask : BooleanMask) (ts tm : float) :
  (Z.of_nat n <= INT_MAX)%Z -> (Z.of_nat m <= INT_MAX)%Z ->
  has_shape n m mask ->
  exists distances,
    distanceTransformEDT mask [ts; tm] = Ok distances
    /\ forall i j, i < n -> j < m -> exists d, at2 distances i j = Ok d.
Proof.
  intros Hnmax Hmmax Hs.
  destruct (decide (0 < n /\ 0 < m)) as [[Hn Hm]|Hz].
  - destruct (distanceTransformEDT_total n m mask ts tm) as (d & Hd & Sd);
      [done..|].
    exists d. split; [done|]. intros i j Hi Hj. by apply (at2_total n m).
  - exists []. split; [|intros i j Hi Hj; lia].
    destruct Hs as [Hlen Hrows]. unfold distanceTransformEDT.
    destruct mask as [|row0 rest]; [done|].
    apply Forall_cons in Hrows as [Hr0 _].
    destruct row0; [done|]. simpl in Hlen, Hr0. lia.
Qed.

(** [createTransitionMask] returns on a window mask of the given shape. *)
Lemma createTransitionMask_total (n m : nat) (window : BooleanMask)
    (width_traces : Z) (width_time_ms dt_ms : float) (mode : TransitionMode) :
  (Z.of_nat n <= INT_MAX)%Z -> (Z.of_nat m <= INT_MAX)%Z ->
  has_shape n m window ->
  exists mask,
    createTransitionMask (n, m) window width_traces width_time_ms dt_ms mode
    = Ok mask.
Proof.
  intros Hnmax Hmmax Hw. unfold createTransitionMask. cbn [fst snd].
  destruct (_ || _).
  { destruct (hard_mask_total n m window (grid n m f32_zero)) as (r & Hr & _);
      [done|apply has_shape_grid|]. by exists r. }
  destruct mode.
  - destruct (for_each_total (has_shape n m) (seq 0 (length window))
      (fun i inverted_mask =>
         row <- at_ inverted_mask i ;;
         for_each (seq 0 (length row)) (fun j inverted_mask =>
           b <- at2 inverted_mask i j ;;
           assign2 inverted_mask i j (negb b)) inverted_mask) window)
      as (inv & -> & Sinv); [|done|].
    { intros i g Hi Hg. apply elem_of_seq in Hi.
      destruct Hw as [Hlen _]. pose proof Hg as [Hgl Hgr].
      destruct (lookup_lt_is_Some_2 g i) as [row Hrow]; [lia|].
      unfold at_ at 1. rewrite Hrow. cbn [bind].
      rewrite Forall_lookup in Hgr. rewrite (Hgr _ _ Hrow).
      apply for_each_total; [|done].
      intros j t Hj Ht. apply elem_of_seq in Hj.
      destruct (at2_total n m t i j) as [b ->]; [done|lia|lia|]. cbn [bind].
      destruct (assign2_total n m t i j (negb b)) as [t' Ht']; [done|lia|lia|].
      exists t'. split; [done|]. by eapply assign2_shape. }
    cbn [bind].
    match goal with |- context [distanceTransformEDT inv [?a; ?b]] =>
      destruct (distances_there n m inv a b) as (dist & -> & Hd); [done..|] end.
    cbn [bind].
    destruct (nest_total (has_shape n m) (seq 0 n) (fun _ => seq 0 m)
      (fun i j mask =>
         d <- at2 dist i j ;;
         let transition_factor :=
           fl_max f32_zero (fl_min f32_one (f32_sub f32_one d)) in
         b <- at2 window i j ;;
         assign2 mask i j (if b : bool then f32_one else transition_factor))
      (grid n m f32_zero)) as (r & Hr & _); [|apply has_shape_grid|by exists r].
    intros i j g Hi Hj Hg. apply elem_of_seq in Hi, Hj.
    destruct (Hd i j) as [d ->]; [lia|lia|]. cbn [bind].
    destruct (at2_total n m window i j) as [b ->]; [done|lia|lia|]. cbn [bind].
    match goal with |- context [assign2 g i j ?x] =>
      destruct (assign2_total n m g i j x) as [g' Hg']; [done|lia|lia|] end.
    exists g'. split; [done|]. by eapply assign2_shape.
  - match goal with |- context [distanceTransformEDT window [?a; ?b]] =>
      destruct (distances_there n m window a b) as (dist & -> & Hd); [done..|] end.
    cbn [bind].
    destruct (for_each_total (fun _ : float => True) (seq 0 n)
      (fun i => for_each (seq 0 m) (fun j max_dist_inside =>
         b <- at2 window i j ;;
         if b : bool then
           d <- at2 dist i j ;;
           Ok (fl_max max_dist_inside d)
         else Ok max_dist_inside)) f32_zero) as (mx & -> & _); [|done|].
    { intros i x Hi _. apply elem_of_seq in Hi.
      apply for_each_total; [|done]. intros j y Hj _. apply elem_of_seq in Hj.
      destruct (at2_total n m window i j) as [b ->]; [done|lia|lia|].
      cbn [bind]. destruct b; [|by eexists].
      destruct (Hd i j) as [d ->]; [lia|lia|]. cbn [bind]. by eexists. }
    cbn [bind]. destruct (fl_eq mx f32_zero).
    { destruct (hard_mask_total n m window (grid n m f32_zero)) as (r & Hr & _);
        [done|apply has_shape_grid|]. by exists r. }
    destruct (nest_total (has_shape n m) (seq 0 n) (fun _ => seq 0 m)
      (fun i j mask =>
         b <- at2 window i j ;;
         if b : bool then
           d <- at2 dist i j ;;
           assign2 mask i j (f32_div d mx)
         else assign2 mask i j f32_zero)
      (grid n m f32_zero)) as (r & Hr & _); [|apply has_shape_grid|by exists r].
    intros i j g Hi Hj Hg. apply elem_of_seq in Hi, Hj.
    destruct (at2_total n m window i j) as [b ->]; [done|lia|lia|]. cbn [bind].
    destruct b.
    + destruct (Hd i j) as [d ->]; [lia|lia|]. cbn [bind].
      destruct (assign2_total n m g i j (f32_div d mx)) as [g' Hg'];
        [done|lia|lia|].
      exists g'. split; [done|]. by eapply assign2_shape.
    + destruct (assign2_total n m g i j f32_zero) as [g' Hg']; [done|lia|lia|].
      exists g'. split; [done|]. by eapply assign2_shape.
Qed.

(** In SCALE mode [amplifySeismicWindow] returns on every volume whose traces
    have equal lengths and whose dimensions fit an [int], once the window
    mask is there. *)
Lemma amplify_scale_returns (seismic_data : SeismicData) (dt_ms : float)
    (target_window : list Point) (scale_factor : float)
    (width_traces : Z) (width_time_ms : float) (transition_mode : TransitionMode)
    (align_traces : Z) (align_time_ms : float) (window : BooleanMask) :
  let n := length seismic_data in
  let m := length (default [] (head seismic_data)) in
  0 < n -> 0 < m ->
  (Z.of_nat n <= INT_MAX)%Z -> (Z.of_nat m <= INT_MAX)%Z ->
  has_shape n m seismic_data ->
  createWindowMask (n, m) target_window dt_ms = Ok window ->
  exists r,
    amplifySeismicWindow seismic_data dt_ms target_window SCALE scale_factor
      width_traces width_time_ms transition_mode align_traces align_time_ms
    = Ok r.
Proof.
  intros n m Hn Hm Hnmax Hmmax Hd Hwin.
  destruct (any_true window) eqn:Hany.
  - pose proof (createWindowMask_shape _ _ _ _ _ Hwin) as Hw.
    destruct (createTransitionMask_total n m window width_traces width_time_ms
                dt_ms transition_mode) as [blend Hblend]; [done..|].
    destruct (amplify_returns seismic_data dt_ms target_window SCALE
                scale_factor width_traces width_time_ms transition_mode
                align_traces align_time_ms window blend scale_factor)
      as (r & Hr & _); [done..|]. by exists r.
  - exists (noop_result seismic_data). apply amplify_noop.
    + intros ->. simpl in n. lia.
    + intros E. subst m. rewrite E in Hm. simpl in Hm. lia.
    + right. exists window. split; [done|]. by apply any_true_false.
Qed.

End EngineFacts.

(** ** Byte order and the values of IBM words *)

Section CodecBytes.
Import Segy.
Local Open Scope Z_scope.

Lemma testbit_mod_pow2 (a n i : Z) :
  0 <= n -> Z.testbit (a mod 2 ^ n) i = (i <? n) && Z.testbit a i.
Proof.
  intros Hn. destruct (Z.ltb_spec i n).
  - by rewrite Z.mod_pow2_bits_low.
  - by rewrite Z.mod_pow2_bits_high.
Qed.

Lemma testbit_shiftl (a n i : Z) :
  0 <= n -> Z.testbit (Z.shiftl a n) i = (n <=? i) && Z.testbit a (i - n).
Proof.
  intros Hn. destruct (Z.leb_spec n i).
  - rewrite Z.shiftl_spec; [done|lia].
  - destruct (Z_lt_dec i 0).
    + by rewrite Z.testbit_neg_r.
    + by rewrite Z.shiftl_spec_low.
Qed.

Lemma testbit_shiftr (a n i : Z) :
  0 <= n -> Z.testbit (Z.shiftr a n) i = (0 <=? i) && Z.testbit a (i + n).
Proof.
  intros Hn. destruct (Z.leb_spec 0 i).
  - rewrite Z.shiftr_spec; [done|lia].
  - by rewrite Z.testbit_neg_r.
Qed.

Lemma testbit_div_pow2 (a n i : Z) :
  0 <= n -> Z.testbit (a / 2 ^ n) i = (0 <=? i) && Z.testbit a (i + n).
Proof. intros Hn. rewrite <- Z.shiftr_div_pow2 by done. by apply testbit_shiftr. Qed.

Ltac bits :=
  repeat first
    [ rewrite Z.lor_spec | rewrite Z.land_spec
    | rewrite testbit_mod_pow2 by lia
    | rewrite testbit_shiftl by lia
    | rewrite testbit_shiftr by lia
    | rewrite testbit_div_pow2 by lia
    | rewrite Z.testbit_ones by lia ].

Ltac bit_cases :=
  repeat match goal with
  | |- context [(?a <? ?b)] =>
      first [ rewrite (proj2 (Z.ltb_lt a b)) by lia
            | rewrite (proj2 (Z.ltb_ge a b)) by lia ]
  | |- context [(?a <=? ?b)] =>
      first [ rewrite (proj2 (Z.leb_le a b)) by lia
            | rewrite (proj2 (Z.leb_gt a b)) by lia ]
  end;
  repeat first [ progress cbn [andb orb negb] | rewrite andb_false_r
               | rewrite orb_false_r | rewrite andb_true_r ];
  try reflexivity; try (f_equal; lia).

Lemma mask_hi : 0xFF00FF00 = Z.lor (Z.shiftl (Z.ones 8) 8) (Z.shiftl (Z.ones 8) 24).
Proof. reflexivity. Qed.
Lemma mask_lo : 0xFF00FF = Z.lor (Z.ones 8) (Z.shiftl (Z.ones 8) 16).
Proof. reflexivity. Qed.

Lemma swapBytes32_byte (v k : Z) :
  k = 0 \/ k = 8 \/ k = 16 \/ k = 24 ->
  (swapBytes32 v / 2 ^ k) mod 2 ^ 8 = (v / 2 ^ (24 - k)) mod 2 ^ 8.
Proof.
  intros Hk. unfold swapBytes32. rewrite mask_hi, mask_lo.
  apply Z.bits_inj'. intros i Hi.
  destruct (Z_lt_dec i 8);
    destruct Hk as [->|[->|[->| ->]]]; bits; bit_cases.
Qed.

Lemma byte_of_Z_eq (a b : Z) :
  a mod 2 ^ 8 = b mod 2 ^ 8 -> byte_of_Z a = byte_of_Z b.
Proof. unfold byte_of_Z. change (2 ^ 8) with 256. by intros ->. Qed.

(** [swapBytes32] followed by the store of the word leaves the four bytes of
    the number most significant first. *)
Lemma object32_swapBytes32 (v : Z) : object32 (swapBytes32 v) = big_endian32 v.
Proof.
  unfold object32, big_endian32.
  rewrite !Z.shiftr_div_pow2 by lia.
  pose proof (swapBytes32_byte v 0) as H0.
  pose proof (swapBytes32_byte v 8) as H1.
  pose proof (swapBytes32_byte v 16) as H2.
  pose proof (swapBytes32_byte v 24) as H3.
  specialize (H0 ltac:(lia)). specialize (H1 ltac:(lia)).
  specialize (H2 ltac:(lia)). specialize (H3 ltac:(lia)).
  rewrite Z.pow_0_r, Z.div_1_r in H0.
  change (24 - 0) with 24 in *. change (24 - 8) with 16 in *.
  change (24 - 16) with 8 in *. change (24 - 24) with 0 in *.
  rewrite Z.pow_0_r, Z.div_1_r in H3.
  f_equal; [|f_equal; [|f_equal; [|f_equal]]]; apply byte_of_Z_eq; auto.
Qed.

Lemma swapBytes32_range (v : Z) : 0 <= swapBytes32 v < 2 ^ 32.
Proof.
  assert (E : swapBytes32 v = swapBytes32 v mod 2 ^ 32).
  { unfold swapBytes32. cbv zeta. rewrite mask_hi, mask_lo.
    apply Z.bits_inj'. intros i Hi.
    destruct (Z_lt_dec i 32); destruct (Z_lt_dec i 16); bits; bit_cases. }
  rewrite E. apply Z.mod_pos_bound. lia.
Qed.

Lemma swapBytes32_involutive (v : Z) :
  0 <= v < 2 ^ 32 -> swapBytes32 (swapBytes32 v) = v.
Proof.
  intros Hv. pose proof (swapBytes32_range (swapBytes32 v)) as Hr.
  rewrite <- (Z.mod_small v (2 ^ 32)) at 2 by done.
  rewrite <- (Z.mod_small (swapBytes32 _) (2 ^ 32)) by done.
  apply Z.bits_inj'. intros i Hi. rewrite !testbit_mod_pow2 by lia.
  destruct (Z.ltb_spec i 32); [|done]. cbn [andb].
  assert (Hb : forall x j k, 0 <= j < 8 -> k = 0 \/ k = 8 \/ k = 16 \/ k = 24 ->
             Z.testbit (swapBytes32 x) (j + k) = Z.testbit x (j + (24 - k))).
  { intros x j k Hj Hk. pose proof (swapBytes32_byte x k Hk) as Hx.
    apply (f_equal (fun z => Z.testbit z j)) in Hx.
    rewrite !testbit_mod_pow2, !testbit_div_pow2 in Hx by lia.
    revert Hx. bit_cases. done. }
  destruct (Z_lt_dec i 8); [|destruct (Z_lt_dec i 16); [|destruct (Z_lt_dec i 24)]].
  - replace i with (i + 0) by lia. rewrite (Hb _ i 0), (Hb _ i 24) by lia. f_equal; lia.
  - replace i with ((i - 8) + 8) by lia. rewrite (Hb _ (i - 8) 8), (Hb _ (i - 8) 16) by lia. f_equal; lia.
  - replace i with ((i - 16) + 16) by lia. rewrite (Hb _ (i - 16) 16), (Hb _ (i - 16) 8) by lia. f_equal; lia.
  - replace i with ((i - 24) + 24) by lia. rewrite (Hb _ (i - 24) 24), (Hb _ (i - 24) 0) by lia. f_equal; lia.
Qed.

(** X1: before a [memcpy] on the little-endian host [swapBytes32] and
    [swapBytes16] put the number most significant byte first, and each swap
    undoes itself. *)
Theorem byte_swaps_big_endian :
  (forall v, object32 (swapBytes32 v) = big_endian32 v)
  /\ (forall v, 0 <= v < 2 ^ 32 -> swapBytes32 (swapBytes32 v) = v)
  /\ (forall v, 0 <= v < 2 ^ 16 ->
      object16 (swapBytes16 v) = [byte_of_Z (v / 2 ^ 8); byte_of_Z v])
  /\ (forall v, 0 <= v < 2 ^ 16 -> swapBytes16 (swapBytes16 v) = v).
Proof.
  split; [apply object32_swapBytes32|].
  split; [apply swapBytes32_involutive|].
  split; [apply object16_swap|].
  intros v Hv. rewrite (swapBytes16_arith v) by done.
  change (2 ^ 16) with 65536 in *.
  rewrite swapBytes16_arith
    by (change (2 ^ 16) with 65536; Z.div_mod_to_equations; lia).
  Z.div_mod_to_equations. lia.
Qed.

(** The IBM word of the pattern with sign [s], biased exponent [E] and
    mantissa field [mant]. *)
Lemma ieeeToIbm_bits_fields (s E mant : Z) :
  0 <= s <= 1 -> 0 <= E < 256 -> 0 <= mant < 2 ^ 23 ->
  E * 2 ^ 23 + mant <> 0 ->
  let k := (2 - E) mod 4 in
  ieeeToIbm_bits (s * 2 ^ 31 + E * 2 ^ 23 + mant)
  = s * 2 ^ 31 + ((E + k - 2) / 4 + 33) * 2 ^ 24 + (2 ^ 23 + mant) / 2 ^ k.
Proof.
  intros Hs HE Hm Hnz k. unfold ieeeToIbm_bits.
  set (ieee := s * 2 ^ 31 + E * 2 ^ 23 + mant).
  assert (Hr : 0 <= ieee < 2 ^ 32) by (subst ieee; lia).
  assert (Hnz1 : (ieee =? 0) = false) by (apply Z.eqb_neq; subst ieee; lia).
  rewrite Hnz1.
  change 0x01800000 with (Z.shiftl (Z.ones 2) 23).
  change 0x7e000000 with (Z.shiftl (Z.ones 6) 25).
  change 0x007fffff with (Z.ones 23).
  change 0x7fffffff with (Z.ones 31).
  rewrite !land_field by lia.
  rewrite <- (Z.shiftr_0_r (Z.land ieee 2147483648)).
  change 2147483648 with (Z.shiftl (Z.ones 1) 31).
  rewrite land_field by lia.
  rewrite !Z.land_ones, !Z.shiftr_div_pow2 by lia.
  change (2 ^ (23 - 23)) with 1. change (2 ^ (25 - 1)) with (2 ^ 24).
  change (2 ^ (31 - 0)) with (2 ^ 31). rewrite Z.mul_1_r.
  assert (E1 : ieee mod 2 ^ 23 = mant).
  { subst ieee. change (2 ^ 31) with (2 ^ 8 * 2 ^ 23).
    Z.div_mod_to_equations. lia. }
  assert (E2 : ieee mod 2 ^ 31 = E * 2 ^ 23 + mant).
  { subst ieee. Z.div_mod_to_equations. lia. }
  assert (E3 : (ieee / 2 ^ 31) mod 2 ^ 1 = s).
  { subst ieee. Z.div_mod_to_equations. lia. }
  assert (E4 : (ieee / 2 ^ 25) mod 2 ^ 6 = E / 4).
  { subst ieee. Z.div_mod_to_equations. lia. }
  assert (E5 : (ieee / 2 ^ 23) mod 2 ^ 2 = E mod 4).
  { subst ieee. Z.div_mod_to_equations. lia. }
  rewrite E1, E2, E3, E4, E5.
  assert (Hnz2 : (E * 2 ^ 23 + mant =? 0) = false) by (by apply Z.eqb_neq).
  rewrite Hnz2.
  assert (Hq : 0 <= E / 4 < 64) by (Z.div_mod_to_equations; lia).
  assert (Hc : E mod 4 = 0 \/ E mod 4 = 1 \/ E mod 4 = 2 \/ E mod 4 = 3)
    by (Z.div_mod_to_equations; lia).
  assert (Hk : k = (2 - E mod 4) mod 4).
  { subst k. rewrite Zminus_mod_idemp_r. done. }
  assert (HEk : (E + k - 2) / 4 = E / 4 + (if E mod 4 =? 3 then 1 else 0)).
  { destruct Hc as [Hc|[Hc|[Hc|Hc]]]; rewrite Hc in Hk |- *;
      change ((2 - _) mod 4) with 2 in Hk || change ((2 - _) mod 4) with 1 in Hk
      || change ((2 - _) mod 4) with 0 in Hk || change ((2 - _) mod 4) with 3 in Hk;
      simpl; Z.div_mod_to_equations; lia. }
  rewrite HEk. rewrite Hk. clear HEk Hk k.
  destruct Hc as [Hc|[Hc|[Hc|Hc]]]; rewrite Hc; simpl Z.to_nat; cbn [nth it mt Z.eqb];
    change ((2 - _) mod 4) with 2 || change ((2 - _) mod 4) with 1
    || change ((2 - _) mod 4) with 0 || change ((2 - _) mod 4) with 3.
  all: try change (Z.to_nat 0) with 0%nat; try change (Z.to_nat 1) with 1%nat;
       try change (Z.to_nat 2) with 2%nat; try change (Z.to_nat 3) with 3%nat;
       cbn [nth it mt Z.eqb Pos.eqb].
  all: match goal with |- context [(?t * ?m) mod 2 ^ 32] =>
         rewrite (Z.mod_small (t * m)) by lia end.
  all: match goal with |- context [(?q * 2 ^ 24 + ?t) mod 2 ^ 32] =>
         rewrite (Z.mod_small (q * 2 ^ 24 + t)) by lia end.
  all: match goal with |- context [(?a + ?b) mod 2 ^ 32] =>
         assert (0 <= a < 2 ^ 23)
           by (split; [apply Z.div_pos; lia | apply Z.div_lt_upper_bound; lia]);
         rewrite (Z.mod_small (a + b)) by lia end.
  all: rewrite lor_disjoint by lia.
  all: Z.div_mod_to_equations; lia.
Qed.

Lemma float_bits_normal (s : bool) (m : positive) (e : Z) :
  2 ^ 23 <= Zpos m < 2 ^ 24 ->
  float_bits (S754_finite s m e)
  = (if s then 1 else 0) * 2 ^ 31 + (e + 150) * 2 ^ 23 + (Zpos m - 2 ^ 23).
Proof.
  intros Hm. unfold float_bits.
  destruct (Z.ltb_spec (Z.pos m) (2 ^ 23)); [lia|]. destruct s; lia.
Qed.

Lemma ibm_fields (s c f : Z) :
  0 <= s <= 1 -> 0 <= c < 2 ^ 7 -> 0 <= f < 2 ^ 24 ->
  let w := s * 2 ^ 31 + c * 2 ^ 24 + f in
  ibm_sign w = s /\ ibm_characteristic w = c /\ ibm_fraction w = f.
Proof.
  intros Hs Hc Hf w. unfold ibm_sign, ibm_characteristic, ibm_fraction.
  subst w. repeat split; Z.div_mod_to_equations; lia.
Qed.

(** X2: a normal [float] [m * 2^e] (with [2^23 <= m < 2^24]) is encoded with its
    own sign, and with a fraction and a characteristic whose value
    [fraction * 2^-24 * 16^(characteristic - 64)] is [(m / 2^k) * 2^(e + k)]
    for [k = (-e) mod 4]: the magnitude with its [k <= 3] low mantissa bits
    cut off, and the magnitude itself when those bits are zero. *)
Theorem ieeeToIbm_normal (s : bool) (m : positive) (e : Z) :
  2 ^ 23 <= Zpos m < 2 ^ 24 -> -149 <= e <= 104 ->
  let w := ieeeToIbm (S754_finite s m e) in
  let k := (- e) mod 4 in
  ibm_sign w = (if s then 1 else 0)
  /\ ibm_fraction w = Zpos m / 2 ^ k
  /\ 4 * (ibm_characteristic w - 64) - 24 = e + k.
Proof.
  intros Hm He w k. subst w. unfold ieeeToIbm.
  rewrite float_bits_normal by done.
  rewrite ieeeToIbm_bits_fields by (destruct s; lia).
  assert (Hk : (2 - (e + 150)) mod 4 = k).
  { subst k. replace (2 - (e + 150)) with (- e + (-37) * 4) by lia.
    apply Z.mod_add. lia. }
  rewrite Hk.
  assert (Hk3 : 0 <= k < 4) by (subst k; apply Z.mod_pos_bound; lia).
  assert (Hdiv : (e + k) mod 4 = 0).
  { subst k. rewrite Zplus_mod_idemp_r. replace (e + - e) with 0 by lia. done. }
  replace (2 ^ 23 + (Z.pos m - 2 ^ 23)) with (Z.pos m) by lia.
  assert (Hf : 0 <= Z.pos m / 2 ^ k < 2 ^ 24).
  { split; [apply Z.div_pos; lia|]. apply Z.div_lt_upper_bound; [lia|].
    assert (1 <= 2 ^ k) by (apply (Z.pow_le_mono_r 2 0 k); lia). nia. }
  assert (Hc : 0 <= (e + 150 + k - 2) / 4 + 33 < 2 ^ 7)
    by (Z.div_mod_to_equations; lia).
  destruct (ibm_fields (if s then 1 else 0) ((e + 150 + k - 2) / 4 + 33)
              (Z.pos m / 2 ^ k)) as (-> & -> & ->);
    [destruct s; lia | done | done |].
  split; [done|]. split; [done|].
  revert Hdiv. clear. intros. Z.div_mod_to_equations. lia.
Qed.

(** 1.0f: fraction 2^20 at characteristic 65, that is 1/16 * 16. *)
Lemma ieeeToIbm_normal_witness :
  ibm_sign (ieeeToIbm f32_one) = 0
  /\ ibm_fraction (ieeeToIbm f32_one) = 2 ^ 23 / 2 ^ 3
  /\ 4 * (ibm_characteristic (ieeeToIbm f32_one) - 64) - 24 = -23 + 3.
Proof.
  apply (ieeeToIbm_normal false 8388608 (-23)); lia.
Defined.

(** X3: a subnormal [float] [m * 2^-149] (with [m < 2^23]) is encoded as if its
    exponent field stood for a normal number: with characteristic 33 and
    fraction [2^21 + m / 4], a value of at least [2^-127]; an infinity is
    encoded as the finite IBM number [16^32]. *)
Theorem ieeeToIbm_not_normal (s : bool) (m : positive) :
  Zpos m < 2 ^ 23 ->
  let w := ieeeToIbm (S754_finite s m (-149)) in
  ibm_sign w = (if s then 1 else 0)
  /\ ibm_characteristic w = 33
  /\ ibm_fraction w = 2 ^ 21 + Zpos m / 4
  /\ ieeeToIbm (S754_infinity s) = (if s then 1 else 0) * 2 ^ 31 + 0x61100000.
Proof.
  intros Hm w. subst w. unfold ieeeToIbm.
  assert (Hb : float_bits (S754_finite s m (-149))
               = (if s then 1 else 0) * 2 ^ 31 + 0 * 2 ^ 23 + Z.pos m).
  { unfold float_bits. destruct (Z.ltb_spec (Z.pos m) (2 ^ 23)); [|lia].
    destruct s; lia. }
  rewrite Hb, ieeeToIbm_bits_fields by (destruct s; lia).
  change ((2 - 0) mod 4) with 2. change ((0 + 2 - 2) / 4 + 33) with 33.
  assert (Hf : 0 <= (2 ^ 23 + Z.pos m) / 2 ^ 2 < 2 ^ 24)
    by (Z.div_mod_to_equations; lia).
  destruct (ibm_fields (if s then 1 else 0) 33 ((2 ^ 23 + Z.pos m) / 2 ^ 2))
    as (-> & -> & ->); [destruct s; lia | lia | done |].
  split; [done|]. split; [done|]. split.
  - Z.div_mod_to_equations. lia.
  - by destruct s.
Qed.

(** The smallest subnormal, 2^-149. *)
Lemma ieeeToIbm_not_normal_witness :
  ibm_sign (ieeeToIbm (S754_finite false 1 (-149))) = 0
  /\ ibm_characteristic (ieeeToIbm (S754_finite false 1 (-149))) = 33
  /\ ibm_fraction (ieeeToIbm (S754_finite false 1 (-149))) = 2 ^ 21 + 1 / 4
  /\ ieeeToIbm (S754_infinity false) = 0 * 2 ^ 31 + 0x61100000.
Proof.
  apply (ieeeToIbm_not_normal false 1). reflexivity.
Defined.
End CodecBytes.

(** ** The reference file *)

Section WriterReference.
Import Segy.

Lemma Z_of_byte_range b : (0 <= Z_of_byte b < 256)%Z.
Proof.
  unfold Z_of_byte. pose proof (Byte.to_N_bounded b). lia.
Qed.

Lemma load_declared_samples (f : bytes) :
  3600 <= length f ->
  (raw <- load16 (take 400 (drop 3200 f)) 20 ;; Ok (swapBytes16 raw))
  = Ok (Z.of_nat (declared_samples f)).
Proof.
  intros Hf. unfold load16, declared_samples, at_. cbv zeta.
  assert (Hh : 400 <= length (drop 3200 f)) by (rewrite length_drop; lia).
  set (h := drop 3200 f) in *. clearbody h.
  rewrite !lookup_take_lt by lia. change (20 + 1) with 21.
  destruct (h !! 20) as [b0|] eqn:E0.
  2:{ apply lookup_ge_None in E0. lia. }
  destruct (h !! 21) as [b1|] eqn:E1.
  2:{ apply lookup_ge_None in E1. lia. }
  simpl. pose proof (Z_of_byte_range b0). pose proof (Z_of_byte_range b1).
  rewrite swapBytes16_arith by (change (2 ^ 16)%Z with 65536%Z; lia).
  f_equal. rewrite Z2Nat.id by lia. Z.div_mod_to_equations. lia.
Qed.

Lemma collect_headers (f : bytes) (record n : nat) :
  3600 + n * record <= length f -> 240 <= record ->
  forall s acc, s + n = n + s ->
  for_each (seq s (n - s))
    (fun i hs =>
       let h := take trace_header_size (drop (3600 + i * record) f) in
       if negb (length h =? trace_header_size) then
         Throw ("Failed to read trace header " ++ to_string i
                ++ " from reference file")
       else Ok (hs ++ [h])) acc
  = Ok (acc ++ ((fun i => take 240 (drop (3600 + i * record) f))
                  <$> seq s (n - s))).
Proof.
  intros Hf Hr s. remember (n - s) as k eqn:Ek. revert s Ek.
  induction k as [|k IH]; intros s Ek acc _; simpl.
  - by rewrite app_nil_r.
  - unfold trace_header_size at 1 2.
    rewrite length_take, length_drop.
    assert (3600 + s * record + 240 <= length f) by nia.
    rewrite Nat.min_l by lia. rewrite Nat.eqb_refl. cbn [negb bind].
    rewrite IH by lia. by rewrite <- app_assoc.
Qed.

Lemma length_take_eqb {A} (l : list A) (n : nat) :
  (length (take n l) =? n) = negb (length l <? n).
Proof.
  rewrite length_take. destruct (Nat.ltb_spec (length l) n).
  - apply Nat.eqb_neq. lia.
  - apply Nat.eqb_eq. lia.
Qed.

(** The constructor, case by case. *)
Lemma new_SegyWriter_cases (target reference : string) (d : disk) :
  new_SegyWriter target reference d =
  match files d !! reference with
  | None => Throw ("Cannot open reference SEGY file: " ++ reference)
  | Some f =>
      if length f <? 3200 then
        Throw "Failed to read text header from reference file"
      else if length f <? 3600 then
        Throw "Failed to read binary header from reference file"
      else if declared_samples f =? 0 then
        Throw "Number of samples per trace is zero in reference file"
      else
        Ok {| target_path_ := target;
              reference_path_ := reference;
              text_header_ := take 3200 f;
              binary_header_ := take 400 (drop 3200 f);
              reference_trace_headers_ := trace_headers_of f |}
  end.
Proof.
  unfold new_SegyWriter, readReferenceFile.
  destruct (files d !! reference) as [f|]; [|done].
  rewrite !length_take_eqb, !negb_involutive, length_drop.
  destruct (length f <? 3200) eqn:H1; [done|]. apply Nat.ltb_ge in H1.
  assert (E : (length f - 3200 <? 400) = (length f <? 3600)).
  { destruct (Nat.ltb_spec (length f) 3600).
    - apply Nat.ltb_lt. lia.
    - apply Nat.ltb_ge. lia. }
  rewrite E. clear E.
  destruct (length f <? 3600) eqn:H2; [done|]. apply Nat.ltb_ge in H2.
  pose proof (load_declared_samples f H2) as Hn.
  apply bind_Ok in Hn as (raw & Hraw & [= Hn]).
  rewrite Hraw. cbn [bind]. cbv zeta. rewrite !Hn.
  assert (E : (Z.of_nat (declared_samples f) =? 0)%Z = (declared_samples f =? 0)).
  { destruct (Nat.eqb_spec (declared_samples f) 0) as [->|]; [done|].
    apply Z.eqb_neq. lia. }
  rewrite E. clear E.
  destruct (declared_samples f =? 0) eqn:H3; [done|].
  rewrite Nat2Z.id.
  set (record := trace_header_size + declared_samples f * 4).
  set (n := (length f - 3600) / record).
  pose proof (collect_headers f record n) as Hc.
  assert (Hrec : 240 <= record) by (subst record; unfold trace_header_size; lia).
  assert (Hfit : 3600 + n * record <= length f).
  { subst n. pose proof (Nat.Div0.mul_div_le (length f - 3600) record). lia. }
  specialize (Hc Hfit Hrec 0 [] ltac:(lia)).
  rewrite Nat.sub_0_r in Hc. cbv zeta in Hc. rewrite Hc.
  cbn [bind app fst snd].
  unfold trace_headers_of.
  replace (240 + 4 * declared_samples f) with record
    by (subst record; unfold trace_header_size; lia).
  done.
Qed.

Lemma trace_headers_of_lookup (f : bytes) (i : nat) :
  let record := 240 + 4 * declared_samples f in
  i < (length f - 3600) / record ->
  trace_headers_of f !! i = Some (take 240 (drop (3600 + i * record) f))
  /\ length (take 240 (drop (3600 + i * record) f)) = 240.
Proof.
  intros record Hi. unfold trace_headers_of. fold record.
  rewrite list_lookup_fmap, lookup_seq_lt by done. split; [done|].
  rewrite length_take, length_drop.
  pose proof (Nat.Div0.mul_div_le (length f - 3600) record).
  assert (3600 <= length f).
  { destruct (decide (3600 <= length f)); [done|].
    replace (length f - 3600) with 0 in Hi by lia.
    rewrite Nat.Div0.div_0_l in Hi. lia. }
  nia.
Qed.

(** X4: every file of at least 3600 bytes that declares a non-zero sample count
    is accepted as a reference: the constructor keeps its first 3200 bytes
    as the text header, the next 400 as the binary header, and the first 240
    bytes of each whole trace record as that trace's header; what follows
    the last whole record is ignored. *)
Theorem new_SegyWriter_accepts (target reference : string) (d : disk)
    (f : bytes) :
  files d !! reference = Some f -> 3600 <= length f ->
  declared_samples f <> 0 ->
  let record := 240 + 4 * declared_samples f in
  exists w,
    new_SegyWriter target reference d = Ok w
    /\ target_path_ w = target
    /\ text_header_ w = take 3200 f
    /\ binary_header_ w = take 400 (drop 3200 f)
    /\ length (reference_trace_headers_ w) = (length f - 3600) / record
    /\ forall i, i < (length f - 3600) / record ->
         reference_trace_headers_ w !! i
         = Some (take 240 (drop (3600 + i * record) f))
         /\ length (take 240 (drop (3600 + i * record) f)) = 240.
Proof.
  intros Hf Hlen Hn record. rewrite new_SegyWriter_cases, Hf.
  assert ((length f <? 3200) = false) as -> by (apply Nat.ltb_ge; lia).
  assert ((length f <? 3600) = false) as -> by (apply Nat.ltb_ge; lia).
  assert ((declared_samples f =? 0) = false) as -> by (by apply Nat.eqb_neq).
  eexists. split; [done|]. cbn [target_path_ text_header_ binary_header_
                              reference_trace_headers_].
  do 3 (split; [done|]). split.
  - unfold trace_headers_of. by rewrite length_fmap, length_seq.
  - intros i Hi. by apply trace_headers_of_lookup.
Qed.

Lemma new_SegyWriter_accepts_witness :
  let record := 240 + 4 * declared_samples ref_file in
  exists w,
    new_SegyWriter "out.sgy" "ref.sgy" disk0 = Ok w
    /\ target_path_ w = "out.sgy"%string
    /\ text_header_ w = take 3200 ref_file
    /\ binary_header_ w = take 400 (drop 3200 ref_file)
    /\ length (reference_trace_headers_ w) = (length ref_file - 3600) / record
    /\ forall i, i < (length ref_file - 3600) / record ->
         reference_trace_headers_ w !! i
         = Some (take 240 (drop (3600 + i * record) ref_file))
         /\ length (take 240 (drop (3600 + i * record) ref_file)) = 240.
Proof.
  apply (new_SegyWriter_accepts "out.sgy" "ref.sgy" disk0 ref_file).
  - reflexivity.
  - apply Nat.leb_le. vm_compute. reflexivity.
  - vm_compute. discriminate.
Defined.

(** X5: the constructor throws for exactly four reasons, tested in this order: no
    file at the reference path; fewer than 3200 bytes; fewer than 3600 bytes;
    a declared sample count of zero. It never fails on a trace header, and
    it has no undefined behaviour. *)
Theorem new_SegyWriter_errors (target reference : string) (d : disk) :
  let r := new_SegyWriter target reference d in
  (files d !! reference = None ->
   r = Throw ("Cannot open reference SEGY file: " ++ reference))
  /\ (forall f, files d !! reference = Some f ->
      (length f < 3200 ->
       r = Throw "Failed to read text header from reference file")
      /\ (3200 <= length f < 3600 ->
          r = Throw "Failed to read binary header from reference file")
      /\ (3600 <= length f -> declared_samples f = 0 ->
          r = Throw "Number of samples per trace is zero in reference file")
      /\ (3600 <= length f -> declared_samples f <> 0 -> exists w, r = Ok w))
  /\ r <> Undefined.
Proof.
  cbv zeta. rewrite new_SegyWriter_cases.
  split; [by intros ->|]. split.
  - intros f ->. split; [|split; [|split]].
    + intros H. by rewrite (proj2 (Nat.ltb_lt _ _) H).
    + intros [H1 H2]. rewrite (proj2 (Nat.ltb_ge _ _) H1).
      by rewrite (proj2 (Nat.ltb_lt _ _) H2).
    + intros H1 H2.
      assert ((length f <? 3200) = false) as -> by (apply Nat.ltb_ge; lia).
      rewrite (proj2 (Nat.ltb_ge _ _) H1). by rewrite H2.
    + intros H1 H2.
      assert ((length f <? 3200) = false) as -> by (apply Nat.ltb_ge; lia).
      rewrite (proj2 (Nat.ltb_ge _ _) H1).
      rewrite (proj2 (Nat.eqb_neq _ _) H2). eauto.
  - destruct (files d !! reference) as [f|]; [|done].
    destruct (length f <? 3200); [done|].
    destruct (length f <? 3600); [done|].
    by destruct (declared_samples f =? 0).
Qed.
End WriterReference.

(** ** The file that [writeFile] leaves *)

Section WriterRuns.
Import Segy.

(** *** The stream *)

Lemma take_within {A} (n : nat) (a b : list A) :
  n <= length a -> take n (a ++ b) = take n a.
Proof. intros H. by rewrite take_app_le. Qed.

Lemma take_past {A} (n : nat) (a b : list A) :
  length a <= n -> take n (a ++ b) = a ++ take (n - length a) b.
Proof. intros H. by rewrite take_app_ge. Qed.

Lemma transfer_streaming path d0 on_file held q :
  length on_file <= room_for path d0 ->
  transfer path q (streaming path d0 on_file held)
  = if decide (length on_file + length q <= room_for path d0)
    then (true, streaming path d0 (on_file ++ q) held)
    else (false,
          streaming path d0 (take (room_for path d0) (on_file ++ q)) held).
Proof.
  intros HF. unfold transfer, streaming. cbn [files free_space read_only
    buffering pending]. rewrite lookup_insert_eq. cbn [from_option id].
  destruct (decide (length q <= room_for path d0 - length on_file));
    destruct (decide (length on_file + length q <= room_for path d0));
    try lia; rewrite insert_insert_eq.
  - do 2 f_equal. rewrite length_app. lia.
  - rewrite take_past by done. do 2 f_equal.
    rewrite length_app, !length_take. lia.
Qed.

Lemma write_streaming path d0 on_file held p :
  length on_file <= room_for path d0 ->
  (exists on_file' held',
     ofstream_write path p (streaming path d0 on_file held)
     = (Ok true, streaming path d0 on_file' held')
     /\ length on_file' <= room_for path d0
     /\ on_file' ++ held' = on_file ++ held ++ p)
  \/ (exists held',
        ofstream_write path p (streaming path d0 on_file held)
        = (Ok false,
           streaming path d0
             (take (room_for path d0) (on_file ++ held ++ p)) held')
        /\ room_for path d0 < length (on_file ++ held ++ p)).
Proof.
  intros HF. unfold ofstream_write. cbv zeta.
  change (pending (streaming path d0 on_file held)) with held.
  change (buffering (streaming path d0 on_file held)) with (buffering d0).
  set (through := buffering d0 (length held) (length p)).
  rewrite transfer_streaming by done.
  pose proof (take_drop through (held ++ p)) as Htd.
  assert (Hle : length (take through (held ++ p)) <= length (held ++ p))
    by (rewrite length_take; lia).
  destruct (decide _) as [Hfit|Hfit].
  - left. eexists _, _. split; [reflexivity|]. split.
    + rewrite length_app. lia.
    + by rewrite <- app_assoc, Htd.
  - right. eexists.
    assert (take (room_for path d0) (on_file ++ take through (held ++ p))
            = take (room_for path d0) (on_file ++ held ++ p)) as ->.
    { rewrite <- Htd at 2. rewrite (app_assoc on_file).
      rewrite (take_within _ (on_file ++ take through (held ++ p)));
        [done|]. rewrite length_app. lia. }
    split; [reflexivity|]. rewrite length_app. lia.
Qed.

Lemma close_streaming path d0 on_file held :
  length on_file <= room_for path d0 ->
  ofstream_close path (streaming path d0 on_file held)
  = (Ok tt,
     streaming path d0 (take (room_for path d0) (on_file ++ held)) []).
Proof.
  intros HF. unfold ofstream_close. cbv zeta.
  change (pending (streaming path d0 on_file held)) with held.
  rewrite transfer_streaming by done.
  destruct (decide _) as [Hfit|Hfit]; cbn [snd]; [|done].
  rewrite firstn_all2 by (rewrite length_app; lia). done.
Qed.

Lemma sends_ret path : sends path (io_ret tt) [].
Proof.
  intros d0 F P HF. left. exists F, P. split; [done|]. split; [done|].
  by rewrite app_nil_r.
Qed.

Lemma sends_bind path (c1 c2 : io unit) p q :
  sends path c1 p -> sends path c2 q ->
  sends path (io_bind c1 (fun _ => c2)) (p ++ q).
Proof.
  intros H1 H2 d0 F P HF. cbv zeta. unfold io_bind.
  destruct (H1 d0 F P HF) as [(F1 & P1 & -> & HF1 & E1)|(what & P1 & -> & Hr)].
  - destruct (H2 d0 F1 P1 HF1) as [(F2 & P2 & -> & HF2 & E2)|(what & P2 & -> & Hr)].
    + left. exists F2, P2. split; [done|]. split; [done|].
      by rewrite E2, app_assoc, E1, <- !app_assoc.
    + right. exists what, P2.
      rewrite app_assoc, E1, <- !app_assoc in Hr |- *. done.
  - right. exists what, P1.
    replace (F ++ P ++ p ++ q) with ((F ++ P ++ p) ++ q)
      by (by rewrite <- !app_assoc).
    rewrite (take_within _ (F ++ P ++ p) q) by lia. split; [done|].
    rewrite length_app. lia.
Qed.

Lemma sends_for_each {X} path (l : list X) (body : X -> io unit)
    (img : X -> bytes) :
  (forall i, i ∈ l -> sends path (body i) (img i)) ->
  sends path (io_for_each l body) (concat (img <$> l)).
Proof.
  induction l as [|i l IH]; intros Hb; simpl.
  - apply sends_ret.
  - apply sends_bind; [apply Hb; constructor|].
    apply IH. intros j Hj. apply Hb. by constructor.
Qed.

Lemma sends_write path p (what : string) (k : bool -> io unit) :
  k true = io_ret tt -> k false = io_throw ("Failed to write " ++ what) ->
  sends path (io_bind (ofstream_write path p) k) p.
Proof.
  intros Ht Hf d0 F P HF. cbv zeta. unfold io_bind.
  destruct (write_streaming path d0 F P p HF)
    as [(F1 & P1 & -> & HF1 & E1)|(P1 & -> & Hr)].
  - rewrite Ht. left. by exists F1, P1.
  - rewrite Hf. right. by exists what, P1.
Qed.

Lemma sends_lift {A} path (a : A) (k : A -> io unit) p :
  sends path (k a) p -> sends path (io_bind (io_lift (Ok a)) k) p.
Proof. done. Qed.

Lemma sends_ext path (c c' : io unit) p :
  (forall d, c d = c' d) -> sends path c p -> sends path c' p.
Proof. intros E H d0 F P HF. cbv zeta. rewrite <- !E. by apply H. Qed.

(** *** What the writer sends *)

Lemma fmap_seq_lookup {A B} (l : list A) (f : option A -> B) :
  (fun i => f (l !! i)) <$> seq 0 (length l) = (fun x => f (Some x)) <$> l.
Proof.
  apply list_eq. intros i. rewrite !list_lookup_fmap.
  destruct (l !! i) as [x|] eqn:E; simpl.
  - rewrite lookup_seq_lt by (by eapply lookup_lt_Some). simpl. by rewrite E.
  - rewrite lookup_seq_ge by (by apply lookup_ge_None). done.
Qed.

Lemma writeTraces_row path (row : list float) (i : nat) :
  sends path
    (io_for_each (seq 0 (length row)) (fun j =>
       io_bind (io_lift (at_ row j)) (fun x =>
       let ibm := ieeeToIbm x in
       let ibm := swapBytes32 ibm in
       io_bind (ofstream_write path (object32 ibm)) (fun good =>
       if negb good then
         io_throw ("Failed to write sample " ++ to_string j
                   ++ " from trace " ++ to_string i)
       else io_ret tt))))
    (concat ((fun x => big_endian32 (ieeeToIbm x)) <$> row)).
Proof.
  pose proof (fmap_seq_lookup row
    (from_option (fun x => big_endian32 (ieeeToIbm x)) [])) as E.
  simpl in E. rewrite <- E. clear E.
  apply sends_for_each. intros j Hj. apply elem_of_seq in Hj.
  destruct (row !! j) as [x|] eqn:E.
  2:{ apply lookup_ge_None in E. lia. }
  unfold at_. rewrite E. apply sends_lift. cbv zeta. simpl from_option.
  rewrite <- object32_swapBytes32.
  eapply (sends_write _ _ _ (fun good : bool => if negb good then _ else _));
    reflexivity.
Qed.

Lemma writeTraces_sends (w : SegyWriter) (data : list (list float))
    (hs : list bytes) :
  length hs = length data ->
  sends (target_path_ w) (writeTraces w data hs) (traces_image hs data).
Proof.
  intros Hlen. unfold writeTraces, traces_image.
  assert (E : zip_with trace_image hs data
    = (fun i => trace_image (default [] (hs !! i)) (default [] (data !! i)))
      <$> seq 0 (length data)).
  { apply list_eq. intros i. rewrite list_lookup_fmap, lookup_zip_with.
    destruct (data !! i) as [row|] eqn:E.
    - rewrite lookup_seq_lt by (by eapply lookup_lt_Some).
      destruct (hs !! i) as [h|] eqn:Eh; [simpl; by rewrite E, Eh|].
      apply lookup_ge_None in Eh. apply lookup_lt_Some in E. lia.
    - rewrite lookup_seq_ge by (by apply lookup_ge_None).
      by destruct (hs !! i). }
  rewrite E. apply sends_for_each. intros i Hi. apply elem_of_seq in Hi.
  destruct (hs !! i) as [h|] eqn:Eh.
  2:{ apply lookup_ge_None in Eh. lia. }
  destruct (data !! i) as [row|] eqn:Er.
  2:{ apply lookup_ge_None in Er. lia. }
  unfold at_ at 1. rewrite Eh. apply sends_lift. simpl default.
  unfold trace_image.
  eapply sends_ext; [|apply sends_bind;
    [apply (sends_write _ h ("trace header " ++ to_string i)
              (fun good : bool =>
                 if negb good
                 then io_throw ("Failed to write trace header " ++ to_string i)
                 else io_ret tt)); reflexivity
    | apply (writeTraces_row (target_path_ w) row i)]].
  intros d. unfold io_bind, io_lift, at_. rewrite Er.
  by destruct (ofstream_write (target_path_ w) h d) as [[[]| |] d1].
Qed.

Lemma writeTextHeader_sends (w : SegyWriter) :
  sends (target_path_ w) (writeTextHeader w) (text_header_ w).
Proof.
  unfold writeTextHeader.
  apply (sends_write _ _ "text header"); reflexivity.
Qed.

Lemma memcpy_pair (p : bytes) (off : nat) (a b : byte) :
  S off < length p ->
  memcpy p off [a; b] = Ok (<[S off := b]> (<[off := a]> p)).
Proof.
  intros H. simpl. unfold assign.
  rewrite decide_True by lia. simpl.
  rewrite decide_True by (rewrite length_insert; lia). done.
Qed.

Lemma patch_header (header : bytes) (us : Z) (n : nat) :
  22 <= length header -> (0 <= us < 2 ^ 16)%Z ->
  (header_copy <- memcpy header 16 (object16 (swapBytes16 us)) ;;
   memcpy header_copy 20
     (object16 (swapBytes16 (Z.of_nat n mod 2 ^ 16)%Z)))
  = Ok (binary_header_image header us n).
Proof.
  intros Hlen Hus.
  rewrite !object16_swap by (done || (apply Z.mod_pos_bound; lia)).
  rewrite memcpy_pair by lia. cbn [bind].
  rewrite memcpy_pair by (rewrite !length_insert; lia). done.
Qed.

Lemma writeBinaryHeader_sends (w : SegyWriter) (dt : double) (n : nat) us :
  float_to_uint16 (f64_mul dt (f64_of_int 1000000)) = Ok us ->
  22 <= length (binary_header_ w) ->
  sends (target_path_ w) (writeBinaryHeader w dt n)
    (binary_header_image (binary_header_ w) us n).
Proof.
  intros Hus Hlen. unfold writeBinaryHeader. rewrite Hus.
  apply sends_lift.
  pose proof (patch_header (binary_header_ w) us n Hlen
                (float_to_uint16_range _ _ Hus)) as Hp.
  apply bind_Ok in Hp as (h1 & -> & Hp). apply sends_lift. rewrite Hp.
  apply sends_lift.
  apply (sends_write _ _ "binary header"); reflexivity.
Qed.

Lemma writeBinaryHeader_undefined (w : SegyWriter) (dt : double) (n : nat) d :
  (forall us, float_to_uint16 (f64_mul dt (f64_of_int 1000000)) <> Ok us)
  \/ length (binary_header_ w) < 22 ->
  (writeBinaryHeader w dt n d).1 = Undefined.
Proof.
  intros H. unfold writeBinaryHeader, io_bind, io_lift.
  destruct (float_to_uint16 _) as [us| |] eqn:Eus; [| |done].
  2:{ by apply float_to_uint16_no_throw in Eus. }
  destruct H as [H|H]; [by destruct (H us)|].
  rewrite !object16_swap
    by (by eapply float_to_uint16_range || (apply Z.mod_pos_bound; lia)).
  destruct (memcpy (binary_header_ w) 16 _) as [h1| |] eqn:E1; [| |done].
  2:{ by apply memcpy_no_throw in E1. }
  destruct (memcpy h1 20 _) as [h2| |] eqn:E2; [| |done].
  2:{ by apply memcpy_no_throw in E2. }
  apply memcpy_Ok in E1 as (L1 & _). simpl in E2.
  unfold assign in E2. rewrite decide_True in E2.
  2:{ destruct (decide (20 < length h1)); [done|]. done. }
  all: revert E2; unfold bind, assign;
    repeat (destruct (decide _); try done); rewrite ?length_insert in *; lia.
Qed.

(** The inputs that pass the checks of [writeFile]. *)
Lemma writeFile_checked w data dt hs d :
  data <> [] -> uniform data = true -> length hs = length data ->
  well_sized hs = true ->
  writeFile w data dt hs d
  = emit w data dt hs (length (default [] (head data))) d.
Proof.
  intros Hne Hu Hl Hw. rewrite writeFile_cases by done.
  rewrite Hu, Hw, Hl, Nat.eqb_refl. done.
Qed.

Lemma body_sends w data dt hs us :
  length hs = length data ->
  float_to_uint16 (f64_mul dt (f64_of_int 1000000)) = Ok us ->
  22 <= length (binary_header_ w) ->
  sends (target_path_ w)
    (io_bind (writeTextHeader w) (fun _ =>
     io_bind (writeBinaryHeader w dt (length (default [] (head data)))) (fun _ =>
     writeTraces w data hs)))
    (file_image w us hs data).
Proof.
  intros Hl Hus Hlen. unfold file_image.
  apply sends_bind; [apply writeTextHeader_sends|].
  apply sends_bind; [by apply writeBinaryHeader_sends|].
  by apply writeTraces_sends.
Qed.

Lemma open_streaming path d :
  read_only d = false ->
  ofstream_open path d = (Ok true, streaming path d [] []).
Proof.
  intros Hro. unfold ofstream_open, streaming, room_for, content.
  rewrite Hro. simpl length. by rewrite Nat.sub_0_r.
Qed.

(** The run of [emit] on a medium that can be written: whatever the
    buffering, the target ends up with the file image as far as there was
    room; the run returns when there was room for all of it, and when not it
    returns all the same or throws a "Failed to write" error. *)
Lemma emit_streams w data dt hs us d :
  length hs = length data ->
  float_to_uint16 (f64_mul dt (f64_of_int 1000000)) = Ok us ->
  22 <= length (binary_header_ w) ->
  read_only d = false ->
  let path := target_path_ w in
  let image := file_image w us hs data in
  let r := emit w data dt hs (length (default [] (head data))) d in
  r.2 = streaming path d (take (room_for path d) image) []
  /\ (r.1 = Ok tt
      \/ (room_for path d < length image
          /\ exists what, r.1 = Throw ("Failed to write " ++ what))).
Proof.
  intros Hl Hus Hlen Hro. cbv zeta.
  assert (emit w data dt hs (length (default [] (head data))) d
          = with_ofstream (target_path_ w)
              (io_bind (writeTextHeader w) (fun _ =>
               io_bind (writeBinaryHeader w dt
                          (length (default [] (head data)))) (fun _ =>
               writeTraces w data hs)))
              (streaming (target_path_ w) d [] [])) as ->.
  { unfold emit. unfold io_bind at 1. by rewrite open_streaming. }
  unfold with_ofstream.
  destruct (body_sends w data dt hs us Hl Hus Hlen d [] [])
    as [(F & P & -> & HF & E)|(what & P & -> & Hr)]; [simpl; lia|..].
  - rewrite close_streaming by done. cbn [fst snd].
    split; [|by left]. rewrite E. done.
  - cbn [app] in Hr |- *.
    rewrite close_streaming by (rewrite length_take; lia). cbn [fst snd].
    split; [|right; eauto].
    rewrite take_within by (rewrite length_take; lia).
    by rewrite take_take, Nat.min_id.
Qed.

Lemma emit_created w data dt hs n d :
  read_only d = false ->
  emit w data dt hs n d
  = with_ofstream (target_path_ w)
      (io_bind (writeTextHeader w) (fun _ =>
       io_bind (writeBinaryHeader w dt n) (fun _ => writeTraces w data hs)))
      (streaming (target_path_ w) d [] []).
Proof.
  intros Hro. unfold emit. unfold io_bind at 1. by rewrite open_streaming.
Qed.

(** What a normal return of [writeFile] tells. *)
Lemma writeFile_Ok_inv w data dt hs d d' :
  writeFile w data dt hs d = (Ok tt, d') ->
  data <> [] /\ uniform data = true /\ length hs = length data
  /\ well_sized hs = true /\ read_only d = false
  /\ exists us,
       float_to_uint16 (f64_mul dt (f64_of_int 1000000)) = Ok us
       /\ 22 <= length (binary_header_ w)
       /\ d' = streaming (target_path_ w) d
                 (take (room_for (target_path_ w) d)
                       (file_image w us hs data)) [].
Proof.
  intros Hrun.
  assert (Hne : data <> []) by (intros ->; discriminate Hrun).
  rewrite (writeFile_cases w data dt hs d Hne) in Hrun.
  destruct (uniform data) eqn:Hu; [|done]. cbn [negb] in Hrun.
  destruct (length hs =? length data) eqn:Hl; [|done]. cbn [negb] in Hrun.
  apply Nat.eqb_eq in Hl.
  destruct (well_sized hs) eqn:Hw; [|done]. cbn [negb] in Hrun.
  destruct (read_only d) eqn:Hro.
  { unfold emit, io_bind, ofstream_open in Hrun. by rewrite Hro in Hrun. }
  do 5 (split; [done|]).
  assert (Hb : exists us,
    float_to_uint16 (f64_mul dt (f64_of_int 1000000)) = Ok us
    /\ 22 <= length (binary_header_ w)).
  { apply (f_equal fst) in Hrun. rewrite emit_created in Hrun by done.
    rewrite with_ofstream_outcome in Hrun. cbn [fst] in Hrun.
    set (d1 := streaming _ _ _ _) in Hrun.
    unfold io_bind at 1 in Hrun.
    destruct (writeTextHeader w d1) as [[[]| |] d2]; [|done..].
    unfold io_bind at 1 in Hrun.
    destruct (writeBinaryHeader w dt _ d2) as [[[]| |] d3] eqn:E; [|done..].
    destruct (float_to_uint16 _) as [us| |] eqn:Eus.
    - exists us. split; [done|].
      destruct (decide (22 <= length (binary_header_ w))); [done|].
      rewrite (surjective_pairing (writeBinaryHeader _ _ _ _)) in E.
      rewrite writeBinaryHeader_undefined in E by (right; lia). done.
    - by apply float_to_uint16_no_throw in Eus.
    - unfold writeBinaryHeader, io_bind, io_lift in E. by rewrite Eus in E. }
  destruct Hb as (us & Hus & Hlen). exists us. do 2 (split; [done|]).
  destruct (emit_streams w data dt hs us d Hl Hus Hlen Hro) as [H _].
  rewrite Hrun in H. exact H.
Qed.

Lemma streaming_whole path d image :
  length image <= room_for path d ->
  streaming path d (take (room_for path d) image) []
  = Disk (<[path := image]> (files d)) (read_only d)
         (room_for path d - length image) (buffering d) [].
Proof. intros H. unfold streaming. by rewrite firstn_all2. Qed.

(** X6: on a volume without NaN that passes the checks, with a sample
    interval that converts to [uint16_t] and a medium that can be written and
    has room for the file, counting the room that the old target gives
    back, [writeFile] returns whatever the buffering, and leaves at the
    target path exactly the text header, the patched binary header and the
    traces, each trace header followed by its samples as IBM words; no other
    file changes, the room shrinks by the size of the file, and the stream
    holds nothing back. *)
Theorem writeFile_image (w : SegyWriter) (data : list (list float))
    (dt : double) (hs : list bytes) (us : Z) (d : disk) :
  data <> [] -> uniform data = true -> length hs = length data ->
  well_sized hs = true -> no_nan data = true ->
  float_to_uint16 (f64_mul dt (f64_of_int 1000000)) = Ok us ->
  22 <= length (binary_header_ w) ->
  read_only d = false ->
  length (file_image w us hs data) <= room_for (target_path_ w) d ->
  writeFile w data dt hs d
  = (Ok tt,
     Disk (<[target_path_ w := file_image w us hs data]> (files d)) false
          (room_for (target_path_ w) d - length (file_image w us hs data))
          (buffering d) []).
Proof.
  intros Hne Hu Hl Hw _ Hus Hlen Hro Hroom.
  rewrite writeFile_checked by done.
  destruct (emit_streams w data dt hs us d Hl Hus Hlen Hro) as [H2 H1].
  rewrite (surjective_pairing (emit _ _ _ _ _ _)), H2.
  destruct H1 as [->|[Hr _]]; [|lia].
  by rewrite streaming_whole, Hro.
Qed.

Lemma writeFile_image_witness :
  writeFile writer0 volume0 dt0 [replicate 240 x07] disk0
  = (Ok tt,
     Disk (<[target_path_ writer0
             := file_image writer0 2000 [replicate 240 x07] volume0]>
             (files disk0)) false
          (room_for (target_path_ writer0) disk0
           - length (file_image writer0 2000 [replicate 240 x07] volume0))
          (buffering disk0) []).
Proof.
  apply (writeFile_image writer0 volume0 dt0 [replicate 240 x07] 2000 disk0).
  - discriminate.
  - reflexivity.
  - reflexivity.
  - vm_compute. reflexivity.
  - reflexivity.
  - vm_compute. reflexivity.
  - apply Nat.leb_le. vm_compute. reflexivity.
  - reflexivity.
  - apply Nat.leb_le. vm_compute. reflexivity.
Defined.

(** X9: [writeFile] does not tell reliably that the medium is full. On a
    volume without NaN that passes the checks, when the medium has less room
    than the file needs, the target is left with the file cut off where the
    room ended and the medium is full; [writeFile] throws one of its "Failed
    to write ..." errors or returns as if all were well, which of the two
    being up to the buffering of the stream. *)
Theorem writeFile_medium_full (w : SegyWriter) (data : list (list float))
    (dt : double) (hs : list bytes) (us : Z) (d : disk) :
  data <> [] -> uniform data = true -> length hs = length data ->
  well_sized hs = true -> no_nan data = true ->
  float_to_uint16 (f64_mul dt (f64_of_int 1000000)) = Ok us ->
  22 <= length (binary_header_ w) ->
  read_only d = false ->
  room_for (target_path_ w) d < length (file_image w us hs data) ->
  let r := writeFile w data dt hs d in
  (r.1 = Ok tt \/ exists what, r.1 = Throw ("Failed to write " ++ what))
  /\ files r.2 !! target_path_ w
     = Some (take (room_for (target_path_ w) d) (file_image w us hs data))
  /\ free_space r.2 = 0.
Proof.
  intros Hne Hu Hl Hw _ Hus Hlen Hro Hroom. cbv zeta.
  rewrite writeFile_checked by done.
  destruct (emit_streams w data dt hs us d Hl Hus Hlen Hro) as [H2 H1].
  rewrite H2. split; [|split].
  - destruct H1 as [H1|[_ H1]]; auto.
  - unfold streaming. cbn [files]. by rewrite lookup_insert_eq.
  - unfold streaming. cbn [free_space]. rewrite length_take. lia.
Qed.

Lemma writeFile_medium_full_witness :
  let r := writeFile writer0 volume0 dt0 [replicate 240 x07] disk_short in
  (r.1 = Ok tt \/ exists what, r.1 = Throw ("Failed to write " ++ what))
  /\ files r.2 !! target_path_ writer0
     = Some (take (room_for (target_path_ writer0) disk_short)
               (file_image writer0 2000 [replicate 240 x07] volume0))
  /\ free_space r.2 = 0.
Proof.
  apply (writeFile_medium_full writer0 volume0 dt0 [replicate 240 x07] 2000
           disk_short).
  - discriminate.
  - reflexivity.
  - reflexivity.
  - vm_compute. reflexivity.
  - reflexivity.
  - vm_compute. reflexivity.
  - apply Nat.leb_le. vm_compute. reflexivity.
  - reflexivity.
  - apply Nat.ltb_lt. vm_compute. reflexivity.
Defined.

(** The two outcomes on a medium that is too small. Without a buffer the
    write of the text header fails and is reported. Through a buffer the
    3200 bytes of the text header go to the file, the 648 bytes that follow
    are held back until [close()], which has room for 100 of them and whose
    failure nothing reports: [writeFile] returns. *)
Lemma writeFile_full_reported :
  (writeFile writer0 volume0 dt0 [replicate 240 x07] disk_full).1
  = Throw "Failed to write text header".
Proof. vm_compute. reflexivity. Qed.

Lemma writeFile_full_unreported :
  (writeFile writer0 volume0 dt0 [replicate 240 x07] disk_short).1 = Ok tt
  /\ length (content "out.sgy"
       (writeFile writer0 volume0 dt0 [replicate 240 x07] disk_short).2)
     = 3300
  /\ length (file_image writer0 2000 [replicate 240 x07] volume0) = 3848.
Proof. vm_compute. done. Qed.

(** X8: on a volume that passes the checks, when the target cannot be created,
    [writeFile] throws "Cannot create output SEGY file: " followed by the
    target path, and the disk is as it was. *)
Theorem writeFile_read_only (w : SegyWriter) (data : list (list float))
    (dt : double) (hs : list bytes) (d : disk) :
  data <> [] -> uniform data = true -> length hs = length data ->
  well_sized hs = true -> read_only d = true ->
  writeFile w data dt hs d
  = (Throw ("Cannot create output SEGY file: " ++ target_path_ w), d).
Proof.
  intros Hne Hu Hl Hw Hro. rewrite writeFile_checked by done.
  unfold emit, io_bind, ofstream_open. by rewrite Hro.
Qed.

Lemma writeFile_read_only_witness :
  writeFile writer0 volume0 dt0 [replicate 240 x07] disk_read_only
  = (Throw ("Cannot create output SEGY file: " ++ target_path_ writer0),
     disk_read_only).
Proof.
  apply (writeFile_read_only writer0 volume0 dt0 [replicate 240 x07]
           disk_read_only).
  - discriminate.
  - reflexivity.
  - reflexivity.
  - vm_compute. reflexivity.
  - reflexivity.
Defined.

(** *** The layout of the file *)

(** The run of [writer0] on [disk0]. *)
Lemma write_volume0 :
  writeFile writer0 volume0 dt0 [replicate 240 x07] disk0 = (Ok tt, disk1).
Proof. vm_compute. reflexivity. Qed.

(** Records of one size laid end to end. *)
Lemma concat_records_length {A} (l : list (list A)) (r : nat) :
  Forall (fun b => length b = r) l -> length (concat l) = length l * r.
Proof.
  induction 1 as [|b l Hb _ IH]; simpl; [done|].
  rewrite length_app, IH, Hb. lia.
Qed.

Lemma concat_records_drop {A} (l : list (list A)) (r i : nat) (b : list A) :
  Forall (fun b => length b = r) l -> l !! i = Some b ->
  exists rest, drop (i * r) (concat l) = b ++ rest.
Proof.
  intros Hl. revert i. induction Hl as [|b0 l Hb _ IH]; intros i Hi; [done|].
  destruct i as [|i]; simpl in *.
  - injection Hi as ->. eauto.
  - rewrite drop_app_add' by done. by apply IH.
Qed.

Lemma length_big_endian32 v : length (big_endian32 v) = 4.
Proof. done. Qed.

Lemma length_binary_header_image h us n :
  length (binary_header_image h us n) = length h.
Proof. unfold binary_header_image. by rewrite !length_insert. Qed.

Lemma length_trace_image (h : bytes) (row : list float) :
  length (trace_image h row) = length h + 4 * length row.
Proof.
  unfold trace_image. rewrite length_app.
  rewrite (concat_records_length _ 4), length_fmap; [lia|].
  apply Forall_fmap, Forall_forall. done.
Qed.

Lemma traces_records (hs : list bytes) (data : list (list float)) (m : nat) :
  well_sized hs = true -> uniform data = true ->
  m = length (default [] (head data)) ->
  Forall (fun b => length b = 240 + 4 * m) (zip_with trace_image hs data).
Proof.
  intros Hw Hu ->. apply Forall_lookup. intros i b Hi.
  apply lookup_zip_with_Some in Hi as (h & row & -> & Hh & Hr).
  rewrite length_trace_image.
  rewrite well_sized_spec in Hw. rewrite uniform_spec in Hu.
  by rewrite (Hw _ _ Hh), (Hu _ _ Hr).
Qed.

Lemma length_file_image w us hs data :
  well_sized hs = true -> uniform data = true -> length hs = length data ->
  length (file_image w us hs data)
  = length (text_header_ w) + length (binary_header_ w)
    + length data * (240 + 4 * length (default [] (head data))).
Proof.
  intros Hw Hu Hl. unfold file_image, traces_image.
  rewrite !length_app, length_binary_header_image.
  rewrite (concat_records_length _ _ (traces_records hs data _ Hw Hu eq_refl)).
  rewrite length_zip_with. lia.
Qed.

Lemma file_image_layout (w : SegyWriter) (us : Z) (hs : list bytes)
    (data : list (list float)) :
  length (text_header_ w) = 3200 -> length (binary_header_ w) = 400 ->
  uniform data = true -> length hs = length data -> well_sized hs = true ->
  let record := 240 + 4 * length (default [] (head data)) in
  let image := file_image w us hs data in
  length image = 3600 + length data * record
  /\ take 3200 image = text_header_ w
  /\ take 400 (drop 3200 image)
     = binary_header_image (binary_header_ w) us
         (length (default [] (head data)))
  /\ (forall i h, hs !! i = Some h ->
      take 240 (drop (3600 + i * record) image) = h)
  /\ (forall i j x, cell data i j = Some x ->
      take 4 (drop (3600 + i * record + 240 + 4 * j) image)
      = big_endian32 (ieeeToIbm x)).
Proof.
  intros Ht Hb Hu Hl Hw record image. subst image.
  split.
  { rewrite length_file_image by done. rewrite Ht, Hb. done. }
  split.
  { unfold file_image. by rewrite take_app_length'. }
  split.
  { unfold file_image. rewrite drop_app_length' by done.
    by rewrite take_app_length' by (by rewrite length_binary_header_image). }
  pose proof (traces_records hs data _ Hw Hu eq_refl) as Hrec.
  fold record in Hrec.
  assert (Hdrop : forall k, drop (3600 + k) (file_image w us hs data)
                            = drop k (traces_image hs data)).
  { intros k. unfold file_image.
    rewrite app_assoc, drop_app_add'; [done|].
    by rewrite length_app, length_binary_header_image, Ht, Hb. }
  split.
  - intros i h Hh. rewrite Hdrop.
    destruct (data !! i) as [row|] eqn:Er.
    2:{ apply lookup_ge_None in Er. apply lookup_lt_Some in Hh. lia. }
    destruct (concat_records_drop _ record i (trace_image h row) Hrec)
      as [rest Hrest].
    { rewrite lookup_zip_with, Hh. simpl. by rewrite Er. }
    unfold traces_image. rewrite Hrest. unfold trace_image.
    rewrite <- app_assoc. apply take_app_length'.
    rewrite well_sized_spec in Hw. symmetry. by eapply Hw.
  - intros i j x Hx. unfold cell in Hx.
    destruct (data !! i) as [row|] eqn:Er; [|done]. simpl in Hx.
    destruct (hs !! i) as [h|] eqn:Hh.
    2:{ apply lookup_ge_None in Hh. apply lookup_lt_Some in Er. lia. }
    replace (3600 + i * record + 240 + 4 * j)
      with (3600 + (i * record + (240 + j * 4))) by lia.
    rewrite Hdrop, <- drop_drop.
    destruct (concat_records_drop _ record i (trace_image h row) Hrec)
      as [rest Hrest].
    { rewrite lookup_zip_with, Hh. simpl. by rewrite Er. }
    unfold traces_image. rewrite Hrest. unfold trace_image.
    rewrite <- app_assoc, drop_app_add'.
    2:{ rewrite well_sized_spec in Hw. symmetry. by eapply Hw. }
    destruct (concat_records_drop
                ((fun x => big_endian32 (ieeeToIbm x)) <$> row) 4 j
                (big_endian32 (ieeeToIbm x))) as [rest' Hrest'].
    { apply Forall_fmap, Forall_forall. done. }
    { by rewrite list_lookup_fmap, Hx. }
    rewrite drop_app_le.
    2:{ rewrite (concat_records_length _ 4), length_fmap.
        - apply lookup_lt_Some in Hx. lia.
        - apply Forall_fmap, Forall_forall. done. }
    rewrite Hrest', <- app_assoc. by apply take_app_length'.
Qed.

Lemma binary_header_image_patched (h : bytes) (us : Z) (n : nat) :
  length h = 400 -> (0 <= us < 2 ^ 16)%Z ->
  patched_binary_header h us (Z.of_nat n) (binary_header_image h us n).
Proof.
  intros Hl Hus. unfold patched_binary_header, binary_header_image. cbv zeta.
  change (2 ^ 16)%Z with 65536%Z in *. change (2 ^ 8)%Z with 256%Z.
  pose proof (Z.mod_pos_bound (Z.of_nat n) 65536 eq_refl) as Hn.
  set (m := (Z.of_nat n mod 65536)%Z) in *.
  set (h1 := <[16 := _]> h). set (h2 := <[17 := _]> h1).
  set (h3 := <[20 := _]> h2).
  assert (L1 : length h1 = 400) by (subst h1; by rewrite length_insert).
  assert (L2 : length h2 = 400) by (subst h2; by rewrite length_insert).
  assert (L3 : length h3 = 400) by (subst h3; by rewrite length_insert).
  split; [by rewrite length_insert|].
  split; [|split; [|split; [|split]]].
  - rewrite list_lookup_insert_ne by done. subst h3.
    rewrite list_lookup_insert_ne by done. subst h2.
    rewrite list_lookup_insert_ne by done. subst h1.
    rewrite list_lookup_insert_eq by lia. simpl.
    rewrite Z_of_byte_of_Z. f_equal. Z.div_mod_to_equations. lia.
  - rewrite list_lookup_insert_ne by done. subst h3.
    rewrite list_lookup_insert_ne by done. subst h2.
    rewrite list_lookup_insert_eq by lia. simpl.
    by rewrite Z_of_byte_of_Z.
  - rewrite list_lookup_insert_ne by done. subst h3.
    rewrite list_lookup_insert_eq by lia. simpl.
    rewrite Z_of_byte_of_Z. f_equal. subst m. Z.div_mod_to_equations. lia.
  - rewrite list_lookup_insert_eq by lia. simpl.
    rewrite Z_of_byte_of_Z. f_equal. subst m. Z.div_mod_to_equations. lia.
  - intros k K1 K2 K3 K4. subst h3 h2 h1.
    by rewrite !list_lookup_insert_ne by done.
Qed.

(** C6: after a successful [writeFile] by a writer built from the reference
    file [f], on a medium that had room for the 3600 bytes of the two
    headers, the target starts with the 3200 bytes of the text header of [f]
    followed by a 400-byte header that equals the binary header of [f] in
    every byte but 16-17, which hold the sample interval in microseconds
    ([static_cast<uint16_t>(sample_interval * 1e6)]) big-endian, and 20-21,
    which hold the samples per trace big-endian. *)
Theorem writeFile_headers (target reference : string) (d0 : disk) (f : bytes)
    (w : SegyWriter) (data : list (list float)) (dt : double)
    (hs : list bytes) (d d' : disk) :
  files d0 !! reference = Some f ->
  new_SegyWriter target reference d0 = Ok w ->
  writeFile w data dt hs d = (Ok tt, d') ->
  3600 <= room_for target d ->
  exists us header rest,
    float_to_uint16 (f64_mul dt (f64_of_int 1000000)) = Ok us
    /\ files d' !! target = Some (take 3200 f ++ header ++ rest)
    /\ length (take 3200 f) = 3200
    /\ patched_binary_header (take 400 (drop 3200 f)) us
         (Z.of_nat (length (default [] (head data)))) header.
Proof.
  intros Hf Hw Hrun Hroom.
  apply new_SegyWriter_Ok in Hw as (f' & Hf' & Ht & Htxt & Ltxt & Hbin & Lbin).
  assert (f' = f) as -> by congruence.
  apply writeFile_Ok_inv in Hrun
    as (Hne & Hu & Hl & Hws & Hro & us & Hus & _ & ->).
  rewrite Ht. rewrite <- Htxt, <- Hbin.
  set (header := binary_header_image (binary_header_ w) us
                   (length (default [] (head data)))).
  exists us, header, (take (room_for target d - 3600) (traces_image hs data)).
  split; [done|]. split; [|split; [done|]].
  - unfold streaming. cbn [files]. rewrite lookup_insert_eq. f_equal.
    unfold file_image. fold header.
    assert (length header = 400) as Lh
      by (subst header; by rewrite length_binary_header_image).
    rewrite take_past by lia. f_equal.
    rewrite take_past by lia. f_equal. f_equal. lia.
  - apply binary_header_image_patched; [done|].
    by eapply float_to_uint16_range.
Qed.

(** The run of [writer0] on [disk0]. *)
Lemma writeFile_headers_witness :
  exists us header rest,
    float_to_uint16 (f64_mul dt0 (f64_of_int 1000000)) = Ok us
    /\ files disk1 !! "out.sgy"%string
       = Some (take 3200 ref_file ++ header ++ rest)
    /\ length (take 3200 ref_file) = 3200
    /\ patched_binary_header (take 400 (drop 3200 ref_file)) us 2 header.
Proof.
  apply (writeFile_headers "out.sgy" "ref.sgy" disk0 ref_file writer0
           [[f32_one; f32_of_int (-1)]] dt0 [replicate 240 x07] disk0 disk1).
  - vm_compute. reflexivity.
  - vm_compute. reflexivity.
  - vm_compute. reflexivity.
  - apply Nat.leb_le. vm_compute. reflexivity.
Defined.

(** X7: after a normal return of a writer whose reference headers have 3200
    and 400 bytes, on a medium that had room for the file, the target has
    3600 header bytes and then one record of [240 + 4 * num_samples] bytes
    per trace: the trace header, then the samples, each sample that is not
    NaN as its IBM word, most significant byte first. *)
Theorem writeFile_layout (w : SegyWriter) (data : list (list float))
    (dt : double) (hs : list bytes) (d d' : disk) :
  length (text_header_ w) = 3200 -> length (binary_header_ w) = 400 ->
  writeFile w data dt hs d = (Ok tt, d') ->
  let record := 240 + 4 * length (default [] (head data)) in
  3600 + length data * record <= room_for (target_path_ w) d ->
  exists image,
    files d' !! target_path_ w = Some image
    /\ length image = 3600 + length data * record
    /\ take 3200 image = text_header_ w
    /\ (forall i h, hs !! i = Some h ->
        take 240 (drop (3600 + i * record) image) = h)
    /\ (forall i j x, cell data i j = Some x -> x <> S754_nan ->
        take 4 (drop (3600 + i * record + 240 + 4 * j) image)
        = big_endian32 (ieeeToIbm x)).
Proof.
  intros Ht Hb Hrun record Hroom.
  apply writeFile_Ok_inv in Hrun
    as (Hne & Hu & Hl & Hw & Hro & us & Hus & _ & ->).
  destruct (file_image_layout w us hs data Ht Hb Hu Hl Hw)
    as (H1 & H2 & _ & H4 & H5). fold record in H1, H4, H5.
  exists (file_image w us hs data).
  rewrite streaming_whole by lia. cbn [files]. rewrite lookup_insert_eq.
  split; [done|]. do 3 (split; [done|]). intros i j x Hx _. by apply H5.
Qed.

Lemma writeFile_layout_witness :
  let record := 240 + 4 * length (default [] (head volume0)) in
  exists image,
    files disk1 !! target_path_ writer0 = Some image
    /\ length image = 3600 + length volume0 * record
    /\ take 3200 image = text_header_ writer0
    /\ (forall i h, [replicate 240 x07] !! i = Some h ->
        take 240 (drop (3600 + i * record) image) = h)
    /\ (forall i j x, cell volume0 i j = Some x -> x <> S754_nan ->
        take 4 (drop (3600 + i * record + 240 + 4 * j) image)
        = big_endian32 (ieeeToIbm x)).
Proof.
  apply (writeFile_layout writer0 volume0 dt0 [replicate 240 x07] disk0 disk1).
  - vm_compute. reflexivity.
  - vm_compute. reflexivity.
  - exact write_volume0.
  - apply Nat.leb_le. vm_compute. reflexivity.
Defined.

(** *** The other files *)

Lemma untouched_refl path d : untouched_but path d d.
Proof. by repeat split. Qed.

Lemma untouched_trans path d1 d2 d3 :
  untouched_but path d1 d2 -> untouched_but path d2 d3 ->
  untouched_but path d1 d3.
Proof.
  intros (R1 & B1 & F1 & H1) (R2 & B2 & F2 & H2). split; [congruence|].
  split; [congruence|]. split; [lia|]. intros p Hp. by rewrite H2, H1.
Qed.

Lemma keeps_ret {A} path (a : A) : keeps path (io_ret a).
Proof. intros d. apply untouched_refl. Qed.

Lemma keeps_throw {A} path what : keeps path (@io_throw A what).
Proof. intros d. apply untouched_refl. Qed.

Lemma keeps_lift {A} path (c : outcome A) : keeps path (io_lift c).
Proof. intros d. apply untouched_refl. Qed.

Lemma keeps_bind {A B} path (c : io A) (k : A -> io B) :
  keeps path c -> (forall a, keeps path (k a)) -> keeps path (io_bind c k).
Proof.
  intros Hc Hk d. unfold io_bind. specialize (Hc d).
  destruct (c d) as [[a| |] d1]; simpl in *; [|done..].
  eapply untouched_trans; [exact Hc|apply Hk].
Qed.

Lemma keeps_for_each {X} path (l : list X) (body : X -> io unit) :
  (forall i, keeps path (body i)) -> keeps path (io_for_each l body).
Proof.
  intros Hb. induction l as [|i l IH]; simpl; [apply keeps_ret|].
  apply keeps_bind; [apply Hb|]. intros _. apply IH.
Qed.

Lemma untouched_transfer path q d :
  untouched_but path d (transfer path q d).2.
Proof.
  unfold transfer.
  destruct (decide _); simpl; (split; [done|]); (split; [done|]);
    (split; [simpl; lia|]); intros p Hp; simpl; by rewrite lookup_insert_ne.
Qed.

Lemma keeps_write path q : keeps path (ofstream_write path q).
Proof.
  intros d. unfold ofstream_write. cbv zeta.
  pose proof (untouched_transfer path
    (take (buffering d (length (pending d)) (length q)) (pending d ++ q)) d)
    as H.
  destruct (transfer _ _ _) as [good d']. exact H.
Qed.

Lemma keeps_close path : keeps path (ofstream_close path).
Proof. intros d. apply (untouched_transfer path (pending d) d). Qed.

Lemma keeps_with_ofstream {A} path (body : io A) :
  keeps path body -> keeps path (with_ofstream path body).
Proof.
  intros Hb d. unfold with_ofstream. specialize (Hb d).
  destruct (body d) as [[a|what|] d1]; simpl in *; [| |done];
    (eapply untouched_trans; [exact Hb|apply keeps_close]).
Qed.

Lemma keeps_if {A} path (b : bool) (c1 c2 : io A) :
  keeps path c1 -> keeps path c2 -> keeps path (if b then c1 else c2).
Proof. by destruct b. Qed.

Lemma writeTraces_keeps w data hs : keeps (target_path_ w) (writeTraces w data hs).
Proof.
  unfold writeTraces. apply keeps_for_each. intros i.
  apply keeps_bind; [apply keeps_lift|]. intros h.
  apply keeps_bind; [apply keeps_write|]. intros good.
  apply keeps_if; [apply keeps_throw|].
  apply keeps_bind; [apply keeps_lift|]. intros row.
  apply keeps_for_each. intros j.
  apply keeps_bind; [apply keeps_lift|]. intros x. cbv zeta.
  apply keeps_bind; [apply keeps_write|]. intros good'.
  apply keeps_if; [apply keeps_throw|apply keeps_ret].
Qed.

Lemma body_keeps w data dt hs n :
  keeps (target_path_ w)
    (io_bind (writeTextHeader w) (fun _ =>
     io_bind (writeBinaryHeader w dt n) (fun _ => writeTraces w data hs))).
Proof.
  apply keeps_bind.
  { unfold writeTextHeader. apply keeps_bind; [apply keeps_write|].
    intros good. apply keeps_if; [apply keeps_ret|apply keeps_throw]. }
  intros _. apply keeps_bind; [|intros _; apply writeTraces_keeps].
  unfold writeBinaryHeader. cbv zeta.
  apply keeps_bind; [apply keeps_lift|]. intros us.
  apply keeps_bind; [apply keeps_lift|]. intros h1.
  apply keeps_bind; [apply keeps_lift|]. intros h2.
  apply keeps_bind; [apply keeps_write|].
  intros good. apply keeps_if; [apply keeps_ret|apply keeps_throw].
Qed.

Lemma rewritten_refl path d : rewritten path d d.
Proof. unfold rewritten, room_for. repeat split. lia. Qed.

Lemma emit_rewrites w data dt hs n d :
  rewritten (target_path_ w) d (emit w data dt hs n d).2.
Proof.
  destruct (read_only d) eqn:Hro.
  - unfold emit, io_bind, ofstream_open. rewrite Hro. apply rewritten_refl.
  - rewrite emit_created by done.
    destruct (keeps_with_ofstream _ _ (body_keeps w data dt hs n)
                (streaming (target_path_ w) d [] [])) as (R & B & F & H).
    split; [exact R|]. split.
    + simpl in F. lia.
    + intros p Hp. rewrite H by done. simpl. by rewrite lookup_insert_ne.
Qed.

(** X10: whatever its outcome, [writeFile] leaves every file but the target
    as it was and the medium as writable as it was, and the room left on the
    medium is at most what was free and what the old target gave back. *)
Theorem writeFile_other_files (w : SegyWriter) (data : list (list float))
    (dt : double) (hs : list bytes) (d : disk) :
  let d' := (writeFile w data dt hs d).2 in
  read_only d' = read_only d
  /\ free_space d' <= free_space d + length (content (target_path_ w) d)
  /\ forall path, path <> target_path_ w ->
       files d' !! path = files d !! path.
Proof.
  cbv zeta. change (rewritten (target_path_ w) d (writeFile w data dt hs d).2).
  unfold writeFile. destruct (decide (data = [])); [apply rewritten_refl|].
  cbv zeta. unfold io_bind at 1, io_lift.
  destruct (at_ data 0) as [row0| |]; [|apply rewritten_refl..].
  unfold io_bind at 1.
  rewrite (io_for_each_check _
    (fun i => from_option (fun row => length row =? length row0) false
                          (data !! i))
    InconsistentTraceLength).
  2:{ intros i Hi. unfold io_bind, io_lift, at_.
      destruct (data !! i) as [row|] eqn:E; simpl.
      - by destruct (length row =? length row0).
      - apply elem_of_seq in Hi. apply lookup_ge_None in E.
        destruct data; simpl in *; [done|lia]. }
  destruct (forallb _ _); [|apply rewritten_refl].
  destruct (negb _); [apply rewritten_refl|].
  unfold io_bind at 1.
  pose proof (keeps_for_each (target_path_ w) (seq 0 (length data))
    (fun i => io_bind (io_lift (at_ hs i)) (fun h : bytes =>
       if negb (length h =? 240) then io_throw MalformedHeader
       else io_ret tt))) as Hk.
  match goal with |- context [io_for_each ?l ?b d] =>
    assert (Hd : (io_for_each l b d).2 = d) end.
  { generalize (seq 0 (length data)). intros l.
    induction l as [|i l IH]; simpl; [done|].
    unfold io_bind at 1. unfold io_bind at 1, io_lift.
    destruct (at_ hs i) as [h| |]; [|done..].
    destruct (negb _); [done|]. exact IH. }
  match goal with |- context [io_for_each ?l ?b d] =>
    destruct (io_for_each l b d) as [[[]|what|] dd] end;
    simpl in Hd; subst dd; [|apply rewritten_refl..].
  apply emit_rewrites.
Qed.

(** *** The round trip *)

Lemma declared_samples_image (w : SegyWriter) (us : Z) (hs : list bytes)
    (data : list (list float)) :
  length (text_header_ w) = 3200 -> length (binary_header_ w) = 400 ->
  (Z.of_nat (length (default [] (head data))) < 2 ^ 16)%Z ->
  declared_samples (file_image w us hs data)
  = length (default [] (head data)).
Proof.
  intros Ht Hb Hm. unfold declared_samples, file_image. cbv zeta.
  rewrite drop_app_length' by done.
  set (m := length (default [] (head data))) in *.
  assert (Hl : length (binary_header_image (binary_header_ w) us m) = 400)
    by (by rewrite length_binary_header_image).
  rewrite !lookup_app_l by lia.
  unfold binary_header_image. cbv zeta.
  set (X := <[17 := _]> _).
  assert (HX : length X = 400) by (subst X; by rewrite !length_insert).
  rewrite list_lookup_insert_ne by done.
  rewrite list_lookup_insert_eq by lia.
  rewrite list_lookup_insert_eq by (rewrite length_insert; lia).
  cbn [from_option id]. rewrite !Z_of_byte_of_Z.
  change (2 ^ 16)%Z with 65536%Z in *. change (2 ^ 8)%Z with 256%Z.
  assert (Hz : (0 <= Z.of_nat m < 65536)%Z) by lia.
  rewrite (Z.mod_small (Z.of_nat m) 65536) by done.
  replace (256 * ((Z.of_nat m / 256) mod 256) + Z.of_nat m mod 256)%Z
    with (Z.of_nat m) by (Z.div_mod_to_equations; lia).
  apply Nat2Z.id.
Qed.

(** X11: a file that [writeFile] has written on a medium that had room for
    it serves as a reference file: a writer constructed from it holds the
    text header and the trace headers that were written, and the patched
    binary header, provided the traces have between 1 and 65535 samples. *)
Theorem written_file_is_reference (w : SegyWriter) (data : list (list float))
    (dt : double) (hs : list bytes) (d d' : disk) (target2 : string) :
  length (text_header_ w) = 3200 -> length (binary_header_ w) = 400 ->
  (0 < Z.of_nat (length (default [] (head data))) < 2 ^ 16)%Z ->
  writeFile w data dt hs d = (Ok tt, d') ->
  3600 + length data * (240 + 4 * length (default [] (head data)))
    <= room_for (target_path_ w) d ->
  exists w2 us,
    new_SegyWriter target2 (target_path_ w) d' = Ok w2
    /\ float_to_uint16 (f64_mul dt (f64_of_int 1000000)) = Ok us
    /\ text_header_ w2 = text_header_ w
    /\ binary_header_ w2
       = binary_header_image (binary_header_ w) us
           (length (default [] (head data)))
    /\ reference_trace_headers_ w2 = hs.
Proof.
  intros Ht Hb Hm Hrun Hroom.
  apply writeFile_Ok_inv in Hrun
    as (Hne & Hu & Hl & Hw & Hro & us & Hus & _ & ->).
  set (image := file_image w us hs data).
  destruct (file_image_layout w us hs data Ht Hb Hu Hl Hw)
    as (L1 & L2 & L3 & L4 & _). fold image in L1, L2, L3, L4.
  pose proof (declared_samples_image w us hs data Ht Hb ltac:(lia)) as Hd.
  fold image in Hd.
  set (m := length (default [] (head data))) in *.
  rewrite streaming_whole by lia.
  rewrite new_SegyWriter_cases. cbn [files]. rewrite lookup_insert_eq.
  assert ((length image <? 3200) = false) as -> by (apply Nat.ltb_ge; lia).
  assert ((length image <? 3600) = false) as -> by (apply Nat.ltb_ge; lia).
  assert ((declared_samples image =? 0) = false) as ->
    by (apply Nat.eqb_neq; lia).
  eexists _, us. split; [done|]. split; [done|].
  cbn [text_header_ binary_header_ reference_trace_headers_].
  do 2 (split; [done|]).
  unfold trace_headers_of. rewrite Hd, L1.
  replace (3600 + length data * (240 + 4 * m) - 3600)
    with (length data * (240 + 4 * m)) by lia.
  rewrite Nat.div_mul by lia. rewrite <- Hl.
  apply list_eq. intros i. rewrite list_lookup_fmap.
  destruct (hs !! i) as [h|] eqn:Eh.
  - rewrite lookup_seq_lt by (by eapply lookup_lt_Some). simpl.
    f_equal. by apply L4.
  - rewrite lookup_seq_ge by (by apply lookup_ge_None). done.
Qed.

Lemma written_file_is_reference_witness :
  exists w2 us,
    new_SegyWriter "copy.sgy" (target_path_ writer0) disk1 = Ok w2
    /\ float_to_uint16 (f64_mul dt0 (f64_of_int 1000000)) = Ok us
    /\ text_header_ w2 = text_header_ writer0
    /\ binary_header_ w2
       = binary_header_image (binary_header_ writer0) us
           (length (default [] (head volume0)))
    /\ reference_trace_headers_ w2 = [replicate 240 x07].
Proof.
  apply (written_file_is_reference writer0 volume0 dt0 [replicate 240 x07]
           disk0 disk1 "copy.sgy").
  - vm_compute. reflexivity.
  - vm_compute. reflexivity.
  - vm_compute. split; reflexivity.
  - exact write_volume0.
  - apply Nat.leb_le. vm_compute. reflexivity.
Defined.
End WriterRuns.
(** ** Float arithmetic *)

Section FloatFacts.
Local Open Scope Z_scope.

Lemma iter_pos_invariant {A} (P : A -> Prop) (f : A -> A) :
  (forall x, P x -> P (f x)) -> forall n x, P x -> P (SpecFloat.iter_pos f n x).
Proof.
  intros Hf. induction n as [n IH|n IH|]; intros x Hx; simpl; auto.
Qed.

Lemma shr_1_nonneg mrs : 0 <= shr_m mrs -> 0 <= shr_m (shr_1 mrs).
Proof.
  destruct mrs as [m r s]. simpl. destruct m as [|[p|p|]|p]; simpl; lia.
Qed.

Lemma shr_fexp_nonneg prec emax m e l :
  0 <= m -> 0 <= shr_m (shr_fexp prec emax m e l).1.
Proof.
  intros Hm. unfold shr_fexp, shr.
  assert (H0 : 0 <= shr_m (shr_record_of_loc m l))
    by (by destruct l as [|[]]).
  destruct (_ - e) as [|p|p]; simpl; [done| |done].
  by apply iter_pos_invariant; [apply shr_1_nonneg|].
Qed.

(** Rounding a non-negative mantissa never yields NaN. *)
Lemma binary_round_aux_not_nan prec emax s m e l :
  0 <= m -> binary_round_aux prec emax s m e l <> S754_nan.
Proof.
  intros Hm. unfold binary_round_aux.
  pose proof (shr_fexp_nonneg prec emax m e l Hm) as H1.
  destruct (shr_fexp prec emax m e l) as [mrs' e']. simpl in H1.
  assert (H2 : 0 <= round_nearest_even (shr_m mrs') (loc_of_shr_record mrs')).
  { unfold round_nearest_even. destruct (loc_of_shr_record mrs') as [|[]];
      try lia. destruct (Z.even _); lia. }
  pose proof (shr_fexp_nonneg prec emax _ e' loc_Exact H2) as H3.
  destruct (shr_fexp prec emax _ e' loc_Exact) as [mrs'' e'']. simpl in H3.
  destruct (shr_m mrs'') as [|p|p]; [done| |lia].
  by destruct (e'' <=? emax - prec).
Qed.

Lemma binary_round_not_nan prec emax s m e :
  binary_round prec emax s m e <> S754_nan.
Proof.
  unfold binary_round. destruct (shl_align _ _ _) as [mz ez].
  by apply binary_round_aux_not_nan.
Qed.

Lemma fl_of_Z_not_nan prec emax z : fl_of_Z prec emax z <> S754_nan.
Proof.
  unfold fl_of_Z, binary_normalize.
  destruct z; [done|apply binary_round_not_nan..].
Qed.

Lemma SFcompare_refl x : x <> S754_nan -> SFcompare x x = Some Eq.
Proof.
  destruct x as [s|s| |s m e]; simpl; try done; intros _.
  - by destruct s.
  - destruct s; rewrite Z.compare_refl, ?Pos.compare_cont_refl; done.
Qed.

Lemma fl_ne_refl x : x <> S754_nan -> fl_ne x x = false.
Proof. intros H. unfold fl_ne, SFeqb. by rewrite SFcompare_refl. Qed.

(** A finite binary32 value times 1.0f is the value itself. *)
Lemma digits2_pos_shift (p : positive) :
  Zpos (digits2_pos (Pos.iter xO p 23)) = Zpos (digits2_pos p) + 23.
Proof. simpl. lia. Qed.

Lemma f32_mul_one (x : float) :
  valid_binary 24 128 x = true -> f32_mul x f32_one = x.
Proof.
  destruct x as [s|s| |s m e]; try (by destruct s); try done.
  simpl. intros Hv. unfold bounded, canonical_mantissa in Hv.
  apply andb_prop in Hv as [Hc He]. apply Z.eqb_eq in Hc. apply Z.leb_le in He.
  unfold f32_mul, f32_one, SFmul. rewrite xorb_false_r.
  unfold binary_round_aux.
  rewrite Pos.mul_comm.
  change (8388608 * m)%positive with (Pos.iter xO m 23).
  unfold shr_fexp at 1. unfold Zdigits2 at 1.
  rewrite digits2_pos_shift.
  replace (Z.pos (digits2_pos m) + 23 + (e + -23)) with (Z.pos (digits2_pos m) + e) by lia.
  rewrite Hc. replace (e - (e + -23)) with 23 by lia.
  cbn [shr shr_record_of_loc SpecFloat.iter_pos Pos.iter shr_1 orb].
  replace (e + -23 + 23) with e by lia.
  cbn [shr_m loc_of_shr_record round_nearest_even].
  unfold shr_fexp, Zdigits2. rewrite Hc, Z.sub_diag. cbn [shr shr_record_of_loc shr_m].
  by rewrite (proj2 (Z.leb_le _ _) He).
Qed.
End FloatFacts.

(** ** The engine at its edges *)

Section EngineEdgeFacts.
Import Amplify.

(** A loop nest over the grid that writes cell [(i, j)] on its turn
    [(i, j)] with a value that [R i j] holds of leaves such a value in every
    cell. *)
Lemma nest_fills {A} (n m : nat)
    (body : nat -> nat -> list (list A) -> outcome (list (list A)))
    (R : nat -> nat -> A -> Prop) (g r : list (list A)) :
  (forall i j g g', has_shape n m g -> i < n -> j < m -> body i j g = Ok g' ->
     exists x, R i j x /\ has_shape n m g'
     /\ forall i' j', cell g' i' j'
          = if decide (i' = i /\ j' = j) then Some x else cell g i' j') ->
  has_shape n m g ->
  for_each (seq 0 n) (fun i => for_each (seq 0 m) (body i)) g = Ok r ->
  has_shape n m r
  /\ forall i j, i < n -> j < m -> exists x, R i j x /\ cell r i j = Some x.
Proof.
  intros Hb Hg H.
  pose (Inv := fun (i j : nat) (g : list (list A)) =>
    has_shape n m g
    /\ forall i' j', (i' < i \/ (i' = i /\ j' < j)) -> j' < m ->
         exists x, R i' j' x /\ cell g i' j' = Some x).
  assert (HI : Inv n 0 r).
  { replace n with (length (seq 0 n)) at 1 by apply length_seq.
    revert H. apply (for_each_counted (fun k => Inv k 0)).
    - intros k i s s' Hk HP Hrow. apply seq_lookup_eq in Hk as [-> Hk].
      assert (HQ : Inv k m s').
      { replace m with (length (seq 0 m)) at 1 by apply length_seq.
        revert Hrow. apply (for_each_counted (fun j => Inv k j)); [|done].
        clear s' HP. intros j j0 t t' Hj [Hs Hc] Hbody.
        apply seq_lookup_eq in Hj as [-> Hj].
        destruct (Hb k j t t' Hs Hk Hj Hbody) as (x & Hx & Hs' & Hc').
        split; [done|]. intros i' j' Hij Hj'. rewrite Hc'.
        destruct (decide (i' = k /\ j' = j)) as [[-> ->]|Hne]; [eauto|].
        apply Hc; [lia|done]. }
      destruct HQ as [Hs Hc]. split; [done|].
      intros i' j' Hij Hj'. apply Hc; [lia|done].
    - split; [done|]. intros i' j' Hij. lia. }
  destruct HI as [Hs Hc]. split; [done|].
  intros i j Hi Hj. apply Hc; [lia|done].
Qed.

Lemma hard_mask_cells (n m : nat) (window : BooleanMask) (g r : FloatMask) :
  has_shape n m g -> hard_mask n m window g = Ok r ->
  has_shape n m r
  /\ forall i j, i < n -> j < m ->
       exists b, cell window i j = Some b /\ cell r i j = Some (indicator b).
Proof.
  intros Hg H. unfold hard_mask in H.
  cut (has_shape n m r
       /\ forall i j, i < n -> j < m ->
            exists x, (exists b, cell window i j = Some b /\ x = indicator b)
                      /\ cell r i j = Some x).
  { intros [Hs Hc]. split; [done|]. intros i j Hi Hj.
    destruct (Hc i j Hi Hj) as (x & (b & Hb & ->) & Hx). eauto. }
  revert H.
  apply (nest_fills n m _
           (fun i j x => exists b, cell window i j = Some b
                                   /\ x = indicator b)); [|done].
  intros i j t t' Ht Hi Hj Hb. apply bind_Ok in Hb as (b & Hwb & Hb).
  apply at2_Ok in Hwb.
  apply (assign2_Ok n m) in Hb as (_ & _ & Hs' & Hc); [|done].
  exists (indicator b). split; [eauto|]. done.
Qed.

Lemma hard_edge_cells (n m : nat) (window : BooleanMask)
    (width_traces : Z) (width_time_ms dt_ms : float) (mode : TransitionMode)
    (mask : FloatMask) :
  (width_traces <= 0)%Z \/ fl_le width_time_ms f32_zero = true ->
  createTransitionMask (n, m) window width_traces width_time_ms dt_ms mode
  = Ok mask ->
  has_shape n m mask
  /\ forall i j, i < n -> j < m ->
       exists b, cell window i j = Some b
                 /\ cell mask i j = Some (indicator b).
Proof.
  intros Hw. unfold createTransitionMask. cbn [fst snd].
  assert (((width_traces <=? 0)%Z || fl_le width_time_ms f32_zero) = true)
    as ->.
  { destruct Hw as [Hw| ->]; [|apply orb_true_r].
    by rewrite (proj2 (Z.leb_le _ _) Hw). }
  apply hard_mask_cells, has_shape_grid.
Qed.

(** X14: with a transition width of zero or less, in traces or in time, the
    blend mask is the window mask as numbers: 1.0f inside, 0.0f outside. *)
Theorem createTransitionMask_hard_edge (n m : nat) (window : BooleanMask)
    (width_traces : Z) (width_time_ms dt_ms : float) (mode : TransitionMode)
    (mask : FloatMask) :
  (width_traces <= 0)%Z \/ fl_le width_time_ms f32_zero = true ->
  createTransitionMask (n, m) window width_traces width_time_ms dt_ms mode
  = Ok mask ->
  has_shape n m mask
  /\ forall i j, i < n -> j < m ->
       exists b, cell window i j = Some b
                 /\ cell mask i j = Some (indicator b).
Proof. apply hard_edge_cells. Qed.

(** Off the gain path the result is the no-op result. *)
Lemma amplify_Ok_noop (seismic_data : SeismicData) (dt_ms : float)
    (target_window : list Point) (mode : ProcessingMode) (scale_factor : float)
    (width_traces : Z) (width_time_ms : float) (transition_mode : TransitionMode)
    (align_traces : Z) (align_time_ms : float) (r : AmplifyResult) :
  amplifySeismicWindow seismic_data dt_ms target_window mode scale_factor
    width_traces width_time_ms transition_mode align_traces align_time_ms
  = Ok r ->
  any_true (window_indices r) = false ->
  r = noop_result seismic_data.
Proof.
  intros H Hany. unfold amplifySeismicWindow in H.
  destruct seismic_data as [|[|x0 row0] rest]; [done|done|].
  set (data := (x0 :: row0) :: rest) in *.
  apply bind_Ok in H as (window & Hwin & H).
  destruct (decide (target_window = [])); [by injection H as <-|].
  destruct (any_true window) eqn:Ew; cbn [negb] in H;
    [|by injection H as <-].
  apply bind_Ok in H as (blend & Hblend & H).
  apply bind_Ok in H as (gain & Hgain & H).
  apply bind_Ok in H as (r' & Hr' & H). injection H as <-.
  cbn [window_indices] in Hany. congruence.
Qed.

Lemma createTransitionMask_hard_edge_witness :
  has_shape 2 2 right_column_hard
  /\ forall i j, i < 2 -> j < 2 ->
       exists b, cell right_column i j = Some b
                 /\ cell right_column_hard i j = Some (indicator b).
Proof.
  apply (createTransitionMask_hard_edge 2 2 right_column 0 f32_20 f32_2 INSIDE
           right_column_hard).
  - left. lia.
  - vm_compute. reflexivity.
Defined.

Lemma multiplier_of_zero (gain : float) :
  fl_finite (f32_sub gain f32_one) = true ->
  multiplier_of gain f32_zero = f32_one.
Proof.
  unfold multiplier_of. destruct (f32_sub gain f32_one) as [s|s| |s m e];
    try done; intros _; by destruct s.
Qed.

Lemma multiplier_of_one (w : float) :
  in_unit_interval w = true -> multiplier_of f32_one w = f32_one.
Proof.
  unfold multiplier_of. change (f32_sub f32_one f32_one) with (S754_zero false).
  destruct w as [s|s| |s m e]; try (by destruct s); try done.
Qed.

Lemma noop_cells (seismic_data : SeismicData) (i j : nat) :
  let n := length seismic_data in
  let m := length (default [] (head seismic_data)) in
  i < n -> j < m ->
  cell (multiplier_mask (noop_result seismic_data)) i j = Some f32_one
  /\ cell (window_indices (noop_result seismic_data)) i j = Some false.
Proof.
  intros n m Hi Hj. unfold noop_result. cbn [multiplier_mask window_indices].
  by rewrite !cell_grid.
Qed.

(** X23: with a hard edge (a transition width of zero or less) and a gain whose
    difference from 1 is finite, SCALE mode leaves every sample outside the
    window exactly as it was, with multiplier 1.0f. *)
Theorem amplify_hard_edge_outside (seismic_data : SeismicData) (dt_ms : float)
    (target_window : list Point) (scale_factor : float)
    (width_traces : Z) (width_time_ms : float) (transition_mode : TransitionMode)
    (align_traces : Z) (align_time_ms : float) (r : AmplifyResult)
    (i j : nat) (x : float) :
  (width_traces <= 0)%Z \/ fl_le width_time_ms f32_zero = true ->
  fl_finite (f32_sub scale_factor f32_one) = true ->
  amplifySeismicWindow seismic_data dt_ms target_window SCALE scale_factor
    width_traces width_time_ms transition_mode align_traces align_time_ms
  = Ok r ->
  cell seismic_data i j = Some x -> valid_binary 24 128 x = true ->
  cell (window_indices r) i j = Some false ->
  cell (multiplier_mask r) i j = Some f32_one
  /\ cell (output_data r) i j = Some x.
Proof.
  intros Hw Hfin H Hx Hv Hout.
  set (n := length seismic_data).
  set (m := length (default [] (head seismic_data))).
  destruct (any_true (window_indices r)) eqn:Hany.
  - destruct (amplify_gained _ _ _ _ _ _ _ _ _ _ r H Hany)
      as (blend & gain & Hwin & Hblend & Hgain & Hs1 & Hs2 & Hg).
    fold n m in Hwin, Hblend, Hs1, Hs2, Hg.
    injection Hgain as <-.
    apply createWindowMask_shape in Hwin.
    assert (Hij : i < n /\ j < m) by (apply (cell_is_Some n m _ i j Hwin); eauto).
    destruct Hij as [Hi Hj].
    destruct (hard_edge_cells _ _ _ _ _ _ _ _ Hw Hblend)
      as [_ Hb].
    destruct (Hb i j Hi Hj) as (b & Hb1 & Hb2).
    assert (b = false) as -> by congruence.
    destruct (Hg i j Hi Hj) as (w & x' & Hw' & Hx' & Hm & Ho).
    assert (w = f32_zero) as -> by (simpl in Hb2; congruence).
    assert (x' = x) as -> by congruence.
    rewrite multiplier_of_zero in Hm, Ho by done.
    rewrite f32_mul_one in Ho by done. done.
  - apply amplify_Ok_noop in H as ->; [|done].
    assert (Hij : i < n /\ j < m).
    { apply (cell_is_Some n m _ i j (has_shape_grid n m false)). eauto. }
    destruct Hij as [Hi Hj].
    destruct (noop_cells seismic_data i j Hi Hj) as [Hm _]. done.
Qed.

Lemma amplify_hard_edge_outside_witness :
  cell (multiplier_mask scenario_result) 1 3 = Some f32_one
  /\ cell (output_data scenario_result) 1 3 = Some f32_zero.
Proof.
  apply (amplify_hard_edge_outside scenario_data f32_2 scenario_window f32_2
           0 f32_zero INSIDE 0 f32_zero scenario_result 1 3 f32_zero).
  - left. lia.
  - reflexivity.
  - vm_compute. reflexivity.
  - reflexivity.
  - reflexivity.
  - reflexivity.
Defined.

(** X24: scaling by 1.0f with the transition outside the window changes nothing:
    every multiplier is 1.0f and every sample comes out as it went in. *)
Theorem amplify_unit_scale (seismic_data : SeismicData) (dt_ms : float)
    (target_window : list Point)
    (width_traces : Z) (width_time_ms : float)
    (align_traces : Z) (align_time_ms : float) (r : AmplifyResult)
    (i j : nat) (x : float) :
  amplifySeismicWindow seismic_data dt_ms target_window SCALE f32_one
    width_traces width_time_ms OUTSIDE align_traces align_time_ms
  = Ok r ->
  cell seismic_data i j = Some x -> valid_binary 24 128 x = true ->
  j < length (default [] (head seismic_data)) ->
  cell (multiplier_mask r) i j = Some f32_one
  /\ cell (output_data r) i j = Some x.
Proof.
  intros H Hx Hv Hj.
  set (n := length seismic_data).
  set (m := length (default [] (head seismic_data))) in *.
  assert (Hi : i < n).
  { unfold cell in Hx. destruct (seismic_data !! i) eqn:E; [|done].
    by apply lookup_lt_Some in E. }
  destruct (any_true (window_indices r)) eqn:Hany.
  - destruct (amplify_gained _ _ _ _ _ _ _ _ _ _ r H Hany)
      as (blend & gain & Hwin & Hblend & Hgain & Hs1 & Hs2 & Hg).
    fold n m in Hwin, Hblend, Hs1, Hs2, Hg.
    injection Hgain as <-.
    apply createTransitionMask_unit_outside in Hblend.
    destruct (Hg i j Hi Hj) as (w & x' & Hw' & Hx' & Hm & Ho).
    assert (x' = x) as -> by congruence.
    rewrite multiplier_of_one in Hm, Ho by (by eapply Hblend).
    rewrite f32_mul_one in Ho by done. done.
  - apply amplify_Ok_noop in H as ->; [|done].
    destruct (noop_cells seismic_data i j Hi Hj) as [Hm _]. done.
Qed.

Lemma amplify_unit_scale_witness :
  cell (multiplier_mask unit_scale_result) 1 1 = Some f32_one
  /\ cell (output_data unit_scale_result) 1 1 = Some f32_10.
Proof.
  apply (amplify_unit_scale scenario_data f32_2 scenario_window 5 f32_20
           10 (f32_of_int 50) unit_scale_result 1 1 f32_10).
  - vm_compute. reflexivity.
  - reflexivity.
  - reflexivity.
  - vm_compute. lia.
Defined.

(** X15: with the transition outside the window every blend weight lies in
    [[0, 1]], and the weight of every cell of the window is 1.0f. *)
Theorem createTransitionMask_outside (n m : nat) (window : BooleanMask)
    (width_traces : Z) (width_time_ms dt_ms : float) (mask : FloatMask) :
  createTransitionMask (n, m) window width_traces width_time_ms dt_ms OUTSIDE
  = Ok mask ->
  has_shape n m mask
  /\ (forall i j w, cell mask i j = Some w -> in_unit_interval w = true)
  /\ (forall i j, i < n -> j < m -> cell window i j = Some true ->
      cell mask i j = Some f32_one).
Proof.
  intros H. split; [by eapply createTransitionMask_shape|].
  split; [by eapply createTransitionMask_unit_outside|].
  revert H. unfold createTransitionMask. cbn [fst snd].
  destruct (_ || _).
  { intros H i j Hi Hj Hw.
    apply hard_mask_cells in H as [_ Hc]; [|apply has_shape_grid].
    destruct (Hc i j Hi Hj) as (b & Hb & Hm).
    assert (b = true) as -> by congruence. done. }
  intros H. apply bind_Ok in H as (inv & _ & H).
  apply bind_Ok in H as (dist & _ & H).
  intros i j Hi Hj Hw.
  cut (has_shape n m mask
       /\ forall i j, i < n -> j < m ->
            exists x, (cell window i j = Some true -> x = f32_one)
                      /\ cell mask i j = Some x).
  { intros [_ Hc]. destruct (Hc i j Hi Hj) as (x & Hx & ->). by rewrite Hx. }
  revert H.
  apply (nest_fills n m _
           (fun i j x => cell window i j = Some true -> x = f32_one));
    [|apply has_shape_grid].
  clear i j Hi Hj Hw. intros i j t t' Ht Hi Hj Hb.
  apply bind_Ok in Hb as (d & _ & Hb).
  apply bind_Ok in Hb as (b & Hwb & Hb). apply at2_Ok in Hwb.
  apply (assign2_Ok n m) in Hb as (_ & _ & Hs' & Hc); [|done].
  eexists. split; [|done]. intros Hw.
  assert (b = true) as -> by congruence. done.
Qed.

Lemma createTransitionMask_outside_witness :
  has_shape 2 2 right_column_outside
  /\ (forall i j w, cell right_column_outside i j = Some w ->
      in_unit_interval w = true)
  /\ (forall i j, i < 2 -> j < 2 -> cell right_column i j = Some true ->
      cell right_column_outside i j = Some f32_one).
Proof.
  apply (createTransitionMask_outside 2 2 right_column 5 f32_20 f32_2
           right_column_outside).
  vm_compute. reflexivity.
Defined.

Lemma int_min_comm a b : int_min a b = int_min b a.
Proof. rewrite !int_min_spec. lia. Qed.

Lemma int_max_comm a b : int_max a b = int_max b a.
Proof. rewrite !int_max_spec. lia. Qed.

Lemma float_to_int_no_throw x w : float_to_int x <> Throw w.
Proof.
  unfold float_to_int. destruct (fl_trunc x); [|done]. by destruct (in_int _).
Qed.

(** X17: the rectangle does not depend on the order of its two corners. *)
Theorem createWindowMask_corners_swap (shape : nat * nat) (p1 p2 : Point)
    (dt_ms : float) :
  createWindowMask shape [p1; p2] dt_ms = createWindowMask shape [p2; p1] dt_ms.
Proof.
  unfold createWindowMask.
  rewrite !decide_False by done. rewrite !decide_True by done.
  cbn [at_ lookup list_lookup bind].
  pose proof (float_to_int_no_throw (f32_div (time_ms p1) dt_ms)) as N1.
  pose proof (float_to_int_no_throw (f32_div (time_ms p2) dt_ms)) as N2.
  destruct (float_to_int (f32_div (time_ms p1) dt_ms)) as [s1|w|];
    [|by destruct (N1 w)|];
    destruct (float_to_int (f32_div (time_ms p2) dt_ms)) as [s2|w|];
    try done; try (by destruct (N2 w)).
  cbn [bind].
  by rewrite (int_min_comm (trace p1)), (int_max_comm (trace p1)),
    (int_min_comm s1), (int_max_comm s1).
Qed.

(** X16: the mask of a two-point window is true exactly on the box spanned by the
    two points, each bound clamped into the grid. *)
Theorem createWindowMask_rectangle_cells (n m : nat) (p1 p2 : Point)
    (dt_ms : float) (s1 s2 : Z) :
  0 < n -> 0 < m ->
  (Z.of_nat n <= INT_MAX)%Z -> (Z.of_nat m <= INT_MAX)%Z ->
  float_to_int (f32_div (time_ms p1) dt_ms) = Ok s1 ->
  float_to_int (f32_div (time_ms p2) dt_ms) = Ok s2 ->
  let clamp k x := Z.max 0 (Z.min (Z.of_nat k - 1) x) in
  exists mask,
    createWindowMask (n, m) [p1; p2] dt_ms = Ok mask
    /\ forall i j, i < n -> j < m ->
         cell mask i j
         = Some (bool_decide
             ((clamp n (Z.min (trace p1) (trace p2)) <= Z.of_nat i
               <= clamp n (Z.max (trace p1) (trace p2)))%Z
              /\ (clamp m (Z.min s1 s2) <= Z.of_nat j
                  <= clamp m (Z.max s1 s2))%Z)).
Proof.
  intros Hn Hm Hnx Hmx H1 H2 clamp.
  destruct (rectangle_mask_box n m p1 p2 dt_ms s1 s2 Hn Hm Hnx Hmx H1 H2)
    as (mask & Hmask & _ & Hc).
  exists mask. done.
Qed.

Lemma createWindowMask_rectangle_cells_witness :
  let clamp k x := Z.max 0 (Z.min (Z.of_nat k - 1) x) in
  exists mask,
    createWindowMask (5, 4) scenario_window f32_2 = Ok mask
    /\ forall i j, i < 5 -> j < 4 ->
         cell mask i j
         = Some (bool_decide
             ((clamp 5%nat (Z.min 1 3) <= Z.of_nat i
               <= clamp 5%nat (Z.max 1 3))%Z
              /\ (clamp 4%nat (Z.min 0 2) <= Z.of_nat j
                  <= clamp 4%nat (Z.max 0 2))%Z)).
Proof.
  apply (createWindowMask_rectangle_cells 5 4
           {| trace := 1; time_ms := f32_zero |}
           {| trace := 3; time_ms := f32_of_int 4 |} f32_2 0 2).
  - lia.
  - lia.
  - vm_compute. discriminate.
  - vm_compute. discriminate.
  - vm_compute. reflexivity.
  - vm_compute. reflexivity.
Defined.

Lemma polygon_intersections_flat (closed_polygon : list Point) (t : Z) :
  (forall p, p ∈ closed_polygon -> trace p = t) ->
  polygon_intersections closed_polygon t = Ok [].
Proof.
  intros Hall. unfold polygon_intersections.
  destruct (for_each_total (fun xs : list float => xs = [])
              (seq 0 (length closed_polygon - 1))
              (fun i intersections =>
    p1 <- at_ closed_polygon i ;;
    p2 <- at_ closed_polygon (i + 1) ;;
    let x1 := f32_of_int (trace p1) in
    let y1 := time_ms p1 in
    let x2 := f32_of_int (trace p2) in
    let y2 := time_ms p2 in
    if fl_ne x1 x2 then
      let t' := f32_div (f32_sub (f32_of_int t) x1) (f32_sub x2 x1) in
      if fl_le f32_zero t' && fl_le t' f32_one then
        let y_intersect := f32_add y1 (f32_mul t' (f32_sub y2 y1)) in
        Ok (intersections ++ [y_intersect])
      else Ok intersections
    else Ok intersections) [])
    as (r & Hr & ->); [|done|exact Hr].
  intros i xs Hi ->. apply elem_of_seq in Hi.
  destruct (lookup_lt_is_Some_2 closed_polygon i) as [p1 E1]; [lia|].
  destruct (lookup_lt_is_Some_2 closed_polygon (i + 1)) as [p2 E2]; [lia|].
  unfold at_. rewrite E1, E2. cbn [bind]. cbv zeta.
  rewrite (Hall p1), (Hall p2) by (by eapply list_elem_of_lookup_2).
  rewrite fl_ne_refl by apply fl_of_Z_not_nan. eauto.
Qed.

Lemma foldl_int_min_flat (l : list Point) (t : Z) :
  (forall p, p ∈ l -> trace p = t) ->
  foldl (fun acc point => int_min acc (trace point)) t l = t
  /\ foldl (fun acc point => int_max acc (trace point)) t l = t.
Proof.
  induction l as [|p l IH]; intros Hall; simpl; [done|].
  rewrite (Hall p) by constructor.
  rewrite int_min_spec, int_max_spec, Z.min_id, Z.max_id.
  apply IH. intros q Hq. apply Hall. by constructor.
Qed.

(** X18: a polygon whose vertices all lie on one trace selects no cell, and the
    engine returns the volume as it was. *)
Theorem createWindowMask_flat_polygon (n m : nat) (target_window : list Point)
    (dt_ms : float) (t : Z) :
  3 <= length target_window ->
  (forall p, p ∈ target_window -> trace p = t) -> (t < INT_MAX)%Z ->
  createWindowMask (n, m) target_window dt_ms = Ok (grid n m false)
  /\ forall seismic_data mode scale_factor width_traces width_time_ms
       transition_mode align_traces align_time_ms,
       n = length seismic_data ->
       m = length (default [] (head seismic_data)) -> 0 < n -> 0 < m ->
       amplifySeismicWindow seismic_data dt_ms target_window mode scale_factor
         width_traces width_time_ms transition_mode align_traces align_time_ms
       = Ok (noop_result seismic_data).
Proof.
  intros Hlen Hall Ht.
  assert (Hmask : createWindowMask (n, m) target_window dt_ms
                  = Ok (grid n m false)).
  { unfold createWindowMask. cbn [fst snd].
    destruct target_window as [|first rest] eqn:Ew; [simpl in Hlen; lia|].
    rewrite <- Ew in *.
    rewrite decide_False by (by rewrite Ew).
    rewrite decide_False by lia. rewrite decide_False by lia.
    assert (at_ target_window 0 = Ok first) as -> by (by rewrite Ew).
    cbn [bind].
    assert (Hf : trace first = t) by (apply Hall; rewrite Ew; constructor).
    rewrite Hf. destruct (foldl_int_min_flat target_window t Hall) as [-> ->].
    unfold for_int, int_range. replace (t - t + 1)%Z with 1%Z by lia.
    change (Z.to_nat 1) with 1. cbn [seq map for_each Z.of_nat].
    rewrite Z.add_0_r. rewrite polygon_intersections_flat.
    2:{ intros p Hp. apply elem_of_app in Hp as [Hp|Hp]; [by apply Hall|].
        apply list_elem_of_singleton in Hp as ->. done. }
    cbn [bind sort foldr]. unfold polygon_fill. cbn [length Nat.add].
    change ((0 + 1) / 2) with 0. cbn [seq map for_each bind].
    destruct (Z.eqb_spec t INT_MAX); [lia|]. by rewrite andb_false_r. }
  split; [done|].
  intros seismic_data mode scale_factor width_traces width_time_ms
    transition_mode align_traces align_time_ms -> -> Hn Hm.
  unfold amplifySeismicWindow.
  destruct seismic_data as [|[|x0 row0] rest]; [simpl in Hn; lia|simpl in Hm; lia|].
  set (data := (x0 :: row0) :: rest) in *.
  change (x0 :: row0) with (default [] (head data)).
  rewrite Hmask. cbn [bind].
  destruct (decide (target_window = [])); [done|].
  by rewrite any_true_grid_false.
Qed.

Lemma createWindowMask_flat_polygon_witness :
  createWindowMask (5, 4) flat_polygon f32_2 = Ok (grid 5 4 false)
  /\ forall seismic_data mode scale_factor width_traces width_time_ms
       transition_mode align_traces align_time_ms,
       5 = length seismic_data ->
       4 = length (default [] (head seismic_data)) -> 0 < 5 -> 0 < 4 ->
       amplifySeismicWindow seismic_data f32_2 flat_polygon mode scale_factor
         width_traces width_time_ms transition_mode align_traces align_time_ms
       = Ok (noop_result seismic_data).
Proof.
  apply (createWindowMask_flat_polygon 5 4 flat_polygon f32_2 1).
  - vm_compute. lia.
  - intros p Hp. repeat (apply elem_of_cons in Hp as [->|Hp]; [reflexivity|]).
    by apply elem_of_nil in Hp.
  - vm_compute. reflexivity.
Defined.

Lemma size_min_spec a b : size_min a b = Nat.min a b.
Proof. unfold size_min. destruct (Nat.ltb_spec b a); lia. Qed.

Lemma size_max_spec a b : size_max a b = Nat.max a b.
Proof. unfold size_max. destruct (Nat.ltb_spec a b); lia. Qed.

Lemma boundaries_step (mask : BooleanMask) (n m0 k l : nat) acc (b : bool) :
  k < n -> l < m0 -> cell mask k l = Some b ->
  boundaries_so_far mask n m0 k l acc ->
  boundaries_so_far mask n m0 k (S l)
    (if b then
       let '(min_trace, max_trace, min_sample, max_sample) := acc.2 in
       (true, (size_min min_trace k, size_max max_trace k,
               size_min min_sample l, size_max max_sample l))
     else acc).
Proof.
  intros Hk Hl Hb. destruct acc as [found [[[a b0] c] d]].
  unfold boundaries_so_far. cbn [snd].
  rewrite !size_min_spec, !size_max_spec.
  assert (Hs : forall i j, scanned k (S l) i j <->
                           scanned k l i j \/ (i = k /\ j = l))
    by (unfold scanned; lia).
  destruct b.
  - destruct found.
    + intros (Hall & (ja & Ha1 & Ha2) & (jb & Hb1 & Hb2) & (ic & Hc1 & Hc2)
              & (id' & Hd1 & Hd2)).
      split; [|split; [|split; [|split]]].
      * intros i j Hij Ht. apply Hs in Hij as [Hij|[-> ->]]; [|lia].
        specialize (Hall i j Hij Ht). lia.
      * destruct (Nat.min_spec a k) as [[? ->]|[? ->]].
        -- exists ja. split; [apply Hs; by left|done].
        -- exists l. split; [apply Hs; by right|done].
      * destruct (Nat.max_spec b0 k) as [[? ->]|[? ->]].
        -- exists l. split; [apply Hs; by right|done].
        -- exists jb. split; [apply Hs; by left|done].
      * destruct (Nat.min_spec c l) as [[? ->]|[? ->]].
        -- exists ic. split; [apply Hs; by left|done].
        -- exists k. split; [apply Hs; by right|done].
      * destruct (Nat.max_spec d l) as [[? ->]|[? ->]].
        -- exists k. split; [apply Hs; by right|done].
        -- exists id'. split; [apply Hs; by left|done].
    + intros [Hnone [= -> -> -> ->]].
      rewrite (Nat.min_r n k), (Nat.max_r 0 k), (Nat.min_r m0 l),
        (Nat.max_r 0 l) by lia.
      split; [|split; [|split; [|split]]].
      * intros i j Hij Ht. apply Hs in Hij as [Hij|[-> ->]]; [|lia].
        by destruct (Hnone i j Hij).
      * exists l. split; [apply Hs; by right|done].
      * exists l. split; [apply Hs; by right|done].
      * exists k. split; [apply Hs; by right|done].
      * exists k. split; [apply Hs; by right|done].
  - destruct found.
    + intros (Hall & (ja & Ha1 & Ha2) & (jb & Hb1 & Hb2) & (ic & Hc1 & Hc2)
              & (id' & Hd1 & Hd2)).
      split; [|split; [|split; [|split]]].
      * intros i j Hij Ht. apply Hs in Hij as [Hij|[-> ->]]; [eauto|congruence].
      * exists ja. split; [apply Hs; by left|done].
      * exists jb. split; [apply Hs; by left|done].
      * exists ic. split; [apply Hs; by left|done].
      * exists id'. split; [apply Hs; by left|done].
    + intros [Hnone Heq]. split; [|done].
      intros i j Hij. apply Hs in Hij as [Hij|[-> ->]]; [eauto|congruence].
Qed.

Lemma boundaries_next_row (mask : BooleanMask) (n m k : nat) acc :
  has_shape n m mask ->
  boundaries_so_far mask n m k m acc ->
  boundaries_so_far mask n m (S k) 0 acc.
Proof.
  intros Hs. destruct acc as [found [[[a b] c] d]].
  unfold boundaries_so_far.
  assert (Hsc : forall i j, scanned k m i j -> scanned (S k) 0 i j)
    by (unfold scanned; lia).
  assert (Hcs : forall i j, scanned (S k) 0 i j -> is_Some (cell mask i j) ->
                            scanned k m i j).
  { intros i j Hij Hc. apply (cell_is_Some n m) in Hc; [|done].
    unfold scanned in *. lia. }
  destruct found.
  - intros (Hall & (ja & Ha1 & Ha2) & (jb & Hb1 & Hb2) & (ic & Hc1 & Hc2)
            & (id' & Hd1 & Hd2)).
    split; [|split; [|split; [|split]]].
    + intros i j Hij Ht. apply Hall; [|done]. apply Hcs; eauto.
    + exists ja. auto.
    + exists jb. auto.
    + exists ic. auto.
    + exists id'. auto.
  - intros [Hnone Heq]. split; [|done].
    intros i j Hij Ht. apply (Hnone i j); [|done]. apply Hcs; eauto.
Qed.

(** X20: on a mask of [n] traces of [m] samples [findMaskBoundaries] returns
    [(0, 0, 0, 0)] when no cell is true, and otherwise the tight bounding box
    of the true cells: every true cell lies within the four bounds, and each
    bound is reached by a true cell. *)
Theorem findMaskBoundaries_box (n m : nat) (mask : BooleanMask) :
  has_shape n m mask ->
  exists a b c d,
    findMaskBoundaries mask = Ok (a, b, c, d)
    /\ (no_true_cell mask -> (a, b, c, d) = (0, 0, 0, 0))
    /\ (forall i j, cell mask i j = Some true -> a <= i <= b /\ c <= j <= d)
    /\ ((exists i j, cell mask i j = Some true) ->
        (exists j, cell mask a j = Some true)
        /\ (exists j, cell mask b j = Some true)
        /\ (exists i, cell mask i c = Some true)
        /\ (exists i, cell mask i d = Some true)).
Proof.
  intros Hs. pose proof Hs as [Hn Hrows].
  assert (Hempty : m = 0 \/ n = 0 -> no_true_cell mask).
  { intros H i j Hc.
    assert (is_Some (cell mask i j)) as Hsome by eauto.
    apply (cell_is_Some n m) in Hsome; [|done]. lia. }
  unfold findMaskBoundaries.
  destruct mask as [|row0 rest] eqn:Em.
  { exists 0, 0, 0, 0. split; [done|]. split; [done|].
    split; [intros i j Hc|intros (i & j & Hc)]; by destruct i. }
  rewrite <- Em in *.
  assert (Hr0 : length row0 = m).
  { rewrite Forall_lookup in Hrows. apply (Hrows 0). by rewrite Em. }
  destruct row0 as [|b0 row0'] eqn:Er.
  { simpl in Hr0. subst m.
    exists 0, 0, 0, 0. split; [done|]. split; [done|].
    split; [intros i j Hc|intros (i & j & Hc)];
      by destruct (Hempty ltac:(by left) i j). }
  rewrite <- Er in *. cbv zeta. rewrite Hn, Hr0.
  destruct (for_each_counted_total
              (fun k acc => boundaries_so_far mask n m k 0 acc)
              (seq 0 n)
              (fun i acc =>
                 row <- at_ mask i ;;
                 for_each (seq 0 (length row))
                   (fun j (acc : bool * (nat * nat * nat * nat)) =>
                      b <- at2 mask i j ;;
                      if b : bool then
                        let '(min_trace, max_trace, min_sample, max_sample)
                          := acc.2 in
                        Ok (true, (size_min min_trace i, size_max max_trace i,
                                   size_min min_sample j,
                                   size_max max_sample j))
                      else Ok acc)
                   acc)
              (false, (n, 0, m, 0))) as (acc & Hacc & Hinv).
  - intros k i acc Hk Hacc. apply seq_lookup_eq in Hk as [-> Hk].
    destruct (lookup_lt_is_Some_2 mask k) as [row Erow]; [lia|].
    assert (Hlen : length row = m).
    { rewrite Forall_lookup in Hrows. by apply (Hrows k). }
    unfold at_ at 1. rewrite Erow. cbn [bind]. rewrite Hlen.
    destruct (for_each_counted_total
                (fun l acc => boundaries_so_far mask n m k l acc)
                (seq 0 m)
                (fun j (acc : bool * (nat * nat * nat * nat)) =>
                   b <- at2 mask k j ;;
                   if b : bool then
                     let '(min_trace, max_trace, min_sample, max_sample)
                       := acc.2 in
                     Ok (true, (size_min min_trace k, size_max max_trace k,
                                size_min min_sample j, size_max max_sample j))
                   else Ok acc)
                acc) as (acc' & Hacc' & Hinv'); [|done|].
    + intros l j t Hl Ht. apply seq_lookup_eq in Hl as [-> Hl].
      destruct (at2_total n m mask k l Hs Hk Hl) as [b Hb]. rewrite Hb.
      cbn [bind]. apply at2_Ok in Hb.
      pose proof (boundaries_step mask n m k l t b Hk Hl Hb Ht) as Hstep.
      destruct b; [|eauto].
      destruct t as [found [[[a b] c] d]]. cbn [snd] in *. eauto.
    + rewrite length_seq in Hinv'. exists acc'. split; [done|].
      by apply boundaries_next_row.
  - split; [|done]. unfold scanned. intros i j Hij. lia.
  - rewrite length_seq in Hinv. rewrite Hacc. cbn [bind].
    destruct acc as [found [[[a b] c] d]]. cbn [fst snd negb].
    unfold boundaries_so_far in Hinv.
    assert (Hall : forall i j, is_Some (cell mask i j) -> scanned n 0 i j).
    { intros i j Hc. apply (cell_is_Some n m) in Hc; [|done].
      unfold scanned. lia. }
    destruct found; cbn [negb].
    + destruct Hinv as (Hin & (ja & _ & Ha) & (jb & _ & Hb) & (ic & _ & Hc)
                        & (id' & _ & Hd)).
      exists a, b, c, d. split; [done|]. split.
      { intros Hnone. by destruct (Hnone a ja). }
      split; [intros i j Ht; apply Hin; [|done]; apply Hall; eauto|].
      intros _. repeat split; eauto.
    + destruct Hinv as [Hnone _].
      exists 0, 0, 0, 0. split; [done|]. split; [done|].
      split; [intros i j Hc|intros (i & j & Hc)];
        destruct (Hnone i j); try done; apply Hall; eauto.
Qed.

Lemma findMaskBoundaries_box_witness :
  exists a b c d,
    findMaskBoundaries (window_indices scenario_result) = Ok (a, b, c, d)
    /\ (no_true_cell (window_indices scenario_result) ->
        (a, b, c, d) = (0, 0, 0, 0))
    /\ (forall i j, cell (window_indices scenario_result) i j = Some true ->
        a <= i <= b /\ c <= j <= d)
    /\ ((exists i j, cell (window_indices scenario_result) i j = Some true) ->
        (exists j, cell (window_indices scenario_result) a j = Some true)
        /\ (exists j, cell (window_indices scenario_result) b j = Some true)
        /\ (exists i, cell (window_indices scenario_result) i c = Some true)
        /\ (exists i, cell (window_indices scenario_result) i d = Some true)).
Proof.
  apply (findMaskBoundaries_box 5 4 (window_indices scenario_result)).
  split; [reflexivity|]. repeat constructor.
Defined.

Lemma forward_cell_writes n m ts tm i j g g' :
  has_shape n m g -> forward_cell ts tm i j g = Ok g' ->
  has_shape n m g'
  /\ forall i' j', ~ (i' = i /\ j' = j) -> cell g' i' j' = cell g i' j'.
Proof.
  intros Hs H. unfold forward_cell in H. inv_bind H.
  apply (assign2_Ok n m) in H as (_ & _ & Hs' & Hc); [|done].
  split; [done|]. intros i' j' Hne. rewrite Hc. by rewrite decide_False.
Qed.

Lemma backward_cell_writes n m nt ns ts tm i j g g' :
  has_shape n m g -> backward_cell nt ns ts tm i j g = Ok g' ->
  has_shape n m g'
  /\ forall i' j', ~ (Z.of_nat i' = i /\ Z.of_nat j' = j) ->
       cell g' i' j' = cell g i' j'.
Proof.
  intros Hs H. unfold backward_cell in H. inv_bind H.
  apply (assign2_int_Ok n m) in H as (_ & _ & Hs' & Hc); [|done].
  split; [done|]. intros i' j' Hne. rewrite Hc. by rewrite decide_False.
Qed.

(** X12: the distance map is 0.0f at every cell that the mask leaves out: the two
    passes change cells of the mask only. *)
Theorem distanceTransformEDT_background (n m : nat) (binary_mask : BooleanMask)
    (sampling : list float) (distance_map : FloatMask) (i j : nat) :
  has_shape n m binary_mask ->
  distanceTransformEDT binary_mask sampling = Ok distance_map ->
  cell binary_mask i j = Some false ->
  cell distance_map i j = Some f32_zero.
Proof.
  intros Hs H Hij. pose proof Hs as [Hlen Hrows].
  assert (Hin : i < n /\ j < m) by (apply (cell_is_Some n m _ i j Hs); eauto).
  destruct Hin as [Hi Hj].
  unfold distanceTransformEDT in H.
  destruct binary_mask as [|row0 rest] eqn:Eb; [simpl in Hlen; lia|].
  rewrite <- Eb in *.
  assert (Hr0 : length row0 = m).
  { rewrite Forall_lookup in Hrows. apply (Hrows 0). by rewrite Eb. }
  destruct row0 as [|b0 row0']; [simpl in Hr0; lia|].
  rewrite Hlen, Hr0 in H.
  apply bind_Ok in H as (g1 & H1 & H).
  apply bind_Ok in H as (ts & _ & H).
  apply bind_Ok in H as (tm & _ & H).
  apply bind_Ok in H as (g2 & H2 & H).
  pose (P := fun g : FloatMask =>
    has_shape n m g
    /\ forall i j, cell binary_mask i j = Some false ->
         cell g i j = Some f32_zero).
  assert (P1 : P g1).
  { cut (has_shape n m g1
         /\ forall i j, i < n -> j < m ->
              exists x, (cell binary_mask i j = Some false -> x = f32_zero)
                        /\ cell g1 i j = Some x).
    { intros [S1 C1]. split; [done|]. intros i' j' Hf.
      assert (Hin : i' < n /\ j' < m)
        by (apply (cell_is_Some n m _ i' j' Hs); eauto).
      destruct (C1 i' j') as (x & Hx & ->); [tauto..|]. by rewrite Hx. }
    revert H1.
    apply (nest_fills n m _
             (fun i j x => cell binary_mask i j = Some false -> x = f32_zero));
      [|apply has_shape_grid].
    intros i' j' g g' Hg Hi' Hj' Hb. apply bind_Ok in Hb as (b & Hb & Hg').
    apply at2_Ok in Hb. destruct b; cbn [negb] in Hg'.
    - injection Hg' as <-.
      destruct (proj2 (cell_is_Some n m g i' j' Hg) (conj Hi' Hj')) as [x Hx].
      exists x. split; [congruence|]. split; [done|].
      intros i'' j''. destruct (decide _) as [[-> ->]|]; done.
    - apply (assign2_Ok n m) in Hg' as (_ & _ & Hs' & Hc); [|done].
      exists f32_zero. done. }
  assert (P2 : P g2).
  { revert H2. apply nest_invariant; [|exact P1].
    intros i' j' g g' [Hg Hz] Hb. apply bind_Ok in Hb as (b & Hb & Hg').
    apply at2_Ok in Hb. destruct b; [|by injection Hg' as <-].
    apply (forward_cell_writes n m) in Hg' as [Hs' Hc]; [|done].
    split; [done|]. intros i'' j'' Hf. rewrite Hc; [by apply Hz|].
    intros [-> ->]. congruence. }
  assert (P3 : P distance_map).
  { revert H. apply nest_invariant; [|exact P2].
    intros i' j' g g' [Hg Hz] Hb. apply bind_Ok in Hb as (b & Hb & Hg').
    apply at2_int_Ok in Hb as (Hi0 & Hj0 & Hb).
    destruct b; [|by injection Hg' as <-].
    apply (backward_cell_writes n m) in Hg' as [Hs' Hc]; [|done].
    split; [done|]. intros i'' j'' Hf. rewrite Hc; [by apply Hz|].
    intros [<- <-]. rewrite !Nat2Z.id in Hb. congruence. }
  destruct P3 as [_ Hz]. by apply Hz.
Qed.

Lemma distanceTransformEDT_background_witness :
  cell right_column_distances 1 0 = Some f32_zero.
Proof.
  apply (distanceTransformEDT_background 2 2 right_column [f32_one; f32_one]
           right_column_distances 1 0).
  - split; [reflexivity|]. repeat constructor.
  - vm_compute. reflexivity.
  - reflexivity.
Defined.

Lemma no_throw_Ok {A} (a : A) : no_throw (Ok a).
Proof. done. Qed.

Lemma no_throw_Undefined {A} : no_throw (@Undefined A).
Proof. done. Qed.

Lemma no_throw_bind {A B} (c : outcome A) (k : A -> outcome B) :
  no_throw c -> (forall a, no_throw (k a)) -> no_throw (bind c k).
Proof.
  intros Hc Hk w. destruct c as [a|w'|]; simpl; [apply Hk|by destruct (Hc w')|done].
Qed.

Lemma no_throw_for_each {X St} (l : list X) (body : X -> St -> outcome St)
    (s : St) :
  (forall i s, no_throw (body i s)) -> no_throw (for_each l body s).
Proof.
  intros Hb. revert s. induction l as [|i l IH]; intros s; simpl; [done|].
  apply no_throw_bind; [apply Hb|apply IH].
Qed.

Lemma no_throw_for_int {St} (lo hi : Z) (body : Z -> St -> outcome St)
    (s : St) :
  (forall i s, no_throw (body i s)) -> no_throw (for_int lo hi body s).
Proof.
  intros Hb. unfold for_int. apply no_throw_bind; [by apply no_throw_for_each|].
  intros s'. by destruct (_ && _).
Qed.

Lemma no_throw_at {A} (v : list A) i : no_throw (at_ v i).
Proof. intros w. apply at_no_throw. Qed.

Lemma no_throw_assign {A} (v : list A) i x : no_throw (assign v i x).
Proof. unfold assign. by destruct (decide _). Qed.

Lemma no_throw_index (i : Z) : no_throw (index_of_int i).
Proof. unfold index_of_int. by destruct (_ <? _)%Z. Qed.

Lemma no_throw_checked z : no_throw (checked z).
Proof. unfold checked. by destruct (in_int z). Qed.

Lemma no_throw_float_to_int x : no_throw (float_to_int x).
Proof. intros w. apply float_to_int_no_throw. Qed.

Ltac no_throw_step :=
  first
    [ apply no_throw_Ok | apply no_throw_Undefined
    | apply no_throw_at | apply no_throw_assign | apply no_throw_index
    | apply no_throw_checked | apply no_throw_float_to_int
    | apply no_throw_bind; [|intros ?]
    | apply no_throw_for_each; intros ? ?
    | apply no_throw_for_int; intros ? ?
    | match goal with
      | |- no_throw (if ?b then _ else _) => destruct b
      | |- no_throw (match ?x with (_, _) => _ end) => destruct x
      | |- no_throw (let '( _, _) := ?x in _) => destruct x
      end ].

Ltac no_throw := repeat no_throw_step.

Lemma no_throw_at2 {A} (g : list (list A)) i j : no_throw (at2 g i j).
Proof. unfold at2. no_throw. Qed.

Lemma no_throw_assign2 {A} (g : list (list A)) i j x : no_throw (assign2 g i j x).
Proof. unfold assign2. no_throw. Qed.

Lemma no_throw_at2_int {A} (g : list (list A)) i j : no_throw (at2_int g i j).
Proof. unfold at2_int. no_throw. Qed.

Lemma no_throw_assign2_int {A} (g : list (list A)) i j x :
  no_throw (assign2_int g i j x).
Proof. unfold assign2_int. no_throw. Qed.

Ltac no_throw_grid :=
  repeat first
    [ no_throw_step
    | apply no_throw_at2 | apply no_throw_assign2
    | apply no_throw_at2_int | apply no_throw_assign2_int ].

Lemma no_throw_clamp n x : no_throw (clamp_index n x).
Proof. unfold clamp_index, int_sub. no_throw. Qed.

Lemma no_throw_EDT mask sampling : no_throw (distanceTransformEDT mask sampling).
Proof.
  unfold distanceTransformEDT. destruct mask as [|[|b row] rest]; [done..|].
  unfold forward_cell, backward_cell, int_sub, int_add. no_throw_grid.
Qed.

Lemma no_throw_createTransitionMask shape window wt wtime dt mode :
  no_throw (createTransitionMask shape window wt wtime dt mode).
Proof.
  unfold createTransitionMask, hard_mask.
  destruct (_ || _); [no_throw_grid|].
  destruct mode; no_throw_grid; apply no_throw_EDT.
Qed.

Lemma no_throw_createWindowMask shape window dt :
  no_throw (createWindowMask shape window dt).
Proof.
  unfold createWindowMask, polygon_intersections, polygon_fill.
  no_throw_grid; apply no_throw_clamp.
Qed.

Lemma no_throw_calculateRMS data mask : no_throw (calculateRMS data mask).
Proof.
  unfold calculateRMS, int_add. destruct data as [|[|x row] rest]; [done..|].
  no_throw_grid.
Qed.

Lemma no_throw_target_amplification data dt window mode scale at_ atime :
  no_throw (target_amplification data dt window mode scale at_ atime).
Proof.
  unfold target_amplification, window_aabb, int_sub, int_add.
  destruct mode; [done|].
  no_throw_grid; apply no_throw_calculateRMS.
Qed.

Lemma no_throw_apply_gain n m data blend gain result :
  no_throw (apply_gain n m data blend gain result).
Proof. unfold apply_gain. no_throw_grid. Qed.

(** X21: the engine throws for an empty volume and for nothing else: when the
    volume has no trace or its first trace has no sample, and then with the
    message "Seismic data is empty". *)
Theorem amplifySeismicWindow_throws (seismic_data : SeismicData)
    (dt_ms : float) (target_window : list Point) (mode : ProcessingMode)
    (scale_factor : float) (width_traces : Z) (width_time_ms : float)
    (transition_mode : TransitionMode) (align_traces : Z)
    (align_time_ms : float) (what : string) :
  amplifySeismicWindow seismic_data dt_ms target_window mode scale_factor
    width_traces width_time_ms transition_mode align_traces align_time_ms
  = Throw what
  <-> (seismic_data = [] \/ head seismic_data = Some [])
      /\ what = "Seismic data is empty"%string.
Proof.
  unfold amplifySeismicWindow.
  destruct seismic_data as [|[|x0 row0] rest].
  - split; [intros [= <-]; by auto|]. by intros [_ ->].
  - split; [intros [= <-]; by auto|]. by intros [_ ->].
  - split; [|intros [[|] _]; done].
    intros H. exfalso. revert H.
    generalize what. change (no_throw ?c) with (forall what, c <> Throw what).
    cbv zeta.
    apply no_throw_bind; [apply no_throw_createWindowMask|]. intros window.
    destruct (decide _); [done|]. destruct (negb _); [done|].
    apply no_throw_bind; [apply no_throw_createTransitionMask|]. intros blend.
    apply no_throw_bind; [apply no_throw_target_amplification|]. intros gain.
    apply no_throw_bind; [apply no_throw_apply_gain|]. done.
Qed.

(** X13: on a mask of [n] traces of [m] samples, with [n] and [m] within [int],
    neither [distanceTransformEDT] nor [createTransitionMask] reads or writes
    out of range or overflows: both return. *)
Theorem transition_masks_return (n m : nat) (mask : BooleanMask)
    (trace_sampling time_sampling : float)
    (width_traces : Z) (width_time_ms dt_ms : float) (mode : TransitionMode) :
  (Z.of_nat n <= INT_MAX)%Z -> (Z.of_nat m <= INT_MAX)%Z ->
  has_shape n m mask ->
  (exists distance_map,
     distanceTransformEDT mask [trace_sampling; time_sampling]
     = Ok distance_map)
  /\ (exists weights,
        createTransitionMask (n, m) mask width_traces width_time_ms dt_ms mode
        = Ok weights).
Proof.
  intros Hn Hm Hs. split.
  - destruct (distances_there n m mask trace_sampling time_sampling Hn Hm Hs)
      as (d & Hd & _). eauto.
  - by apply createTransitionMask_total.
Qed.

Lemma transition_masks_return_witness :
  (exists distance_map,
     distanceTransformEDT right_column [f32_one; f32_one] = Ok distance_map)
  /\ (exists weights,
        createTransitionMask (2, 2) right_column 5 f32_20 f32_2 INSIDE
        = Ok weights).
Proof.
  apply (transition_masks_return 2 2 right_column f32_one f32_one 5 f32_20
           f32_2 INSIDE).
  - vm_compute. discriminate.
  - vm_compute. discriminate.
  - split; [reflexivity|]. repeat constructor.
Defined.

(** X22: a rectangle selection in SCALE mode always goes through: on a volume of
    [n > 0] traces of [m > 0] samples each, with [n] and [m] within [int],
    [amplifySeismicWindow] returns a result when the two corner times divided
    by [dt_ms] convert to [int]. *)
Theorem amplify_scale_rectangle_returns (seismic_data : SeismicData)
    (dt_ms : float) (p1 p2 : Point) (scale_factor : float)
    (width_traces : Z) (width_time_ms : float) (transition_mode : TransitionMode)
    (align_traces : Z) (align_time_ms : float) (s1 s2 : Z) :
  let n := length seismic_data in
  let m := length (default [] (head seismic_data)) in
  0 < n -> 0 < m ->
  (Z.of_nat n <= INT_MAX)%Z -> (Z.of_nat m <= INT_MAX)%Z ->
  has_shape n m seismic_data ->
  float_to_int (f32_div (time_ms p1) dt_ms) = Ok s1 ->
  float_to_int (f32_div (time_ms p2) dt_ms) = Ok s2 ->
  exists r,
    amplifySeismicWindow seismic_data dt_ms [p1; p2] SCALE scale_factor
      width_traces width_time_ms transition_mode align_traces align_time_ms
    = Ok r.
Proof.
  intros n m Hn Hm Hnx Hmx Hs H1 H2.
  destruct (rectangle_mask_box n m p1 p2 dt_ms s1 s2 Hn Hm Hnx Hmx H1 H2)
    as (mask & Hmask & _).
  by eapply amplify_scale_returns.
Qed.

Lemma amplify_scale_rectangle_returns_witness :
  exists r,
    amplifySeismicWindow scenario_data f32_2 scenario_window SCALE f32_2
      5 f32_20 INSIDE 10 (f32_of_int 50)
    = Ok r.
Proof.
  apply (amplify_scale_rectangle_returns scenario_data f32_2
           {| trace := 1; time_ms := f32_zero |}
           {| trace := 3; time_ms := f32_of_int 4 |}
           f32_2 5 f32_20 INSIDE 10 (f32_of_int 50) 0 2).
  - vm_compute. lia.
  - vm_compute. lia.
  - vm_compute. discriminate.
  - vm_compute. discriminate.
  - split; [reflexivity|]. repeat constructor.
  - vm_compute. reflexivity.
  - vm_compute. reflexivity.
Defined.

(** X19: on a volume and a mask of [n] traces of [m] samples with at most
    [INT_MAX] cells [calculateRMS] returns (the count of selected cells fits
    its [int]), and it returns 0.0f when the mask selects no cell. *)
Theorem calculateRMS_returns (n m : nat) (data : SeismicData)
    (mask : BooleanMask) :
  has_shape n m data -> has_shape n m mask ->
  (Z.of_nat (n * m) <= INT_MAX)%Z ->
  (exists rms, calculateRMS data mask = Ok rms)
  /\ (no_true_cell mask -> calculateRMS data mask = Ok f32_zero).
Proof.
  intros Hd Hm Hfit. pose proof Hd as [Hn Hrows].
  unfold calculateRMS.
  destruct data as [|row0 rest] eqn:Ed; [by eauto|].
  destruct row0 as [|x0 row0'] eqn:Er; [by eauto|].
  rewrite <- Er, <- Ed in *. rewrite Hn.
  pose (Inv := fun (k l : nat) (acc : double * Z) =>
    (0 <= acc.2 <= Z.of_nat (k * m + l))%Z
    /\ (no_true_cell mask -> acc = (f64_zero, 0%Z))).
  destruct (for_each_counted_total (fun k => Inv k 0) (seq 0 n)
    (fun i acc =>
       row <- at_ data i ;;
       for_each (seq 0 (length row)) (fun j (acc : double * Z) =>
         b <- at2 mask i j ;;
         if b : bool then
           x <- at2 data i j ;;
           count <- int_add acc.2 1 ;;
           Ok (f64_add acc.1 (f64_of_float (f32_mul x x)), count)
         else Ok acc)
         acc)
    (f64_zero, 0%Z)) as (acc & Hacc & [Hc Hz]).
  - intros k i acc Hk HI. apply seq_lookup_eq in Hk as [-> Hk].
    destruct (lookup_lt_is_Some_2 data k) as [row Erow]; [lia|].
    assert (Hlen : length row = m).
    { rewrite Forall_lookup in Hrows. by apply (Hrows k). }
    unfold at_ at 1. rewrite Erow. cbn [bind]. rewrite Hlen.
    destruct (for_each_counted_total (fun l => Inv k l) (seq 0 m)
      (fun j (acc : double * Z) =>
         b <- at2 mask k j ;;
         if b : bool then
           x <- at2 data k j ;;
           count <- int_add acc.2 1 ;;
           Ok (f64_add acc.1 (f64_of_float (f32_mul x x)), count)
         else Ok acc)
      acc) as (acc' & Hacc' & [Hc' Hz']); [|done|].
    + intros l j t Hl [Hc Hz]. apply seq_lookup_eq in Hl as [-> Hl].
      destruct (at2_total n m mask k l Hm Hk Hl) as [b Hb]. rewrite Hb.
      cbn [bind]. apply at2_Ok in Hb. destruct b.
      * destruct (at2_total n m data k l Hd Hk Hl) as [x Hx]. rewrite Hx.
        cbn [bind]. rewrite int_add_Ok by (unfold INT_MIN, INT_MAX in *; nia).
        cbn [bind]. eexists. split; [done|]. split; [cbn [snd]; lia|].
        intros Hnone. by destruct (Hnone k l).
      * exists t. split; [done|]. split; [lia|done].
    + rewrite length_seq in Hc'. exists acc'. split; [done|].
      split; [cbn; lia|done].
  - split; [simpl; lia|done].
  - rewrite Hacc. cbn [bind]. split.
    + destruct (acc.2 =? 0)%Z; eauto.
    + intros Hnone. by rewrite (Hz Hnone).
Qed.

Lemma calculateRMS_returns_witness :
  (exists rms, calculateRMS scenario_data (window_indices scenario_result)
               = Ok rms)
  /\ (no_true_cell (window_indices scenario_result) ->
      calculateRMS scenario_data (window_indices scenario_result)
      = Ok f32_zero).
Proof.
  apply (calculateRMS_returns 5 4 scenario_data (window_indices scenario_result)).
  - split; [reflexivity|]. repeat constructor.
  - split; [reflexivity|]. repeat constructor.
  - vm_compute. discriminate.
Defined.
End EngineEdgeFacts.

(** ** The history of the main window *)

Section HistoryFacts.
Import Canvas App.

Lemma updateUndoRedoButtons_Ok (a : SeismicApp) :
  (0 <= m_historyIndex a < size a)%Z ->
  updateUndoRedoButtons a
  = Ok {| m_originalData := m_originalData a; m_currentData := m_currentData a;
          m_history := m_history a; m_historyIndex := m_historyIndex a;
          m_lastSelectedPoints := m_lastSelectedPoints a;
          m_canvas := m_canvas a;
          m_undoBtn := (0 <? m_historyIndex a)%Z;
          m_redoBtn := (m_historyIndex a <? size a - 1)%Z |}.
Proof.
  intros Hi. unfold updateUndoRedoButtons, updateHistoryInfo. cbv zeta.
  cbn [m_history m_historyIndex]. unfold size in *. cbn [m_history].
  destruct (lookup_lt_is_Some_2 (m_history a) (Z.to_nat (m_historyIndex a)))
    as [e He]; [lia|].
  unfold index_of_int. destruct (Z.ltb_spec (m_historyIndex a) 0); [lia|].
  cbn [bind]. unfold at_. rewrite He. cbn [bind].
  by destruct (_ && _).
Qed.

Lemma show_entry_Ok (i : Z) (a : SeismicApp) :
  (0 <= i < size a)%Z ->
  exists e, m_history a !! Z.to_nat i = Some e
    /\ show_entry i a
       = Ok {| m_originalData := m_originalData a; m_currentData := data e;
               m_history := m_history a; m_historyIndex := i;
               m_lastSelectedPoints := m_lastSelectedPoints a;
               m_canvas := updateProcessedData (data e) (m_canvas a);
               m_undoBtn := m_undoBtn a; m_redoBtn := m_redoBtn a |}.
Proof.
  intros Hi. unfold size in Hi.
  destruct (lookup_lt_is_Some_2 (m_history a) (Z.to_nat i)) as [e He]; [lia|].
  exists e. split; [done|]. unfold show_entry, index_of_int.
  destruct (Z.ltb_spec i 0); [lia|]. cbn [bind]. unfold at_. rewrite He.
  reflexivity.
Qed.

Lemma undoAction_Ok (a : SeismicApp) :
  history_ok a -> (0 < m_historyIndex a)%Z ->
  exists e, m_history a !! Z.to_nat (m_historyIndex a - 1) = Some e
    /\ undoAction a
       = Ok {| m_originalData := m_originalData a; m_currentData := data e;
               m_history := m_history a;
               m_historyIndex := m_historyIndex a - 1;
               m_lastSelectedPoints := [];
               m_canvas := updateProcessedData (data e)
                             (clearSelection (m_canvas a));
               m_undoBtn := (0 <? m_historyIndex a - 1)%Z;
               m_redoBtn := true |}.
Proof.
  intros (Hs & Hi & _) Hpos. unfold undoAction.
  destruct (Z.ltb_spec 0 (m_historyIndex a)); [|lia]. cbv zeta.
  destruct (show_entry_Ok (m_historyIndex a - 1) (clear_selection a))
    as (e & He & E).
  { unfold size, clear_selection in *. cbn [m_history]. lia. }
  exists e. split; [exact He|].
  change (m_historyIndex (clear_selection a)) with (m_historyIndex a).
  rewrite E. cbn [bind]. rewrite updateUndoRedoButtons_Ok.
  2:{ unfold size in *. cbn [m_history m_historyIndex clear_selection]. lia. }
  unfold size in *. cbn. do 2 f_equal. apply Z.ltb_lt. lia.
Qed.

Lemma redoAction_Ok (a : SeismicApp) :
  history_ok a -> (m_historyIndex a < size a - 1)%Z ->
  exists e, m_history a !! Z.to_nat (m_historyIndex a + 1) = Some e
    /\ redoAction a
       = Ok {| m_originalData := m_originalData a; m_currentData := data e;
               m_history := m_history a;
               m_historyIndex := m_historyIndex a + 1;
               m_lastSelectedPoints := [];
               m_canvas := clearSelection
                             (updateProcessedData (data e) (m_canvas a));
               m_undoBtn := true;
               m_redoBtn := (m_historyIndex a + 1 <? size a - 1)%Z |}.
Proof.
  intros (Hs & Hi & _) Hlt. unfold redoAction.
  destruct (Z.ltb_spec (m_historyIndex a) (size a - 1)); [|lia].
  destruct (show_entry_Ok (m_historyIndex a + 1) a) as (e & He & E); [lia|].
  exists e. split; [exact He|]. rewrite E. cbn [bind].
  rewrite updateUndoRedoButtons_Ok.
  2:{ unfold size in *. cbn [m_history m_historyIndex]. lia. }
  unfold size in *. cbn. unfold clear_selection. cbn. do 3 f_equal.
  apply Z.ltb_lt. lia.
Qed.

Lemma saveToHistory_Ok (d : list (list float)) (desc : string)
    (a : SeismicApp) :
  history_ok a \/ history_empty a ->
  let h := saved_history a {| data := d; description := desc |} in
  saveToHistory d desc a
  = Ok {| m_originalData := m_originalData a; m_currentData := m_currentData a;
          m_history := h; m_historyIndex := Z.of_nat (length h) - 1;
          m_lastSelectedPoints := m_lastSelectedPoints a;
          m_canvas := m_canvas a;
          m_undoBtn := (1 <? Z.of_nat (length h))%Z;
          m_redoBtn := false |}
  /\ (0 < length h <= 20)%nat.
Proof.
  intros H h.
  assert ((-1 <= m_historyIndex a < size a)%Z /\ (size a <= 20)%Z) as [Hi Hs].
  { destruct H as [(? & ? & _)|[E1 E2]].
    - unfold MAX_HISTORY_SIZE in *. lia.
    - unfold size. rewrite E1, E2. simpl. lia. }
  clear H. unfold saveToHistory, erase_from. unfold size in *.
  set (e := {| data := d; description := desc |}) in *.
  assert ((if (m_historyIndex a <? Z.of_nat (length (m_history a)) - 1)%Z
           then if ((m_historyIndex a + 1 <? 0)
                    || (Z.of_nat (length (m_history a)) <? m_historyIndex a + 1))%Z
                then Undefined
                else Ok (take (Z.to_nat (m_historyIndex a + 1)) (m_history a))
           else Ok (m_history a))
          = Ok (take (Z.to_nat (m_historyIndex a + 1)) (m_history a))) as ->.
  { destruct (Z.ltb_spec (m_historyIndex a) (Z.of_nat (length (m_history a)) - 1)).
    - destruct (Z.ltb_spec (m_historyIndex a + 1) 0); [lia|].
      destruct (Z.ltb_spec (Z.of_nat (length (m_history a))) (m_historyIndex a + 1));
        [lia|]. reflexivity.
    - rewrite take_ge by lia. reflexivity. }
  cbn [bind]. cbv zeta.
  set (h0 := take (Z.to_nat (m_historyIndex a + 1)) (m_history a) ++ [e]).
  assert (length h0 = S (Z.to_nat (m_historyIndex a + 1))) as Hl0.
  { unfold h0. rewrite length_app, length_take. simpl. lia. }
  assert ((if (MAX_HISTORY_SIZE <? Z.of_nat (length h0))%Z then drop 1 h0 else h0)
          = h) as ->.
  { unfold h, saved_history. fold e. fold h0. cbv zeta. unfold MAX_HISTORY_SIZE.
    destruct (Z.ltb_spec 20 (Z.of_nat (length h0))).
    - replace (length h0 - 20)%nat with 1%nat by lia. reflexivity.
    - replace (length h0 - 20)%nat with 0%nat by lia. reflexivity. }
  assert (0 < length h <= 20)%nat as Hl.
  { unfold h, saved_history. fold e. fold h0. cbv zeta. rewrite length_drop. lia. }
  split; [|exact Hl].
  rewrite updateUndoRedoButtons_Ok.
  2:{ unfold size. cbn [m_history m_historyIndex]. lia. }
  unfold size. cbn [m_history m_historyIndex m_originalData m_currentData
    m_lastSelectedPoints m_canvas]. do 2 f_equal.
  - destruct (Z.ltb_spec 0 (Z.of_nat (length h) - 1));
      destruct (Z.ltb_spec 1 (Z.of_nat (length h))); try lia; reflexivity.
  - apply Z.ltb_ge. lia.
Qed.

Lemma updateProcessedData_data (d : list (list float)) (c : SeismicCanvas) :
  m_data (updateProcessedData d c) = m_data c.
Proof.
  unfold updateProcessedData. destruct d as [|d0 d]; [done|].
  destruct (m_data c) as [|c0 cd] eqn:E; [done|].
  destruct (_ || _); [done|]. by rewrite <- E.
Qed.

Lemma updateProcessedData_accepted (d : list (list float))
    (c : SeismicCanvas) :
  accepted d c -> m_processedData (updateProcessedData d c) = d.
Proof.
  intros (Hd & Hc & Hn & Hm). unfold updateProcessedData.
  destruct d as [|d0 d]; [done|].
  destruct (m_data c) as [|c0 cd] eqn:E; [done|].
  cbn [head default from_option id] in Hm.
  rewrite Hn, Hm, !Nat.eqb_refl. done.
Qed.

Lemma updateProcessedData_selection (d : list (list float))
    (c : SeismicCanvas) :
  updateProcessedData d c
  = {| m_data := m_data c;
       m_processedData := m_processedData (updateProcessedData d c);
       m_sampleInterval := m_sampleInterval c;
       m_selectionMode := m_selectionMode c;
       m_points := m_points c; m_rectStart := m_rectStart c;
       m_dragging := m_dragging c;
       width := width c; height := height c |}.
Proof.
  unfold updateProcessedData. destruct d as [|d0 d]; [by destruct c|].
  destruct (m_data c) as [|c0 cd] eqn:E; [destruct c; simpl in *; by subst|].
  destruct (_ || _); [destruct c; simpl in *; by subst|]. by rewrite <- E.
Qed.

Lemma accepted_same_data (d : list (list float)) (c c' : SeismicCanvas) :
  m_data c' = m_data c -> accepted d c -> accepted d c'.
Proof. unfold accepted. by intros ->. Qed.



(** X26: undo and redo are inverse to each other. From a well-formed state
    that has its current entry on display, on a canvas that takes the data
    of the history: after an undo that had something to undo, redo brings
    back the entries, the index, the current data and the state of both
    buttons, and the canvas is as it was but for the selection, which is
    cleared: it draws again the data that it drew. And the other way
    round. *)
Theorem undo_redo_inverse (a : SeismicApp) :
  history_ok a -> canvas_takes a -> shows_current a ->
  ((0 < m_historyIndex a)%Z ->
   exists a1 a2, undoAction a = Ok a1 /\ redoAction a1 = Ok a2
     /\ m_historyIndex a1 = (m_historyIndex a - 1)%Z
     /\ m_history a2 = m_history a /\ m_historyIndex a2 = m_historyIndex a
     /\ m_currentData a2 = m_currentData a
     /\ m_canvas a2 = clearSelection (m_canvas a)
     /\ m_undoBtn a2 = m_undoBtn a /\ m_redoBtn a2 = m_redoBtn a)
  /\ ((m_historyIndex a < size a - 1)%Z ->
   exists a1 a2, redoAction a = Ok a1 /\ undoAction a1 = Ok a2
     /\ m_historyIndex a1 = (m_historyIndex a + 1)%Z
     /\ m_history a2 = m_history a /\ m_historyIndex a2 = m_historyIndex a
     /\ m_currentData a2 = m_currentData a
     /\ m_canvas a2 = clearSelection (m_canvas a)
     /\ m_undoBtn a2 = m_undoBtn a /\ m_redoBtn a2 = m_redoBtn a).
Proof.
  intros H Ht [Hc Hshown]. pose proof H as (Hs & Hi & Hu & Hr).
  split; intros Hpos.
  - destruct (undoAction_Ok a H Hpos) as (e & He & E1).
    eexists.
    match type of E1 with _ = Ok ?x => set (a1 := x) in * end.
    assert (history_ok a1) as H1.
    { unfold history_ok, a1, size in *. cbn. repeat split; lia. }
    destruct (redoAction_Ok a1 H1) as (e2 & He2 & E2).
    { unfold a1, size in *. cbn. lia. }
    eexists. split; [exact E1|]. split; [exact E2|].
    unfold a1, size in *. cbn in He2, Hi, Hs |- *.
    replace (m_historyIndex a - 1 + 1)%Z with (m_historyIndex a) in * by lia.
    rewrite He2 in Hc. simpl in Hc. injection Hc as Hc.
    assert (He2' : e2 ∈ m_history a) by (by eapply list_elem_of_lookup_2).
    repeat split; try done; try lia; try (rewrite ?Hu, ?Hr; lia).
    rewrite (updateProcessedData_selection (data e2)).
    rewrite updateProcessedData_accepted.
    2:{ eapply accepted_same_data; [|by apply Ht].
        by rewrite updateProcessedData_data. }
    rewrite updateProcessedData_data.
    rewrite (updateProcessedData_selection (data e)).
    unfold clearSelection, set_selection. cbn. by rewrite Hc, Hshown.
  - destruct (redoAction_Ok a H Hpos) as (e & He & E1).
    eexists.
    match type of E1 with _ = Ok ?x => set (a1 := x) in * end.
    assert (history_ok a1) as H1.
    { unfold history_ok, a1, size in *. cbn. repeat split; lia. }
    destruct (undoAction_Ok a1 H1) as (e2 & He2 & E2).
    { unfold a1, size in *. cbn. lia. }
    eexists. split; [exact E1|]. split; [exact E2|].
    unfold a1, size in *. cbn in He2, Hi, Hs |- *.
    replace (m_historyIndex a + 1 - 1)%Z with (m_historyIndex a) in * by lia.
    rewrite He2 in Hc. simpl in Hc. injection Hc as Hc.
    assert (He2' : e2 ∈ m_history a) by (by eapply list_elem_of_lookup_2).
    repeat split; try done; try lia; try (rewrite ?Hu, ?Hr; lia).
    rewrite (updateProcessedData_selection (data e2)).
    rewrite updateProcessedData_accepted.
    2:{ eapply accepted_same_data; [|by apply Ht].
        unfold clearSelection, set_selection. cbn [m_data].
        by rewrite updateProcessedData_data. }
    unfold clearSelection, set_selection. cbn.
    rewrite updateProcessedData_data.
    rewrite (updateProcessedData_selection (data e)). cbn.
    by rewrite Hc, Hshown.
Qed.

Lemma undo_redo_inverse_witness :
  exists a1 a2, undoAction app0 = Ok a1 /\ redoAction a1 = Ok a2
     /\ m_historyIndex a1 = (m_historyIndex app0 - 1)%Z
     /\ m_history a2 = m_history app0
     /\ m_historyIndex a2 = m_historyIndex app0
     /\ m_currentData a2 = m_currentData app0
     /\ m_canvas a2 = clearSelection (m_canvas app0)
     /\ m_undoBtn a2 = m_undoBtn app0 /\ m_redoBtn a2 = m_redoBtn app0.
Proof.
  apply (undo_redo_inverse app0).
  - unfold history_ok. vm_compute. repeat split; discriminate.
  - intros e He. unfold app0 in He. cbn [m_history] in He.
    apply elem_of_cons in He as [->|He];
      [|apply elem_of_cons in He as [->|He]; [|by apply elem_of_nil in He]];
      vm_compute; repeat split; discriminate.
  - split; reflexivity.
  - reflexivity.
Defined.

(** X27: saving a state after undo throws the undone states away: the history
    becomes the entries up to the current one followed by the new entry, cut
    to its last 20; the new entry is the current one, so nothing is left to
    redo, and Undo is enabled exactly when the history has more than one
    entry. *)
Theorem saveToHistory_drops_redo (d : list (list float)) (desc : string)
    (a : SeismicApp) :
  history_ok a \/ history_empty a ->
  exists a', saveToHistory d desc a = Ok a'
    /\ m_history a' = saved_history a {| data := d; description := desc |}
    /\ m_history a' !! Z.to_nat (m_historyIndex a')
       = Some {| data := d; description := desc |}
    /\ (m_historyIndex a' = size a' - 1)%Z
    /\ (size a' <= MAX_HISTORY_SIZE)%Z
    /\ m_redoBtn a' = false
    /\ m_undoBtn a' = (1 <? size a')%Z
    /\ redoAction a' = Ok a'.
Proof.
  intros H. destruct (saveToHistory_Ok d desc a H) as [E Hl].
  eexists. split; [exact E|]. unfold size, MAX_HISTORY_SIZE.
  cbn [m_history m_historyIndex m_undoBtn m_redoBtn].
  set (e := {| data := d; description := desc |}) in *.
  repeat split; try lia.
  - unfold saved_history in *. cbv zeta in *.
    set (h0 := take _ _ ++ [e]) in *.
    assert (length h0 = S (length (take (Z.to_nat (m_historyIndex a + 1))
      (m_history a)))) as Hl0 by (unfold h0; rewrite length_app; simpl; lia).
    rewrite length_drop in *. rewrite lookup_drop.
    replace (length h0 - 20 + Z.to_nat (Z.of_nat (length h0 - (length h0 - 20)) - 1))%nat
      with (length (take (Z.to_nat (m_historyIndex a + 1)) (m_history a))) by lia.
    unfold h0. by rewrite list_lookup_middle.
  - unfold redoAction, size. cbn [m_history m_historyIndex].
    destruct (Z.ltb_spec (Z.of_nat (length (saved_history a e)) - 1)
      (Z.of_nat (length (saved_history a e)) - 1)); [lia|]. reflexivity.
Qed.

Lemma saveToHistory_drops_redo_witness :
  exists a', saveToHistory [[f32_one]] "Window 2" app0 = Ok a'
    /\ m_history a'
       = saved_history app0 {| data := [[f32_one]]; description := "Window 2" |}
    /\ m_history a' !! Z.to_nat (m_historyIndex a')
       = Some {| data := [[f32_one]]; description := "Window 2" |}
    /\ (m_historyIndex a' = size a' - 1)%Z
    /\ (size a' <= MAX_HISTORY_SIZE)%Z
    /\ m_redoBtn a' = false
    /\ m_undoBtn a' = (1 <? size a')%Z
    /\ redoAction a' = Ok a'.
Proof.
  apply (saveToHistory_drops_redo [[f32_one]] "Window 2" app0).
  left. unfold history_ok. vm_compute. repeat split; discriminate.
Defined.
End HistoryFacts.

(** ** The selection on the canvas *)

Section CanvasFacts.
Import Canvas App.

Lemma fl_le_refl (x y : spec_float) : fl_le x y = true -> fl_le y y = true.
Proof.
  intros H. unfold fl_le, SFleb in *. rewrite SFcompare_refl; [done|].
  intros ->. by destruct x.
Qed.

Lemma fl_le_zero : fl_le f64_zero f64_zero = true.
Proof. reflexivity. Qed.

Lemma clamp_in_extent (hi x : double) :
  fl_le f64_zero hi = true ->
  fl_le f64_zero (fl_max f64_zero (fl_min hi x)) = true
  /\ fl_le (fl_max f64_zero (fl_min hi x)) hi = true.
Proof.
  intros H. unfold fl_min. destruct (fl_lt x hi) eqn:E1.
  - unfold fl_max. destruct (fl_lt f64_zero x) eqn:E0.
    + by rewrite !fl_lt_le.
    + by rewrite H.
  - unfold fl_max. destruct (fl_lt f64_zero hi) eqn:E0.
    + by rewrite H, (fl_le_refl _ _ H).
    + by rewrite H.
Qed.

Lemma in_extent_origin (c : SeismicCanvas) :
  fl_le f64_zero (trace_extent c) = true ->
  fl_le f64_zero (time_extent c) = true ->
  in_extent c origin = true.
Proof. intros H1 H2. unfold in_extent, origin. cbn [fst snd]. by rewrite H1, H2. Qed.

Lemma pixelToDataCoords_clamped (p : QPointF) (c : SeismicCanvas) :
  fl_le f64_zero (trace_extent c) = true ->
  fl_le f64_zero (time_extent c) = true ->
  in_extent c (pixelToDataCoords p c) = true.
Proof.
  intros H1 H2. unfold pixelToDataCoords.
  destruct (m_data c) as [|[|x data0] rest] eqn:E;
    try by apply in_extent_origin.
  cbv zeta. destruct (_ || _); [by apply in_extent_origin|].
  unfold in_extent, trace_extent, time_extent in *. rewrite E in *.
  cbn [fst snd head default from_option id] in *.
  destruct (clamp_in_extent _ (f64_mul (f64_div p.1 (f64_of_int (width c - 1)))
    (f64_sub (f64_of_int (Z.of_nat (length ((x :: data0) :: rest))))
       (f64_of_int 1))) H1) as [-> ->].
  destruct (clamp_in_extent _ (f64_mul (f64_div p.2 (f64_of_int (height c - 1)))
    (f64_mul (f64_mul (f64_of_int (Z.of_nat (length (x :: data0)) - 1))
       (m_sampleInterval c)) (f64_of_int 1000))) H2) as [-> ->].
  reflexivity.
Qed.

(** X28: a pixel, inside the widget or not, maps to a point of the data.
    When the canvas holds no data or no sample, or is one pixel wide or high
    or less, [pixelToDataCoords] returns the origin. When the extent of the
    data is not negative, it returns a trace between 0 and the last trace
    and a time between 0 and the time of the last sample. *)
Theorem pixelToDataCoords_in_extent (p : QPointF) (c : SeismicCanvas) :
  (m_data c = [] \/ head (m_data c) = Some [] \/ (width c <= 1)%Z
   \/ (height c <= 1)%Z -> pixelToDataCoords p c = origin)
  /\ (fl_le f64_zero (trace_extent c) = true ->
      fl_le f64_zero (time_extent c) = true ->
      in_extent c (pixelToDataCoords p c) = true).
Proof.
  split; [|by apply pixelToDataCoords_clamped].
  unfold pixelToDataCoords. intros H.
  destruct (m_data c) as [|[|x data0] rest]; try done.
  destruct H as [H|[H|H]]; try done. cbv zeta.
  assert (((width c <=? 1) || (height c <=? 1))%Z = true) as ->; [|done].
  apply orb_true_iff. rewrite !Z.leb_le. tauto.
Qed.

(** A canvas without data, and a pixel to the right of and above the canvas
    of 800 x 600 pixels. *)
Lemma pixelToDataCoords_in_extent_witness :
  pixelToDataCoords (pos_of 3 4) canvas_empty = origin
  /\ in_extent canvas0 (pixelToDataCoords (pos_of 900 (-5)) canvas0) = true.
Proof.
  split.
  - apply (pixelToDataCoords_in_extent (pos_of 3 4) canvas_empty).
    left. reflexivity.
  - apply (pixelToDataCoords_in_extent (pos_of 900 (-5)) canvas0).
    + vm_compute. reflexivity.
    + vm_compute. reflexivity.
Defined.

Lemma selection_ok_clear (c : SeismicCanvas) :
  fl_le f64_zero (trace_extent c) = true ->
  fl_le f64_zero (time_extent c) = true ->
  selection_ok (clearSelection c).
Proof.
  intros H1 H2. unfold selection_ok, clearSelection, set_selection.
  cbn [m_points m_rectStart m_dragging m_selectionMode].
  split; [constructor|]. split; [by apply (in_extent_origin c)|].
  split; [by left|done].
Qed.

(** X29: the selection stays well formed: after a mouse press, a mouse release,
    a key press, a change of mode, a clearing or new processed data, every
    selected point still lies in the extent of the data, a rectangle still
    has no point or two, and a drag is only under way in rectangle mode with
    nothing selected. *)
Theorem selection_is_kept (c : SeismicCanvas) :
  fl_le f64_zero (trace_extent c) = true ->
  fl_le f64_zero (time_extent c) = true ->
  selection_ok c ->
  (forall button x y, selection_ok (mousePressEvent button x y c).1)
  /\ (forall button x y, selection_ok (mouseReleaseEvent button x y c))
  /\ (forall key, selection_ok (keyPressEvent key c).1)
  /\ (forall mode, selection_ok (setSelectionMode mode c))
  /\ selection_ok (clearSelection c)
  /\ (forall new_data, selection_ok (updateProcessedData new_data c)).
Proof.
  intros H1 H2 H. pose proof (selection_ok_clear c H1 H2) as Hclear.
  pose proof H as (Hp & Hr & Hn & Hd).
  split; [|split; [|split; [|split; [|split]]]].
  - intros button x y. unfold mousePressEvent.
    destruct (m_data c); [done|].
    destruct button; try done.
    + destruct (m_selectionMode c) eqn:Em.
      * cbn [fst]. unfold selection_ok, set_selection.
        cbn [m_points m_rectStart m_dragging m_selectionMode].
        split; [|split; [done|split]].
        -- apply Forall_app. split; [done|]. constructor; [|constructor].
           by apply (pixelToDataCoords_clamped _ c).
        -- rewrite Em. done.
        -- intros Hg. destruct (Hd Hg) as [? _]. congruence.
      * cbv zeta. cbn [fst]. unfold selection_ok, set_selection, clearSelection.
        cbn [m_points m_rectStart m_dragging m_selectionMode].
        split; [constructor|]. split.
        { by apply (pixelToDataCoords_clamped _ (clearSelection c)). }
        split; [by left|done].
    + unfold finalizeSelection.
      destruct (m_selectionMode c);
        repeat match goal with |- context [if ?b then _ else _] =>
          destruct b end; done.
  - intros button x y. unfold mouseReleaseEvent.
    destruct button; try done. destruct (m_dragging c) eqn:Eg; try done.
    destruct (m_selectionMode c) eqn:Em; try done.
    destruct (Hd eq_refl) as [_ E]. unfold selection_ok, set_selection.
    cbn [m_points m_rectStart m_dragging m_selectionMode]. rewrite E.
    split; [|split; [done|split; [by right|done]]].
    repeat constructor; [done|]. by apply (pixelToDataCoords_clamped _ c).
  - intros key. unfold keyPressEvent, finalizeSelection.
    destruct key; try done;
      destruct (m_selectionMode c);
        repeat match goal with |- context [if ?b then _ else _] =>
          destruct b end; done.
  - intros mode. unfold setSelectionMode.
    destruct (m_selectionMode c), mode; try done;
      unfold selection_ok, clearSelection, set_selection;
      cbn [m_points m_rectStart m_dragging m_selectionMode];
      (split; [constructor|]); (split; [by apply (in_extent_origin c)|]);
      (split; [by left|done]).
  - exact Hclear.
  - intros new_data. unfold updateProcessedData.
    destruct new_data; [done|]. destruct (m_data c) eqn:E; [done|].
    destruct (_ || _); [done|]. unfold selection_ok, in_extent, trace_extent,
      time_extent in *. cbn [m_points m_rectStart m_dragging m_selectionMode
      m_data m_sampleInterval]. rewrite E in *. done.
Qed.

Lemma selection_is_kept_witness :
  (forall button x y, selection_ok (mousePressEvent button x y canvas0).1)
  /\ (forall button x y, selection_ok (mouseReleaseEvent button x y canvas0))
  /\ (forall key, selection_ok (keyPressEvent key canvas0).1)
  /\ (forall mode, selection_ok (setSelectionMode mode canvas0))
  /\ selection_ok (clearSelection canvas0)
  /\ (forall new_data, selection_ok (updateProcessedData new_data canvas0)).
Proof.
  apply (selection_is_kept canvas0).
  - vm_compute. reflexivity.
  - vm_compute. reflexivity.
  - unfold selection_ok. cbn [m_points m_rectStart m_dragging m_selectionMode
      canvas0]. split; [constructor|]. split; [vm_compute; reflexivity|].
    split; [by left|discriminate].
Defined.

(** X30: [windowSelected] is only emitted with a usable window: whenever a
    mouse press or a key press emits the signal, it carries the points that
    were selected on the canvas, at least two of them; in rectangle mode
    they are exactly two and only a press of the right button emits them; a
    press of the left button never emits; a key emits only in point-by-point
    mode, and only Return or Enter. *)
Theorem windowSelected_points (c : SeismicCanvas) (points : list QPointF) :
  (forall button x y,
     (mousePressEvent button x y c).2 = Some points ->
     button = RightButton /\ points = m_points c /\ 2 <= length points
     /\ (m_selectionMode c = RECTANGLE -> length points = 2))
  /\ (forall key,
     (keyPressEvent key c).2 = Some points ->
     (key = Key_Return \/ key = Key_Enter)
     /\ m_selectionMode c = POINT_BY_POINT
     /\ points = m_points c /\ 2 <= length points).
Proof.
  split.
  - intros button x y. unfold mousePressEvent, finalizeSelection.
    destruct (m_data c); [done|].
    destruct button; try done.
    + by destruct (m_selectionMode c).
    + destruct (m_selectionMode c).
      * destruct (Nat.leb_spec 2 (length (m_points c))); [|done].
        destruct (Nat.ltb_spec (length (m_points c)) 2); [lia|].
        cbn [fst snd]. intros [= <-]. done.
      * destruct (Nat.eqb_spec (length (m_points c)) 2) as [E|]; [|done].
        destruct (Nat.ltb_spec (length (m_points c)) 2); [lia|].
        cbn [fst snd]. intros [= <-]. repeat split; try done; lia.
  - intros key. unfold keyPressEvent, finalizeSelection.
    destruct key; try done; destruct (m_selectionMode c); try done;
      (destruct (Nat.leb_spec 2 (length (m_points c))); [|done]);
      (destruct (Nat.ltb_spec (length (m_points c)) 2); [lia|]);
      cbn [fst snd]; intros [= <-]; repeat split; try done; auto.
Qed.

End CanvasFacts.
